(** * Ratio Ghost (Python edition): the tracker proxy of [RatioGSpoof.py]

    A shallow embedding of the interception / rewrite engine of
    [RatioGSpoof.py] (the bencoding decoder [bdecode], the connection
    handler [handle_client] with [forward_request], and the tracker
    connection [forward_to_tracker]), and theorems about it.

    Conventions of the embedding.
    - Python [bytes] and [str] values are Rocq [string]s.  The request is
      taken as 7-bit text, for which [decode("utf-8", errors="ignore")] and
      [encode("utf-8")] are the identity, so the received bytes and the
      request text are the same string; [request_in_model] says that a
      request is such a text.
    - Python [int] is [Z]; Python [float] is the primitive binary64 [float].
    - Code that can raise returns in the error monad [Py.res]; every
      exception of the modelled code is an [Exception], which is what the
      handlers of the source catch.
    - The process-wide dictionary [seed_counts] is a [gmap string Z] passed
      in and returned; the tracker reached by [forward_to_tracker] is a
      function argument of [handle_client], and [forward_to_tracker] itself
      runs over a [network] that scripts what [create_connection],
      [sendall] and each [recv] do; writes to the client socket are
      assumed to succeed.
    - [int] and [decode_next] have no limit on the digits of a literal and
      on the depth of the recursion, which the interpreter has.
      [request_in_model] and [buffer_in_model] bound the digits of a
      request and the digits and the nesting of a reply so that the limits
      are not reached.  A theorem that holds of the source only within
      these bounds has them as hypotheses, or says so in its text. *)

From Stdlib Require Import ZArith Ascii String List Bool Lia.
From Stdlib Require Import Floats DecimalString DecimalPos.
From stdpp Require Import gmap strings.

Local Open Scope Z_scope.
#[local] Set Warnings "-register-all".

(* ===================================================================== *)
(** * Python runtime primitives used by the source                        *)
(* ===================================================================== *)

Module Py.

(** Exceptions.  [FuelExhausted] is not a Python exception: it is what the
    fuel-bounded decoder returns when its fuel runs out, and the lemma
    [bdecode_total] shows that [bdecode] never returns it. *)
Inductive exn : Set :=
  | ValueError
  | TypeError
  | OverflowError
  | FuelExhausted.

Inductive res (A : Type) : Type :=
  | Ok (a : A)
  | Raise (e : exn).
Arguments Ok {A} a.
Arguments Raise {A} e.

#[global] Instance res_ret : MRet res := fun A a => Ok a.
#[global] Instance res_bind : MBind res := fun A B k r =>
  match r with
  | Ok a => k a
  | Raise e => Raise e
  end.

(** [try: v = c  except Exception: v = d] *)
Definition or_else {A} (r : res A) (d : A) : A :=
  match r with
  | Ok a => a
  | Raise _ => d
  end.

(** ** Strings and bytes *)

Definition nonempty (s : string) : bool :=
  match s with
  | EmptyString => false
  | String _ _ => true
  end.

Fixpoint drop (n : nat) (s : string) : string :=
  match n, s with
  | O, _ => s
  | S n', String _ s' => drop n' s'
  | S _, EmptyString => EmptyString
  end.

Fixpoint take (n : nat) (s : string) : string :=
  match n, s with
  | S n', String c s' => String c (take n' s')
  | _, _ => EmptyString
  end.

Definition len (s : string) : Z := Z.of_nat (String.length s).

(** Index normalisation of a slice bound: negative bounds count from the
    end, and every bound is clamped to [0, len]. *)
Definition clamp (n i : Z) : Z :=
  if i <? 0 then Z.max (i + n) 0 else Z.min i n.

(** [s[a:b]] *)
Definition slice (s : string) (a b : Z) : string :=
  let a' := clamp (len s) a in
  let b' := clamp (len s) b in
  take (Z.to_nat (b' - a')) (drop (Z.to_nat a') s).

(** Position of the first occurrence of the character [c] in [s]. *)
Fixpoint find_char (c : ascii) (s : string) : option nat :=
  match s with
  | EmptyString => None
  | String d s' =>
      if Ascii.eqb d c then Some O
      else match find_char c s' with
           | Some k => Some (S k)
           | None => None
           end
  end.

(** [data.index(c, start)] for a one-byte [c]: the position of the first
    occurrence at or after [start], [ValueError] when there is none. *)
Definition index (data : string) (c : ascii) (start : Z) : res Z :=
  let start' := if start <? 0 then Z.max (start + len data) 0 else start in
  match find_char c (drop (Z.to_nat start') data) with
  | Some k => Ok (start' + Z.of_nat k)
  | None => Raise ValueError
  end.

Definition is_digit (c : ascii) : bool :=
  match c with
  | "0" | "1" | "2" | "3" | "4" | "5" | "6" | "7" | "8" | "9" => true
  | _ => false
  end%char.

Definition digit_value (c : ascii) : Z :=
  Z.of_nat (nat_of_ascii c) - 48.

Fixpoint forallb (p : ascii -> bool) (s : string) : bool :=
  match s with
  | EmptyString => true
  | String c s' => p c && forallb p s'
  end.

(** [b.isdigit()]: non-empty and made of ASCII digits only. *)
Definition isdigit (s : string) : bool := nonempty s && forallb is_digit s.

(** The longest prefix of [s] whose characters satisfy [p], and the rest. *)
Fixpoint span (p : ascii -> bool) (s : string) : string * string :=
  match s with
  | EmptyString => (EmptyString, EmptyString)
  | String c s' =>
      if p c then let (a, b) := span p s' in (String c a, b)
      else (EmptyString, s)
  end.

(** [s] without the prefix [p], when [s] starts with [p]. *)
Fixpoint strip_prefix (p s : string) : option string :=
  match p, s with
  | EmptyString, _ => Some s
  | String a p', String b s' =>
      if Ascii.eqb a b then strip_prefix p' s' else None
  | String _ _, EmptyString => None
  end.

Definition startswith (s p : string) : bool :=
  match strip_prefix p s with
  | Some _ => true
  | None => false
  end.

(** [sub in s] *)
Fixpoint contains (sub s : string) : bool :=
  startswith s sub ||
  match s with
  | EmptyString => false
  | String _ s' => contains sub s'
  end.

(** [s.split(sep)] cut at the first occurrence of [sep]: the text before it
    and the text after it, or [None] when [sep] does not occur. *)
Fixpoint cut (sep s : string) : option (string * string) :=
  match strip_prefix sep s with
  | Some rest => Some (EmptyString, rest)
  | None =>
      match s with
      | EmptyString => None
      | String c s' =>
          match cut sep s' with
          | Some (a, b) => Some (String c a, b)
          | None => None
          end
      end
  end.

(** [s.split(sep)] for a non-empty separator.  The recursion is on the
    length of the text still to be split. *)
Fixpoint split_fuel (fuel : nat) (sep s : string) : list string :=
  match fuel with
  | O => [s]
  | S fuel' =>
      match cut sep s with
      | Some (a, b) => a :: split_fuel fuel' sep b
      | None => [s]
      end
  end.

Definition split (sep s : string) : list string :=
  split_fuel (String.length s) sep s.

(** [sep.join(l)] *)
Definition join (sep : string) (l : list string) : string :=
  String.concat sep l.

Definition lower_char (c : ascii) : ascii :=
  let n := nat_of_ascii c in
  if ((65 <=? n) && (n <=? 90))%nat then ascii_of_nat (n + 32) else c.

(** [s.lower()] on 7-bit text. *)
Fixpoint lower (s : string) : string :=
  match s with
  | EmptyString => EmptyString
  | String c s' => String (lower_char c) (lower s')
  end.

(** ** Integers *)

(** White space skipped by [int] around a literal.  A 7-bit [str] is
    parsed by the same scanner as a [bytes] value, so the set is the same
    for both. *)
Definition is_space (c : ascii) : bool :=
  match c with
  | "009" | "010" | "011" | "012" | "013" | " " => true
  | _ => false
  end%char.

(** [s] without its leading white space. *)
Fixpoint lstrip (s : string) : string :=
  match s with
  | EmptyString => EmptyString
  | String c s' => if is_space c then lstrip s' else s
  end.

(** The digits of a decimal literal, with single underscores allowed
    between digits: the value read and the text left, or [None] when an
    underscore is not followed by a digit. *)
Fixpoint digits_run (acc : Z) (s : string) : option (Z * string) :=
  match s with
  | EmptyString => Some (acc, s)
  | String c s' =>
      if is_digit c then digits_run (10 * acc + digit_value c) s'
      else if Ascii.eqb c "_" then
        match s' with
        | String d _ => if is_digit d then digits_run acc s' else None
        | EmptyString => None
        end
      else Some (acc, s)
  end.

(** [int(s)] in base 10: optional white space, an optional sign, digits,
    optional white space, and nothing else.  The limit of the interpreter
    on the number of digits is not part of it: see [max_str_digits] and
    [digits_within_limit] below. *)
Definition int (s : string) : res Z :=
  let s1 := lstrip s in
  let '(sign, s2) :=
    match s1 with
    | String c r =>
        if Ascii.eqb c "+" then (1, r)
        else if Ascii.eqb c "-" then (-1, r)
        else (1, s1)
    | EmptyString => (1, s1)
    end in
  match s2 with
  | String c _ =>
      if is_digit c then
        match digits_run 0 s2 with
        | Some (n, rest) =>
            if nonempty (lstrip rest) then Raise ValueError
            else Ok (sign * n)
        | None => Raise ValueError
        end
      else Raise ValueError
  | EmptyString => Raise ValueError
  end.

(** [str(n)] for an [int]. *)
Definition str_of_int (n : Z) : string :=
  NilZero.string_of_int (Z.to_int n).

(** ** Floats *)

(** Conversion of an [int] operand to [float] in mixed arithmetic: the
    nearest binary64 value (ties to even), [OverflowError] ("int too large
    to convert to float") when that value is not finite. *)
Definition float_of_int (n : Z) : res float :=
  match binary_normalize prec emax n 0 false with
  | S754_infinity _ => Raise OverflowError
  | sf => Ok (SF2Prim sf)
  end.

(** [n * x] for an [int] [n] and a [float] [x]. *)
Definition int_mul_float (n : Z) (x : float) : res float :=
  f ← float_of_int n; Ok (PrimFloat.mul f x).

(** [10 ^ k <= num / den], for positive [num] and [den]. *)
Definition pow10_le (k num den : Z) : bool :=
  if 0 <=? k then 10 ^ k * den <=? num else den <=? num * 10 ^ (- k).

(** The largest [k'] from [k] upwards, in at most [fuel] steps, with
    [10 ^ k' <= num / den]. *)
Fixpoint raise_log10 (fuel : nat) (k num den : Z) : Z :=
  match fuel with
  | O => k
  | S fuel' =>
      if pow10_le (k + 1) num den then raise_log10 fuel' (k + 1) num den
      else k
  end.

(** The decimal exponent [k] of [num / den]: [10^k <= num/den < 10^(k+1)].
    The search starts from an under-estimate obtained from the binary
    logarithms, at most a few units below [k]. *)
Definition floor_log10 (num den : Z) : Z :=
  let k0 := ((Z.log2 num - Z.log2 den - 1) * 30103) / 100000 - 1 in
  raise_log10 8 k0 num den.

(** The decimal [q * 10^p] with [n] significant digits that is nearest to
    the float [m * 2^e] and is read back as that float, when there is one.
    The values that round to [m * 2^e] are those within half the distance
    to each neighbouring float, bounds included when [m] is even. *)
Definition digits_candidate (m e : Z) (n : Z) : option (Z * Z) :=
  let num := if 0 <=? e then m * 2 ^ e else m in
  let den := if 0 <=? e then 1 else 2 ^ (- e) in
  let ulp := if 0 <=? e then 2 ^ e else 1 in
  let below := if (m =? 2 ^ 52) && (-1074 <? e) then ulp else 2 * ulp in
  let p := floor_log10 num den - (n - 1) in
  let tn := if p <? 0 then 10 ^ (- p) else 1 in
  let tp := if p <? 0 then 1 else 10 ^ p in
  let unit := 4 * den * tp in
  let v := 4 * num * tn in
  let hi := (4 * num + 2 * ulp) * tn in
  let lo := (4 * num - below) * tn in
  let inside x :=
    if Z.even m then (lo <=? x) && (x <=? hi) else (lo <? x) && (x <? hi) in
  let q := v / unit in
  let down := q * unit in
  let up := (q + 1) * unit in
  match inside down, inside up with
  | true, true =>
      if v - down <? up - v then Some (q, p)
      else if up - v <? v - down then Some (q + 1, p)
      else if Z.even q then Some (q, p) else Some (q + 1, p)
  | true, false => Some (q, p)
  | false, true => Some (q + 1, p)
  | false, false => None
  end.

(** The first candidate found with [n], [n + 1], ... significant digits. *)
Fixpoint shortest_from (fuel : nat) (m e n : Z) : Z * Z :=
  match fuel with
  | O => (m, 0)
  | S fuel' =>
      match digits_candidate m e n with
      | Some r => r
      | None => shortest_from fuel' m e (n + 1)
      end
  end.

(** The shortest decimal that is read back as [m * 2^e], and the nearest
    to it among the shortest, which is the one [repr] prints; seventeen
    significant digits always suffice for a binary64 value. *)
Definition shortest_decimal (m e : Z) : Z * Z := shortest_from 17 m e 1.

(** [q * 10^p] with the trailing zeros of [q] moved into the exponent. *)
Fixpoint rstrip_zeros_fuel (fuel : nat) (q p : Z) : Z * Z :=
  match fuel with
  | O => (q, p)
  | S fuel' =>
      if (q mod 10 =? 0) && (0 <? q) then rstrip_zeros_fuel fuel' (q / 10) (p + 1)
      else (q, p)
  end.

(** ["0" * n] *)
Fixpoint zeros (n : nat) : string :=
  match n with
  | O => EmptyString
  | S n' => String "0" (zeros n')
  end.

(** The text of a positive finite float from its digits [ds] and the
    position [decpt] of the decimal point ([0.ds * 10^decpt]): fixed
    notation with at least one fractional digit, or exponent notation when
    [decpt <= -4] or [decpt > 16]. *)
Definition format_repr (ds : string) (decpt : Z) : string :=
  let nd := len ds in
  if (decpt <=? -4) || (16 <? decpt) then
    let ex := decpt - 1 in
    let mant :=
      match ds with
      | String d EmptyString => ds
      | String d rest => String d (String "." rest)
      | EmptyString => ds
      end in
    let ex_abs := str_of_int (Z.abs ex) in
    mant +:+ "e" +:+ (if ex <? 0 then "-" else "+") +:+
    (if Z.abs ex <? 10 then "0" +:+ ex_abs else ex_abs)
  else if decpt <=? 0 then
    "0." +:+ zeros (Z.to_nat (- decpt)) +:+ ds
  else if nd <=? decpt then
    ds +:+ zeros (Z.to_nat (decpt - nd)) +:+ ".0"
  else
    take (Z.to_nat decpt) ds +:+ "." +:+ drop (Z.to_nat decpt) ds.

(** The characters that occur in the text of a float. *)
Definition float_char (c : ascii) : bool :=
  is_digit c ||
  match c with
  | "." | "e" | "+" | "-" | "i" | "n" | "f" | "a" => true
  | _ => false
  end%char.

(** [str(x)] (the same text as [repr(x)]) for a [float]. *)
Definition str_of_float (x : float) : string :=
  match Prim2SF x with
  | S754_nan => "nan"
  | S754_zero s => if s then "-0.0" else "0.0"
  | S754_infinity s => if s then "-inf" else "inf"
  | S754_finite s m e =>
      let '(q0, p0) := shortest_decimal (Z.pos m) e in
      let '(q, p) := rstrip_zeros_fuel 17 q0 p0 in
      let ds := str_of_int q in
      let body := format_repr ds (len ds + p) in
      if s then "-" +:+ body else body
  end.

(** ** The inputs on which the embedding follows the interpreter *)

(** Bytes below 128 only.  For such bytes [decode("utf-8",
    errors="ignore")] gives a text of the same characters and
    [encode("utf-8")] gives the same bytes back, so the [string] stands for
    both; for other bytes the text differs from the bytes and the
    embedding says nothing. *)
Definition seven_bit (s : string) : bool :=
  forallb (fun c => match c with Ascii _ _ _ _ _ _ _ b7 => negb b7 end) s.

(** The number of characters of [s] that satisfy [p]. *)
Fixpoint count (p : ascii -> bool) (s : string) : nat :=
  match s with
  | EmptyString => O
  | String c s' => if p c then S (count p s') else count p s'
  end.

(** [sys.int_max_str_digits]: from CPython 3.11 on, [int] raises
    [ValueError] for a literal of more digits than this, and [str] for an
    [int] of more digits.  [int] above has no such limit. *)
Definition max_str_digits : nat := 4300.

(** [s] holds at most [max_str_digits] digits, so that no literal cut out
    of [s] is beyond the limit and [int] above is the interpreter's. *)
Definition digits_within_limit (s : string) : bool :=
  (count is_digit s <=? max_str_digits)%nat.

End Py.

(* ===================================================================== *)
(** * The bencoding decoder: [bdecode]                                    *)
(* ===================================================================== *)

Module Bencode.
Import Py.

(** Keys of a decoded dictionary.  A key is a decoded value that is
    hashable: an integer or a byte string. *)
Inductive bkey : Set :=
  | KInt (n : Z)
  | KBytes (s : string).

(** Decoded values: [int], [bytes], [list] and [dict]. *)
Inductive bvalue : Set :=
  | BInt (n : Z)
  | BBytes (s : string)
  | BList (l : list bvalue)
  | BDict (d : list (bkey * bvalue)).

#[global] Instance bkey_eq_dec : EqDecision bkey.
Proof. solve_decision. Defined.

(** Hashing a decoded value used as a key: lists and dictionaries are
    unhashable and raise [TypeError]. *)
Definition as_key (v : bvalue) : res bkey :=
  match v with
  | BInt n => Ok (KInt n)
  | BBytes s => Ok (KBytes s)
  | BList _ | BDict _ => Raise TypeError
  end.

(** [d[key] = value]: an existing key keeps its place and gets the new
    value, a new key is added at the end. *)
Fixpoint dict_set (d : list (bkey * bvalue)) (key : bkey) (value : bvalue)
  : list (bkey * bvalue) :=
  match d with
  | [] => [(key, value)]
  | (k, v) :: d' =>
      if decide (k = key) then (k, value) :: d'
      else (k, v) :: dict_set d' key value
  end.

(** [d.get(key, default)] *)
Fixpoint dict_get (d : list (bkey * bvalue)) (key : bkey) (default : bvalue)
  : bvalue :=
  match d with
  | [] => default
  | (k, v) :: d' => if decide (k = key) then v else dict_get d' key default
  end.

(** [decode_next(index)], with the two [while] loops of the list and the
    dictionary cases as [decode_list] and [decode_dict].  [fuel] bounds
    the number of nested calls.  The recursion limit of the interpreter is
    not part of it: see [max_nesting] and [buffer_in_model] below. *)
Fixpoint decode_next (fuel : nat) (data : string) (index : Z)
  : res (bvalue * Z) :=
  match fuel with
  | O => Raise FuelExhausted
  | S fuel' =>
      if String.eqb (slice data index (index + 1)) "i" then
        let index := index + 1 in
        end_ ← Py.index data "e" index;
        number ← int (slice data index end_);
        Ok (BInt number, end_ + 1)
      else if isdigit (slice data index (index + 1)) then
        colon ← Py.index data ":" index;
        length ← int (slice data index colon);
        let start := colon + 1 in
        let s := slice data start (start + length) in
        Ok (BBytes s, start + length)
      else if String.eqb (slice data index (index + 1)) "l" then
        decode_list fuel' data (index + 1) []
      else if String.eqb (slice data index (index + 1)) "d" then
        decode_dict fuel' data (index + 1) []
      else Raise ValueError
  end

with decode_list (fuel : nat) (data : string) (index : Z) (lst : list bvalue)
  : res (bvalue * Z) :=
  match fuel with
  | O => Raise FuelExhausted
  | S fuel' =>
      if negb (String.eqb (slice data index (index + 1)) "e") then
        '(item, index) ← decode_next fuel' data index;
        decode_list fuel' data index (lst ++ [item])
      else Ok (BList lst, index + 1)
  end

with decode_dict (fuel : nat) (data : string) (index : Z)
                 (d : list (bkey * bvalue))
  : res (bvalue * Z) :=
  match fuel with
  | O => Raise FuelExhausted
  | S fuel' =>
      if negb (String.eqb (slice data index (index + 1)) "e") then
        '(key, index) ← decode_next fuel' data index;
        '(value, index) ← decode_next fuel' data index;
        k ← as_key key;
        decode_dict fuel' data index (dict_set d k value)
      else Ok (BDict d, index + 1)
  end.

(** Fuel that is enough for any buffer: along a chain of nested calls the
    index grows at least every second call and a call beyond the end of
    the buffer fails at once. *)
Definition fuel_for (data : string) : nat :=
  2 * String.length data + 1.

(** [bdecode(data)] *)
Definition bdecode (data : string) : res bvalue :=
  '(result, _) ← decode_next (fuel_for data) data 0;
  Ok result.

(** ** The format read by the decoder *)

(** The program has no encoder.  The functions below write down the
    bencoding of a value, the text a tracker sends for it, so that what
    the decoder reads can be stated: an integer as [i<decimal>e], a byte
    string as [<length>:<bytes>], a list as [l<items>e] and a dictionary
    as [d<key><value>...e]. *)
Definition bencode_int (n : Z) : string := "i" +:+ str_of_int n +:+ "e".

Definition bencode_bytes (s : string) : string :=
  str_of_int (len s) +:+ ":" +:+ s.

Definition bencode_key (k : bkey) : string :=
  match k with
  | KInt n => bencode_int n
  | KBytes s => bencode_bytes s
  end.

Fixpoint bencode (v : bvalue) : string :=
  match v with
  | BInt n => bencode_int n
  | BBytes s => bencode_bytes s
  | BList l => "l" +:+ fold_right (fun x acc => bencode x +:+ acc) "e" l
  | BDict d =>
      "d" +:+ fold_right (fun kx acc =>
                            bencode_key (fst kx) +:+ bencode (snd kx) +:+ acc)
                "e" d
  end.

Definition bencode_items (l : list bvalue) : string :=
  fold_right (fun x acc => bencode x +:+ acc) "e" l.

Definition bencode_entries (d : list (bkey * bvalue)) : string :=
  fold_right (fun kx acc => bencode_key (fst kx) +:+ bencode (snd kx) +:+ acc)
    "e" d.

(** The decoded value that hashes to the key [k]. *)
Definition key_value (k : bkey) : bvalue :=
  match k with
  | KInt n => BInt n
  | KBytes s => BBytes s
  end.

(** No dictionary of the value, at any depth, holds a key twice. *)
Inductive distinct_keys : bvalue -> Prop :=
  | distinct_int (n : Z) : distinct_keys (BInt n)
  | distinct_bytes (s : string) : distinct_keys (BBytes s)
  | distinct_list (l : list bvalue) :
      Forall distinct_keys l -> distinct_keys (BList l)
  | distinct_dict (d : list (bkey * bvalue)) :
      NoDup (map fst d) -> Forall (fun kx => distinct_keys (snd kx)) d ->
      distinct_keys (BDict d).

(** ** The buffers on which the decoder above is the interpreter's *)

(** A nesting that stays clear of the interpreter's recursion limit (1000
    frames, a handful of which are in use when [bdecode] is called), beyond
    which [decode_next] raises [RecursionError].  [decode_next] above has
    no such limit. *)
Definition max_nesting : nat := 900.

(** The bytes at which [decode_next] calls itself. *)
Definition opens (c : ascii) : bool := Ascii.eqb c "l" || Ascii.eqb c "d".

(** A buffer with at most [max_str_digits] digits and at most
    [max_nesting] bytes [l] or [d].  Every active call of [decode_next]
    but the first was entered at a different byte [l] or [d], so the calls
    nest at most [max_nesting + 1] deep, and every text read by [int] is
    within the digit limit: on such a buffer the interpreter raises
    neither [RecursionError] nor the [ValueError] of the digit limit. *)
Definition buffer_in_model (data : string) : bool :=
  digits_within_limit data && (count opens data <=? max_nesting)%nat.

End Bencode.

(* ===================================================================== *)
(** * The connection handler: [handle_client]                             *)
(* ===================================================================== *)

Module Proxy.
Import Py Bencode.

(** The policy globals read by [handle_client]. *)
Record config : Type := {
  MIN_SEEDERS_THRESHOLD : Z;
  UPLOAD_MULTIPLIER_LOW : float;
  UPLOAD_MULTIPLIER_HIGH : float;
  NO_DOWNLOAD : bool;
  PRETEND_TO_SEED : bool
}.

Definition crlf : string := String "013" (String "010" EmptyString).

Definition not_space (c : ascii) : bool := negb (Ascii.eqb c " ").
Definition not_amp (c : ascii) : bool := negb (Ascii.eqb c "&").
Definition not_newline (c : ascii) : bool := negb (Ascii.eqb c "010").

(** The class [[-a-zA-Z0-9\.]]. *)
Definition is_host_char (c : ascii) : bool :=
  let n := nat_of_ascii c in
  (Ascii.eqb c "-" || Ascii.eqb c "." || is_digit c ||
   ((65 <=? n) && (n <=? 90)) || ((97 <=? n) && (n <=? 122)))%nat.

(** A match of [GET (http://[^ ]+) HTTP/1\.[01]] at the start of [s]:
    group 1.  The class [[^ ]+] is followed by a space, so it takes the
    whole run of characters up to the next space. *)
Definition get_match_here (s : string) : option string :=
  match strip_prefix "GET http://" s with
  | Some r =>
      let (u, r') := span not_space r in
      if nonempty u && (startswith r' " HTTP/1.0" || startswith r' " HTTP/1.1")
      then Some ("http://" +:+ u)
      else None
  | None => None
  end.

(** [re.search(r"GET (http://[^ ]+) HTTP/1\.[01]", request_text)]: group 1
    of the leftmost match. *)
Fixpoint search_get (s : string) : option string :=
  match get_match_here s with
  | Some url => Some url
  | None =>
      match s with
      | EmptyString => None
      | String _ s' => search_get s'
      end
  end.

(** [re.match(url_regex, url)]: groups 1, 2 and 3.  The pattern is the
    text [http://], a host of one or more characters of [is_host_char],
    optionally a colon and one or more digits, and a path that starts with
    a slash and runs up to the next line feed.  Each class is followed by
    a character outside it, so each takes its whole run. *)
Definition match_url (url : string)
  : option (string * option string * string) :=
  match strip_prefix "http://" url with
  | Some r =>
      let (host, r1) := span is_host_char r in
      if nonempty host then
        match r1 with
        | String ":" r2 =>
            let (port, r3) := span is_digit r2 in
            if nonempty port && startswith r3 "/"
            then Some (host, Some port, fst (span not_newline r3))
            else None
        | String "/" _ => Some (host, None, fst (span not_newline r1))
        | _ => None
        end
      else None
  | None => None
  end.

(** A match of [marker([^&]+)] at the start of [s]: the group and the text
    after the match. *)
Definition field_here (marker s : string) : option (string * string) :=
  match strip_prefix marker s with
  | Some r =>
      let (v, post) := span not_amp r in
      if nonempty v then Some (v, post) else None
  | None => None
  end.

(** [re.search(marker + "([^&]+)", s)]: the text before the leftmost
    match, its group, and the text after the match. *)
Fixpoint search_field (marker s : string) : option (string * string * string) :=
  match field_here marker s with
  | Some (v, post) => Some (EmptyString, v, post)
  | None =>
      match s with
      | EmptyString => None
      | String c s' =>
          match search_field marker s' with
          | Some (pre, v, post) => Some (String c pre, v, post)
          | None => None
          end
      end
  end.

(** [re.sub("(" + marker + ")([^&]+)", r"\g<1>" + repl, s, count=1)]:
    the group of the leftmost match is replaced by [repl]. *)
Definition sub_first (marker repl s : string) : string :=
  match search_field marker s with
  | Some (pre, _, post) => pre +:+ marker +:+ repl +:+ post
  | None => s
  end.

(** The [params] dictionary (lines 171-175): for each known key, the
    group of [key=([^&]+)] when the pattern matches. *)
Definition extract_params (query_string : string) : gmap string string :=
  foldl
    (fun params key =>
       match search_field (key +:+ "=") query_string with
       | Some (_, v, _) => <[key := v]> params
       | None => params
       end)
    ∅ ["downloaded"; "uploaded"; "left"; "info_hash"; "event"].

(** The choice of the multiplier from the stored seed count
    (lines 181-184). *)
Definition select_multiplier (cfg : config) (seed_counts : gmap string Z)
    (info_hash : option string) : float :=
  match info_hash with
  | Some h =>
      match seed_counts !! h with
      | Some n =>
          if MIN_SEEDERS_THRESHOLD cfg <=? n then UPLOAD_MULTIPLIER_HIGH cfg
          else UPLOAD_MULTIPLIER_LOW cfg
      | None => UPLOAD_MULTIPLIER_LOW cfg
      end
  | None => UPLOAD_MULTIPLIER_LOW cfg
  end.

(** The text substituted for the uploaded value (lines 189-193): the
    value is read as an [int], 0 if that raises, multiplied by the
    multiplier and turned into text. *)
Definition modified_uploaded (v : string) (multiplier : float) : res string :=
  let original_uploaded := or_else (int v) 0 in
  x ← int_mul_float original_uploaded multiplier;
  Ok (str_of_float x).

(** The rewrite of ["uploaded"] (lines 188-194). *)
Definition rewrite_uploaded (params : gmap string string) (multiplier : float)
    (query_string : string) : res string :=
  match params !! "uploaded" with
  | Some v =>
      t ← modified_uploaded v multiplier;
      Ok (sub_first "uploaded=" t query_string)
  | None => Ok query_string
  end.

(** The rewrite of ["downloaded"] under [NO_DOWNLOAD] (lines 198-199). *)
Definition rewrite_downloaded (cfg : config) (query_string : string) : string :=
  if NO_DOWNLOAD cfg && contains "downloaded=" query_string
  then sub_first "downloaded=" "0" query_string
  else query_string.

(** The rewrite of ["left"] under [PRETEND_TO_SEED] (lines 203-204). *)
Definition rewrite_left (cfg : config) (query_string : string) : string :=
  if PRETEND_TO_SEED cfg && contains "left=" query_string
  then sub_first "left=" "0" query_string
  else query_string.

(** The three rewrites in the order of the source. *)
Definition rewrite_query (cfg : config) (params : gmap string string)
    (multiplier : float) (query_string : string) : res string :=
  q ← rewrite_uploaded params multiplier query_string;
  Ok (rewrite_left cfg (rewrite_downloaded cfg q)).

(** The header lines of the forwarded request (lines 212-219): the first
    line is dropped, a [Host] header is replaced, empty lines are
    dropped. *)
Definition updated_header (host : string) (port : Z) (line : string)
  : option string :=
  if startswith (lower line) "host:"
  then Some ("Host: " +:+ host +:+ ":" +:+ str_of_int port)
  else if nonempty line then Some line
  else None.

Definition rebuild_headers (host : string) (port : Z) (request_text : string)
  : string :=
  let header_lines := tail (split crlf request_text) in
  join crlf (omap (updated_header host port) header_lines) +:+ crlf +:+ crlf.

Definition rebuild_request (path_only query_string headers : string) : string :=
  let new_path :=
    if nonempty query_string then path_only +:+ "?" +:+ query_string
    else path_only in
  "GET " +:+ new_path +:+ " HTTP/1.1" +:+ crlf +:+ headers.

(** [path.split('?', 1)] when the path has a question mark, the path and
    an empty query otherwise. *)
Definition split_path (path : string) : string * string :=
  match cut "?" path with
  | Some (a, b) => (a, b)
  | None => (path, EmptyString)
  end.

(** What the handler does with a request before any reply is read. *)
Inductive interception : Type :=
  | Passthrough
      (** not a tracker announce: [forward_request(client_socket, request_data)] *)
  | UrlParseFailed
      (** the URL has no host and path: the socket is closed *)
  | Intercepted (host : string) (port : Z) (info_hash : option string)
                (multiplier : float) (query_string : string)
                (modified_request : string)
      (** a tracker announce: [forward_to_tracker(host, port, modified_request)],
          where [query_string] is the rewritten query *).

(** The part of [handle_client] from the parsing of the request to the
    assembling of [modified_request] (lines 136-221). *)
Definition intercept (cfg : config) (seed_counts : gmap string Z)
    (request_text : string) : res interception :=
  match search_get request_text with
  | None => Ok Passthrough
  | Some url =>
      match match_url url with
      | None => Ok UrlParseFailed
      | Some (host, port_group, path) =>
          port ← match port_group with
                 | Some p => int p
                 | None => Ok 80
                 end;
          let '(path_only, query_string) := split_path path in
          if negb (contains "info_hash=" query_string) then Ok Passthrough
          else
            let params := extract_params query_string in
            let info_hash := params !! "info_hash" in
            let multiplier := select_multiplier cfg seed_counts info_hash in
            query_string ← rewrite_query cfg params multiplier query_string;
            let headers := rebuild_headers host port request_text in
            let modified_request :=
              rebuild_request path_only query_string headers in
            Ok (Intercepted host port info_hash multiplier query_string
                            modified_request)
      end
  end.

(** Truth value of a decoded object. *)
Definition truthy (v : bvalue) : bool :=
  match v with
  | BInt n => negb (n =? 0)
  | BBytes s => nonempty s
  | BList l => match l with [] => false | _ => true end
  | BDict d => match d with [] => false | _ => true end
  end.

(** [int(complete)] for a decoded object. *)
Definition int_of_value (v : bvalue) : res Z :=
  match v with
  | BInt n => Ok n
  | BBytes s => int s
  | BList _ | BDict _ => Raise TypeError
  end.

(** The update of [seed_counts] from the decoded reply, [None] when
    [bdecode] raised (lines 234-240). *)
Definition update_seed_counts (seed_counts : gmap string Z)
    (info_hash : option string) (decoded : option bvalue)
  : res (gmap string Z) :=
  match decoded with
  | Some (BDict d) =>
      if truthy (BDict d) then
        let complete := dict_get d (KBytes "complete") (BBytes "0") in
        match info_hash with
        | Some h =>
            if nonempty h then
              n ← int_of_value complete; Ok (<[h := n]> seed_counts)
            else Ok seed_counts
        | None => Ok seed_counts
        end
      else Ok seed_counts
  | _ => Ok seed_counts
  end.

(** [forward_request(client_socket, data)]: the bytes it writes to the
    client socket with [sendall(data)] before closing it. *)
Definition forward_request (data : string) : string := data.

(** The observable effects of one run of [handle_client]. *)
Record outcome : Type := {
  upstream : option (string * Z * string);
    (** the call [forward_to_tracker(host, port, request)], if made *)
  to_client : string;
    (** the bytes written to the client socket *)
  closed : bool;
    (** the client socket is closed at the end *)
  seed_counts_after : gmap string Z
}.

(** [handle_client], for the bytes [request_data] returned by [recv] and a
    tracker [forward_to_tracker] answering with bytes or [None].  The
    text [request_text] of line 132 is taken to be [request_data] itself,
    which it is when [request_in_model request_data] holds (see below). *)
Definition handle_client (cfg : config) (seed_counts : gmap string Z)
    (forward_to_tracker : string -> Z -> string -> option string)
    (request_data : string) : outcome :=
  let quiet := {| upstream := None; to_client := EmptyString;
                  closed := true; seed_counts_after := seed_counts |} in
  if negb (nonempty request_data) then quiet
  else
    match intercept cfg seed_counts request_data with
    | Raise _ => quiet
    | Ok UrlParseFailed => quiet
    | Ok Passthrough =>
        {| upstream := None; to_client := forward_request request_data;
           closed := true; seed_counts_after := seed_counts |}
    | Ok (Intercepted host port info_hash _ _ modified_request) =>
        let sent := Some (host, port, modified_request) in
        match forward_to_tracker host port modified_request with
        | Some tracker_response =>
            if nonempty tracker_response then
              let decoded :=
                match bdecode tracker_response with
                | Ok v => Some v
                | Raise _ => None
                end in
              match update_seed_counts seed_counts info_hash decoded with
              | Ok seed_counts' =>
                  {| upstream := sent; to_client := tracker_response;
                     closed := true; seed_counts_after := seed_counts' |}
              | Raise _ =>
                  {| upstream := sent; to_client := EmptyString;
                     closed := true; seed_counts_after := seed_counts |}
              end
            else
              {| upstream := sent; to_client := EmptyString;
                 closed := true; seed_counts_after := seed_counts |}
        | None =>
            {| upstream := sent; to_client := EmptyString;
               closed := true; seed_counts_after := seed_counts |}
        end
    end.

(** ** Notions used to state the properties *)

(** The requests on which [handle_client] above is the handler of the
    source: [request_data] is 7-bit, so that [request_text], which the
    source gets from it by [decode("utf-8", errors="ignore")] (line 132),
    has the same characters, and it holds at most [max_str_digits] digits,
    so that [int] raises for no port and no count because of the digit
    limit. *)
Definition request_in_model (request_data : string) : bool :=
  seven_bit request_data && digits_within_limit request_data.

(** The query string of a request in which the pattern of line 136 has a
    match whose URL has a host and a path. *)
Definition request_query (request_text : string) : option string :=
  url ← search_get request_text;
  '(_, _, path) ← match_url url;
  Some (snd (split_path path)).

(** A request the handler passes through: the pattern
    [GET (http://[^ ]+) HTTP/1\.[01]] matches nowhere in the request, or
    the URL of its leftmost match has the form [http://host[:port]/path]
    and the text after the first question mark of the path does not
    contain the marker [info_hash=]. *)
Definition ineligible (request_text : string) : Prop :=
  search_get request_text = None ∨
  ∃ q, request_query request_text = Some q ∧ contains "info_hash=" q = false.

(** [pre] ends just before the leftmost match of [marker([^&]+)] in
    [pre +:+ rest]: the pattern matches at no position inside [pre]. *)
Definition leftmost (marker pre rest : string) : Prop :=
  ∀ a b, pre = a +:+ b → b ≠ EmptyString → field_here marker (b +:+ rest) = None.

(** Every occurrence of [marker] in [q] is followed at once by an
    ampersand or by the end of [q]. *)
Definition always_empty (marker q : string) : Prop :=
  ∀ a b, q = a +:+ marker +:+ b → b = EmptyString ∨ ∃ b', b = String "&" b'.

(** The group of a search result. *)
Definition group_of (r : option (string * string * string)) : option string :=
  match r with
  | Some (_, v, _) => Some v
  | None => None
  end.

(** The fields of a query string: the pieces between ampersands. *)
Fixpoint fields (s : string) : list string :=
  match s with
  | EmptyString => [EmptyString]
  | String c s' =>
      if Ascii.eqb c "&" then EmptyString :: fields s'
      else match fields s' with
           | f :: r => String c f :: r
           | [] => [String c EmptyString]
           end
  end.

(** The name of a field: the text before its first equals sign. *)
Definition field_name (field : string) : string :=
  match cut "=" field with
  | Some (k, _) => k
  | None => field
  end.

(** The value a query carries for the first field named [name]. *)
Definition field_value (name query : string) : option string :=
  match filter (fun f => field_name f = name) (fields query) with
  | f :: _ =>
      match cut "=" f with
      | Some (_, v) => Some v
      | None => None
      end
  | [] => None
  end.

(** ** Well-formed proxy requests *)

(** A character of a request line: no space, line feed or carriage
    return. *)
Definition line_char (c : ascii) : bool :=
  negb (Ascii.eqb c " ") && negb (Ascii.eqb c "010") && negb (Ascii.eqb c "013").

(** A character of a path: a [line_char] that is not a question mark. *)
Definition path_char (c : ascii) : bool :=
  line_char c && negb (Ascii.eqb c "?").

Definition not_cr (c : ascii) : bool := negb (Ascii.eqb c "013").

(** The header lines, each followed by an end of line, and the empty line
    that ends the headers. *)
Definition header_block (headers : list string) : string :=
  fold_right (fun h acc => h +:+ crlf +:+ acc) crlf headers.

(** The tracker URL made of [host], an optional [port], [path] and
    [query]. *)
Definition absolute_url (host : string) (port : option string)
    (path query : string) : string :=
  "http://" +:+ host
  +:+ match port with Some p => ":" +:+ p | None => EmptyString end
  +:+ path +:+ "?" +:+ query.

(** The request a client sends to the proxy for that URL, with the HTTP
    version [1.minor] and the given header lines. *)
Definition proxy_request (host : string) (port : option string)
    (path query minor : string) (headers : list string) : string :=
  ("GET " +:+ absolute_url host port path query +:+ " HTTP/1." +:+ minor)
  +:+ crlf +:+ header_block headers.

(** ** The connection to the tracker *)

(** What one call of [tracker_sock.recv(8192)] does: it returns a chunk
    of bytes, empty at the end of the stream, or raises (reset, time-out). *)
Inductive recv_result : Type :=
  | Chunk (chunk : string)
  | RecvRaises.

(** The network as [forward_to_tracker] sees it: [create_connection]
    raises ([None]) or gives a socket; on the socket [sendall] raises
    ([None]) or is followed by the results of the successive calls of
    [recv].  A socket that has nothing more to give blocks until the
    ten-second time-out set by [create_connection] raises. *)
Definition network : Type :=
  string -> Z -> option (string -> option (list recv_result)).

(** The [while True] loop of [forward_to_tracker] (lines 261-265). *)
Fixpoint recv_loop (results : list recv_result) (response : string)
  : option string :=
  match results with
  | Chunk chunk :: results' =>
      if negb (nonempty chunk) then Some response
      else recv_loop results' (response +:+ chunk)
  | RecvRaises :: _ => None
  | [] => None
  end.

(** [forward_to_tracker(host, port, request_text)]: the full response, or
    [None] when anything raised (lines 252-270). *)
Definition forward_to_tracker (net : network) (host : string) (port : Z)
    (request_text : string) : option string :=
  match net host port with
  | Some tracker_sock =>
      match tracker_sock request_text with
      | Some results => recv_loop results EmptyString
      | None => None
      end
  | None => None
  end.

(** A tracker that sends [chunks] and then closes the stream. *)
Definition sends (chunks : list string) : list recv_result :=
  map Chunk chunks ++ [Chunk EmptyString].

(** The parts of a well-formed tracker URL: a host of host characters, a
    port of digits if any, a path that starts with a slash and has no
    question mark, and no space or end of line anywhere. *)
Definition well_formed_url (host : string) (port : option string)
    (path query : string) : Prop :=
  nonempty host = true ∧ Py.forallb is_host_char host = true ∧
  match port with
  | Some p => nonempty p = true ∧ Py.forallb is_digit p = true
  | None => True
  end ∧
  startswith path "/" = true ∧ Py.forallb path_char path = true ∧
  Py.forallb line_char query = true.

End Proxy.

(* ===================================================================== *)
(** * Concrete requests, replies and policies                             *)
(* ===================================================================== *)

Module Scenario.
Import Py Bencode Proxy.

(** The default policy of the source. *)
Definition default_config : config :=
  {| MIN_SEEDERS_THRESHOLD := 5;
     UPLOAD_MULTIPLIER_LOW := 3.0;
     UPLOAD_MULTIPLIER_HIGH := 1.5;
     NO_DOWNLOAD := false;
     PRETEND_TO_SEED := false |}.

Definition no_download_config : config :=
  {| MIN_SEEDERS_THRESHOLD := 5;
     UPLOAD_MULTIPLIER_LOW := 3.0;
     UPLOAD_MULTIPLIER_HIGH := 1.5;
     NO_DOWNLOAD := true;
     PRETEND_TO_SEED := false |}.

(** An announce for the tracker [tracker.example.com:6969] with the given
    query string. *)
Definition announce (query : string) : string :=
  "GET http://tracker.example.com:6969/announce?" +:+ query +:+ " HTTP/1.1"
  +:+ crlf +:+ "Host: tracker.example.com:6969" +:+ crlf +:+ crlf.

Definition sample_query : string :=
  "info_hash=ABC&uploaded=1000&downloaded=500&left=0&event=started".

(** A tracker that is down, and one that answers every request with the
    same bytes. *)
Definition no_tracker : string -> Z -> string -> option string :=
  fun _ _ _ => None.
Definition tracker_replying (reply : string)
  : string -> Z -> string -> option string :=
  fun _ _ _ => Some reply.

(** An uploaded count of 310 digits, beyond the range of [float]. *)
Definition huge_count : string := String "1" (zeros 309).

(** A network on which every connection succeeds, every request is sent
    and [recv] gives the same results on every socket. *)
Definition network_giving (results : list recv_result) : network :=
  fun _ _ => Some (fun _ => Some results).

(** A reply of a tracker: a map with the seeder count and a list of peers. *)
Definition sample_reply : bvalue :=
  BDict [(KBytes "complete", BInt 12); (KBytes "incomplete", BInt 3);
         (KBytes "peers", BList [BBytes "peer-one"; BBytes "peer-two"])].

End Scenario.

(* ===================================================================== *)
(** * Facts about the string primitives                                   *)
(* ===================================================================== *)

Import Py Bencode Proxy.

Section StringFacts.

Lemma app_cons (c : ascii) (s t : string) :
  String c s +:+ t = String c (s +:+ t).
Proof. reflexivity. Qed.

Lemma app_empty_l (s : string) : EmptyString +:+ s = s.
Proof. reflexivity. Qed.

Lemma app_empty_r (s : string) : s +:+ EmptyString = s.
Proof. induction s as [|c s IH]; [reflexivity|]. rewrite app_cons, IH. reflexivity. Qed.

Lemma app_assoc (s t u : string) : (s +:+ t) +:+ u = s +:+ (t +:+ u).
Proof.
  induction s as [|c s IH]; [reflexivity|].
  rewrite !app_cons, IH. reflexivity.
Qed.

Lemma forallb_app (p : ascii -> bool) (s t : string) :
  Py.forallb p (s +:+ t) = Py.forallb p s && Py.forallb p t.
Proof.
  induction s as [|c s IH]; [reflexivity|].
  rewrite app_cons. simpl. rewrite IH, andb_assoc. reflexivity.
Qed.

Lemma strip_prefix_app (p s : string) : strip_prefix p (p +:+ s) = Some s.
Proof.
  induction p as [|c p IH]; [reflexivity|].
  rewrite app_cons. simpl. rewrite Ascii.eqb_refl. exact IH.
Qed.

Lemma strip_prefix_Some (p s r : string) :
  strip_prefix p s = Some r -> s = p +:+ r.
Proof.
  revert s. induction p as [|c p IH]; intros s H.
  - simpl in H. destruct s; inversion H; reflexivity.
  - destruct s as [|d s]; [discriminate|]. simpl in H.
    destruct (Ascii.eqb c d) eqn:E; [|discriminate].
    apply Ascii.eqb_eq in E. subst d. rewrite app_cons. f_equal. auto.
Qed.

Lemma span_app (p : ascii -> bool) (s a b : string) :
  span p s = (a, b) -> s = a +:+ b.
Proof.
  revert a b. induction s as [|c s IH]; intros a b H; simpl in H.
  - inversion H. reflexivity.
  - destruct (p c).
    + destruct (span p s) as [a' b'] eqn:E. inversion H; subst.
      rewrite app_cons. f_equal. auto.
    + inversion H. reflexivity.
Qed.

Lemma span_forallb (p : ascii -> bool) (s a b : string) :
  span p s = (a, b) -> Py.forallb p a = true.
Proof.
  revert a b. induction s as [|c s IH]; intros a b H; simpl in H.
  - inversion H. reflexivity.
  - destruct (p c) eqn:Hc.
    + destruct (span p s) as [a' b'] eqn:E. inversion H; subst.
      simpl. rewrite Hc. eauto.
    + inversion H. reflexivity.
Qed.

Lemma span_rest (p : ascii -> bool) (s a b : string) :
  span p s = (a, b) ->
  match b with
  | EmptyString => True
  | String c _ => p c = false
  end.
Proof.
  revert a b. induction s as [|c s IH]; intros a b H; simpl in H.
  - inversion H. exact I.
  - destruct (p c) eqn:Hc.
    + destruct (span p s) as [a' b'] eqn:E. inversion H; subst.
      exact (IH _ _ eq_refl).
    + inversion H; subst. exact Hc.
Qed.

Lemma startswith_app (p s : string) : startswith (p +:+ s) p = true.
Proof. unfold startswith. rewrite strip_prefix_app. reflexivity. Qed.

Lemma contains_cons (sub : string) (c : ascii) (s : string) :
  contains sub (String c s) = false -> contains sub s = false.
Proof. simpl. intros H. apply orb_false_elim in H. tauto. Qed.

Lemma contains_startswith (sub s : string) :
  startswith s sub = true -> contains sub s = true.
Proof. intros H. destruct s; simpl; rewrite H; reflexivity. Qed.

Lemma length_app (s t : string) :
  String.length (s +:+ t) = (String.length s + String.length t)%nat.
Proof. induction s as [|c s IH]; [reflexivity|]. rewrite app_cons. simpl. lia. Qed.

(** Cutting at a non-empty separator leaves a shorter text to split. *)
Lemma cut_shorter (sep s a b : string) :
  nonempty sep = true -> cut sep s = Some (a, b) ->
  (String.length b < String.length s)%nat.
Proof.
  intros Hsep. revert a. induction s as [|c s IH]; intros a H.
  - simpl in H. destruct sep; [discriminate|]. discriminate.
  - simpl in H. destruct (strip_prefix sep (String c s)) as [rest|] eqn:E.
    + inversion H; subst. apply strip_prefix_Some in E. rewrite E, length_app.
      destruct sep; [discriminate|]. simpl. lia.
    + destruct (cut sep s) as [[a' b']|] eqn:Ec; [|discriminate].
      inversion H; subst. specialize (IH a' eq_refl). simpl. lia.
Qed.

Lemma split_fuel_S (n : nat) (sep s : string) :
  split_fuel (S n) sep s =
  match cut sep s with
  | Some (a, b) => a :: split_fuel n sep b
  | None => [s]
  end.
Proof. reflexivity. Qed.

(** The fuel of [split] is enough: more fuel gives the same list. *)
Lemma split_fuel_enough (sep : string) (n m : nat) (s : string) :
  nonempty sep = true ->
  (String.length s <= n)%nat -> (String.length s <= m)%nat ->
  split_fuel n sep s = split_fuel m sep s.
Proof.
  intros Hsep. revert m s. induction n as [|n IH]; intros m s Hn Hm.
  - destruct s; [|simpl in Hn; lia].
    destruct m; [reflexivity|]. simpl. destruct sep; [discriminate|reflexivity].
  - simpl. destruct (cut sep s) as [[a b]|] eqn:E.
    + pose proof (cut_shorter _ _ _ _ Hsep E) as Hlt.
      destruct m as [|m]; [lia|]. simpl. rewrite E. f_equal. apply IH; lia.
    + destruct m; simpl; [|rewrite E]; reflexivity.
Qed.

End StringFacts.

(* ===================================================================== *)
(** * Facts about the query rewrites                                      *)
(* ===================================================================== *)

Section RewriteFacts.

Lemma field_here_spec (marker s v post : string) :
  field_here marker s = Some (v, post) ->
  s = marker +:+ v +:+ post /\ nonempty v = true /\ Py.forallb not_amp v = true.
Proof.
  unfold field_here. intros H.
  destruct (strip_prefix marker s) as [r|] eqn:Hp; [|discriminate].
  destruct (span not_amp r) as [v' post'] eqn:Hs.
  destruct (nonempty v') eqn:Hn; [|discriminate].
  inversion H; subst v' post'.
  apply strip_prefix_Some in Hp. subst s.
  rewrite (span_app _ _ _ _ Hs).
  repeat split; [assumption|]. eapply span_forallb; eassumption.
Qed.

(** What [search_field] returns is the leftmost match. *)
Lemma search_field_spec (marker s pre v post : string) :
  search_field marker s = Some (pre, v, post) ->
  s = pre +:+ marker +:+ v +:+ post /\
  nonempty v = true /\ Py.forallb not_amp v = true /\
  leftmost marker pre (marker +:+ v +:+ post).
Proof.
  revert pre. induction s as [|c s IH]; intros pre H.
  - simpl in H. destruct (field_here marker "") as [[v' p']|] eqn:E; [|discriminate].
    inversion H; subst. apply field_here_spec in E as (E1 & E2 & E3).
    rewrite app_empty_l. repeat split; try assumption.
    intros a b Hab Hb. destruct a; destruct b; try discriminate. congruence.
  - simpl in H. destruct (field_here marker (String c s)) as [[v' p']|] eqn:E.
    + inversion H; subst. apply field_here_spec in E as (E1 & E2 & E3).
      rewrite app_empty_l. repeat split; try assumption.
      intros a b Hab Hb. destruct a; destruct b; try discriminate. congruence.
    + destruct (search_field marker s) as [[[pre' v'] post']|] eqn:Es; [|discriminate].
      inversion H; subst. destruct (IH pre' eq_refl) as (I1 & I2 & I3 & I4).
      rewrite app_cons. repeat split; try assumption; [congruence|].
      intros a b Hab Hb. destruct a as [|d a].
      * rewrite app_empty_l in Hab. subst b. rewrite app_cons, <- I1. exact E.
      * rewrite app_cons in Hab. inversion Hab; subst. apply (I4 a b); auto.
Qed.

Lemma search_field_None_suffix (marker a s : string) :
  search_field marker (a +:+ s) = None -> field_here marker s = None.
Proof.
  induction a as [|c a IH]; intros H.
  - rewrite app_empty_l in H. destruct s; simpl in H;
      destruct (field_here marker _) as [[v p]|]; try discriminate; reflexivity.
  - rewrite app_cons in H. simpl in H.
    destruct (field_here marker (String c (a +:+ s))) as [[v p]|]; [discriminate|].
    destruct (search_field marker (a +:+ s)) as [[[pre v] post]|] eqn:E;
      [discriminate|]. auto.
Qed.

(** The pattern matches nowhere exactly when every occurrence of the
    marker has an empty value. *)
Lemma search_field_None_iff (marker q : string) :
  search_field marker q = None <-> always_empty marker q.
Proof.
  split.
  - intros H a b ->. apply search_field_None_suffix in H.
    unfold field_here in H. rewrite strip_prefix_app in H.
    destruct (span not_amp b) as [v post] eqn:Es.
    destruct v as [|c v]; [|discriminate].
    pose proof (span_app _ _ _ _ Es) as Eb. rewrite app_empty_l in Eb. subst post.
    pose proof (span_rest _ _ _ _ Es) as Hr.
    destruct b as [|c b]; [left; reflexivity|right].
    unfold not_amp in Hr. apply negb_false_iff, Ascii.eqb_eq in Hr. subst c. eauto.
  - intros H. destruct (search_field marker q) as [[[pre v] post]|] eqn:E;
      [|reflexivity].
    apply search_field_spec in E as (E1 & E2 & E3 & _).
    destruct (H pre (v +:+ post) E1) as [Hb|[b' Hb]].
    + destruct v; discriminate.
    + destruct v as [|c v]; [discriminate|]. rewrite app_cons in Hb.
      inversion Hb; subst c. discriminate E3.
Qed.

Lemma search_field_None_sub_first (marker repl s : string) :
  search_field marker s = None -> sub_first marker repl s = s.
Proof. unfold sub_first. intros ->. reflexivity. Qed.

(** The effect of one substitution: the value of the leftmost match is
    replaced and nothing else changes. *)
Lemma sub_first_spec (marker repl s pre v post : string) :
  search_field marker s = Some (pre, v, post) ->
  s = pre +:+ marker +:+ v +:+ post /\
  sub_first marker repl s = pre +:+ marker +:+ repl +:+ post.
Proof.
  intros H. unfold sub_first. rewrite H.
  apply search_field_spec in H as (H1 & _). auto.
Qed.

Lemma cut_amp_cons (c : ascii) (s : string) :
  cut "&" (String c s) =
  if Ascii.eqb c "&" then Some (EmptyString, s)
  else match cut "&" s with
       | Some (a, b) => Some (String c a, b)
       | None => None
       end.
Proof.
  cbn [cut strip_prefix]. rewrite (Ascii.eqb_sym "&" c).
  destruct (Ascii.eqb c "&"); reflexivity.
Qed.

(** The fields of a query are what [query.split("&")] returns. *)
Lemma fields_split_fuel (n : nat) (s : string) :
  (String.length s <= n)%nat -> split_fuel n "&" s = fields s.
Proof.
  revert s. induction n as [|n IH]; intros s Hn.
  - destruct s; [reflexivity|simpl in Hn; lia].
  - destruct s as [|c s]; [reflexivity|]. simpl in Hn.
    rewrite split_fuel_S, cut_amp_cons. cbn [fields].
    destruct (Ascii.eqb c "&").
    + rewrite IH by lia. reflexivity.
    + rewrite <- (IH s) by lia.
      destruct (cut "&" s) as [[a b]|] eqn:E.
      * pose proof (cut_shorter "&" s a b eq_refl E) as Hlt.
        destruct n as [|n]; [lia|]. rewrite (split_fuel_S n "&" s), E. f_equal.
        apply split_fuel_enough; [reflexivity|lia|lia].
      * destruct n; [|rewrite split_fuel_S, E]; reflexivity.
Qed.

Lemma fields_is_split (s : string) : fields s = split "&" s.
Proof. unfold split. symmetry. apply fields_split_fuel. lia. Qed.

Lemma fields_not_nil (s : string) : fields s <> [].
Proof.
  induction s as [|c s IH]; simpl; [discriminate|].
  destruct (Ascii.eqb c "&"); [discriminate|].
  destruct (fields s); [contradiction|discriminate].
Qed.

Lemma fields_app_no_amp (a b : string) :
  Py.forallb not_amp a = true ->
  exists f r, fields b = f :: r /\ fields (a +:+ b) = (a +:+ f) :: r.
Proof.
  induction a as [|c a IH]; intros Ha.
  - destruct (fields b) as [|f r] eqn:E; [exfalso; eapply fields_not_nil; eauto|].
    exists f, r. rewrite !app_empty_l. auto.
  - simpl in Ha. apply andb_true_iff in Ha as [Hc Ha].
    destruct (IH Ha) as (f & r & E1 & E2). exists f, r. split; [assumption|].
    rewrite !app_cons. simpl. unfold not_amp in Hc.
    destruct (Ascii.eqb c "&"); [discriminate|]. rewrite E2. reflexivity.
Qed.

(** A substitution leaves in place every field that does not contain the
    marker. *)
Lemma fields_sub_first (marker repl s : string) (i : nat) (seg : string) :
  Py.forallb not_amp marker = true ->
  Py.forallb not_amp repl = true ->
  fields s !! i = Some seg ->
  contains marker seg = false ->
  fields (sub_first marker repl s) !! i = Some seg.
Proof.
  intros Hm Hr. unfold sub_first. revert i seg.
  induction s as [|c s IH]; intros i seg Hi Hc.
  - simpl. destruct (field_here marker "") as [[v post]|] eqn:E; [|exact Hi].
    apply field_here_spec in E as (E1 & E2 & _).
    destruct marker; [|discriminate]. destruct v; discriminate.
  - simpl. destruct (field_here marker (String c s)) as [[v post]|] eqn:E.
    + apply field_here_spec in E as (E1 & E2 & E3).
      rewrite app_empty_l. rewrite E1 in Hi.
      destruct (fields_app_no_amp (marker +:+ v) post) as (f & r & F1 & F2).
      { rewrite forallb_app, Hm, E3. reflexivity. }
      destruct (fields_app_no_amp (marker +:+ repl) post) as (f' & r' & G1 & G2).
      { rewrite forallb_app, Hm, Hr. reflexivity. }
      rewrite <- app_assoc, F2 in Hi. rewrite <- app_assoc, G2.
      rewrite F1 in G1. inversion G1; subst f' r'.
      destruct i as [|i]; [|exact Hi].
      simpl in Hi. inversion Hi; subst seg.
      rewrite app_assoc, contains_startswith in Hc; [discriminate|].
      apply startswith_app.
    + destruct (search_field marker s) as [[[pre v] post]|] eqn:Es; [|exact Hi].
      rewrite app_cons. simpl in Hi |- *.
      destruct (Ascii.eqb c "&").
      * destruct i as [|i]; [exact Hi|]. apply (IH i seg); assumption.
      * destruct (fields s) as [|f r] eqn:F; [exfalso; eapply fields_not_nil; eauto|].
        destruct (fields (pre +:+ marker +:+ repl +:+ post)) as [|f' r'] eqn:F';
          [exfalso; eapply fields_not_nil; eauto|].
        destruct i as [|i].
        -- simpl in Hi. inversion Hi; subst seg. simpl. f_equal. f_equal.
           apply contains_cons in Hc.
           specialize (IH 0%nat f eq_refl Hc). simpl in IH. congruence.
        -- simpl in Hi |- *. apply (IH (S i) seg); assumption.
Qed.

End RewriteFacts.

(* ===================================================================== *)
(** * The text of a float has no separator                                *)
(* ===================================================================== *)

Section FloatText.

Lemma forallb_impl (p q : ascii -> bool) (s : string) :
  (forall c, p c = true -> q c = true) ->
  Py.forallb p s = true -> Py.forallb q s = true.
Proof.
  intros Hpq. induction s as [|c s IH]; [reflexivity|]. simpl.
  intros H. apply andb_true_iff in H as [H1 H2].
  rewrite (Hpq _ H1), (IH H2). reflexivity.
Qed.

Lemma forallb_take (p : ascii -> bool) (n : nat) (s : string) :
  Py.forallb p s = true -> Py.forallb p (Py.take n s) = true.
Proof.
  revert s. induction n as [|n IH]; intros [|c s]; try reflexivity. simpl.
  intros H. apply andb_true_iff in H as [H1 H2]. rewrite H1, (IH _ H2). reflexivity.
Qed.

Lemma forallb_drop (p : ascii -> bool) (n : nat) (s : string) :
  Py.forallb p s = true -> Py.forallb p (Py.drop n s) = true.
Proof.
  revert s. induction n as [|n IH]; intros [|c s]; try reflexivity; [trivial|].
  simpl. intros H. apply andb_true_iff in H as [H1 H2]. auto.
Qed.

Lemma forallb_zeros (n : nat) : Py.forallb float_char (zeros n) = true.
Proof. induction n as [|n IH]; [reflexivity|]. simpl. exact IH. Qed.

Lemma string_of_uint_chars (d : Decimal.uint) :
  Py.forallb float_char (NilEmpty.string_of_uint d) = true.
Proof. induction d; simpl; auto. Qed.

Lemma str_of_int_chars (n : Z) : Py.forallb float_char (str_of_int n) = true.
Proof.
  unfold str_of_int, NilZero.string_of_int, NilZero.string_of_uint.
  destruct (Z.to_int n) as [d|d]; destruct d; simpl;
    try reflexivity; apply string_of_uint_chars.
Qed.

Lemma format_repr_chars (ds : string) (decpt : Z) :
  Py.forallb float_char ds = true ->
  Py.forallb float_char (format_repr ds decpt) = true.
Proof.
  intros Hds. unfold format_repr.
  destruct ((decpt <=? -4) || (16 <? decpt)).
  - rewrite !forallb_app.
    assert (Hm : Py.forallb float_char
                   match ds with
                   | String d EmptyString => ds
                   | String d (String _ _ as rest) => String d (String "." rest)
                   | EmptyString => ds
                   end = true).
    { destruct ds as [|d [|d' r]]; assumption. }
    rewrite Hm. simpl.
    assert (Hs : Py.forallb float_char (if decpt - 1 <? 0 then "-" else "+") = true)
      by (destruct (decpt - 1 <? 0); reflexivity).
    rewrite Hs. simpl.
    destruct (Z.abs (decpt - 1) <? 10);
      [rewrite forallb_app; simpl|]; apply str_of_int_chars.
  - destruct (decpt <=? 0).
    + rewrite !forallb_app, forallb_zeros, Hds. reflexivity.
    + destruct (len ds <=? decpt).
      * rewrite !forallb_app, forallb_zeros, Hds. reflexivity.
      * rewrite !forallb_app, forallb_take, forallb_drop by assumption. reflexivity.
Qed.

Lemma str_of_float_chars (x : float) :
  Py.forallb float_char (str_of_float x) = true.
Proof.
  unfold str_of_float. destruct (Prim2SF x) as [s|s| |s m e].
  - destruct s; reflexivity.
  - destruct s; reflexivity.
  - reflexivity.
  - destruct (shortest_decimal (Z.pos m) e) as [q0 p0].
    destruct (rstrip_zeros_fuel 17 q0 p0) as [q p].
    assert (H := format_repr_chars (str_of_int q) (len (str_of_int q) + p)
                   (str_of_int_chars q)).
    destruct s; [rewrite forallb_app, H; reflexivity | exact H].
Qed.

Lemma str_of_float_no_amp (x : float) :
  Py.forallb not_amp (str_of_float x) = true.
Proof.
  apply (forallb_impl float_char); [|apply str_of_float_chars].
  intros c Hc. unfold not_amp. destruct (Ascii.eqb_spec c "&"); [subst c; discriminate|reflexivity].
Qed.

End FloatText.

(* ===================================================================== *)
(** * Facts about [int]                                                   *)
(* ===================================================================== *)

Section IntFacts.

Lemma is_digit_inv (c : ascii) :
  is_digit c = true ->
  is_space c = false /\ Ascii.eqb c "+" = false /\ Ascii.eqb c "-" = false /\
  Ascii.eqb c ":" = false /\ Ascii.eqb c "i" = false /\
  Ascii.eqb c "e" = false /\ 0 <= digit_value c.
Proof.
  destruct c as [[] [] [] [] [] [] [] []]; intros H; try discriminate H;
    repeat split; vm_compute; congruence.
Qed.

Lemma digits_run_all (s : string) (acc : Z) :
  Py.forallb is_digit s = true -> exists n, digits_run acc s = Some (n, EmptyString).
Proof.
  revert acc. induction s as [|c s IH]; intros acc H; simpl in *.
  - eauto.
  - apply andb_true_iff in H as [Hc Hs]. rewrite Hc. auto.
Qed.

Lemma digits_run_nonneg (s rest : string) (acc n : Z) :
  digits_run acc s = Some (n, rest) -> 0 <= acc -> 0 <= n.
Proof.
  revert acc. induction s as [|c s IH]; intros acc H Hacc; simpl in H.
  - inversion H; subst; assumption.
  - destruct (is_digit c) eqn:Hc.
    + apply IH in H; [assumption|]. apply is_digit_inv in Hc. lia.
    + destruct (Ascii.eqb c "_").
      * destruct s as [|d s']; [discriminate|].
        destruct (is_digit d); [|discriminate]. eauto.
      * inversion H; subst; assumption.
Qed.

(** A non-empty run of digits is always read. *)
Lemma int_digits (s : string) :
  nonempty s = true -> Py.forallb is_digit s = true -> exists n, int s = Ok n.
Proof.
  intros Hn Hd. destruct s as [|c s]; [discriminate|].
  pose proof Hd as Hd'. simpl in Hd'. apply andb_true_iff in Hd' as [Hc _].
  destruct (is_digit_inv _ Hc) as (H1 & H2 & H3 & _).
  unfold int. simpl lstrip. rewrite H1. rewrite H2, H3, Hc.
  destruct (digits_run_all _ 0 Hd) as [n ->]. simpl. eauto.
Qed.

(** A literal that starts with a digit is not negative. *)
Lemma int_digit_head_nonneg (c : ascii) (s : string) (n : Z) :
  is_digit c = true -> int (String c s) = Ok n -> 0 <= n.
Proof.
  intros Hc H. destruct (is_digit_inv _ Hc) as (H1 & H2 & H3 & _).
  unfold int in H. simpl lstrip in H. rewrite H1 in H. rewrite H2, H3, Hc in H.
  destruct (digits_run 0 (String c s)) as [[m rest]|] eqn:E; [|discriminate].
  apply digits_run_nonneg in E; [|lia].
  destruct (nonempty (lstrip rest)); inversion H; subst. lia.
Qed.

End IntFacts.

(* ===================================================================== *)
(** * Facts about the decoder                                             *)
(* ===================================================================== *)

Section DecoderFacts.

Lemma drop_length_ge (n : nat) (s : string) :
  (String.length s <= n)%nat -> Py.drop n s = EmptyString.
Proof.
  revert s. induction n as [|n IH]; intros [|c s] H; simpl in *;
    try reflexivity; [lia|]. apply IH. lia.
Qed.

Lemma drop_length_lt (n : nat) (s : string) :
  (n < String.length s)%nat -> exists c r, Py.drop n s = String c r.
Proof.
  revert s. induction n as [|n IH]; intros [|c s] H; simpl in *; try lia.
  - eauto.
  - apply IH. lia.
Qed.

Lemma take_all (n : nat) (s : string) :
  (String.length s <= n)%nat -> Py.take n s = s.
Proof.
  revert s. induction n as [|n IH]; intros [|c s] H; simpl in *;
    try reflexivity; [lia|]. f_equal. apply IH. lia.
Qed.

Lemma length_drop (n : nat) (s : string) :
  String.length (Py.drop n s) = (String.length s - n)%nat.
Proof.
  revert s. induction n as [|n IH]; intros [|c s]; simpl; try lia. apply IH.
Qed.

(** A slice that starts at or beyond the end of the buffer is empty. *)
Lemma slice_beyond (data : string) (a b : Z) :
  len data <= a -> slice data a b = EmptyString.
Proof.
  intros H. unfold slice, clamp, len in *.
  destruct (a <? 0) eqn:Ea; [lia|].
  rewrite drop_length_ge by lia. destruct (Z.to_nat _); reflexivity.
Qed.

(** The one-byte slice at a position inside the buffer, and the longer
    slices that start there. *)
Lemma slice_inside (data : string) (a : Z) :
  0 <= a -> slice data a (a + 1) <> EmptyString ->
  a < len data /\
  exists c r, Py.drop (Z.to_nat a) data = String c r /\
              slice data a (a + 1) = String c EmptyString /\
              forall b, a < b -> exists r', slice data a b = String c r'.
Proof.
  intros Ha Hne.
  assert (Hlt : a < len data).
  { destruct (Z_lt_ge_dec a (len data)); [assumption|].
    exfalso. apply Hne, slice_beyond. lia. }
  split; [assumption|].
  destruct (drop_length_lt (Z.to_nat a) data) as (c & r & E).
  { unfold len in Hlt. lia. }
  exists c, r. split; [assumption|]. unfold slice, clamp. fold (len data).
  destruct (a <? 0) eqn:Ea; [lia|]. split.
  - destruct (a + 1 <? 0) eqn:Eb; [lia|].
    replace (Z.to_nat (Z.min (a + 1) (len data) - Z.min a (len data))) with 1%nat by lia.
    replace (Z.min a (len data)) with a by lia. rewrite E. reflexivity.
  - intros b Hb. destruct (b <? 0) eqn:Eb; [lia|].
    replace (Z.min a (len data)) with a by lia. rewrite E.
    destruct (Z.to_nat (Z.min b (len data) - a)) as [|m] eqn:Em; [lia|].
    simpl. eauto.
Qed.

Lemma index_exn (data : string) (c : ascii) (start : Z) (e : exn) :
  Py.index data c start = Raise e -> e = ValueError.
Proof.
  unfold Py.index. destruct (find_char _ _); intros H; inversion H; reflexivity.
Qed.

Lemma int_exn (s : string) (e : exn) : int s = Raise e -> e = ValueError.
Proof.
  unfold int. intros H.
  repeat match type of H with
         | context [match ?x with _ => _ end] => destruct x
         | context [if ?x then _ else _] => destruct x
         end; inversion H; reflexivity.
Qed.

Lemma index_ge (data : string) (c : ascii) (start k : Z) :
  0 <= start -> Py.index data c start = Ok k -> start <= k.
Proof.
  unfold Py.index. intros Hs. destruct (start <? 0) eqn:E; [lia|].
  destruct (find_char _ _); intros H; inversion H. lia.
Qed.

(** The length read before the colon of a byte string is not negative and
    the colon lies after the first digit. *)
Lemma string_header (data : string) (index colon length : Z) :
  0 <= index ->
  isdigit (slice data index (index + 1)) = true ->
  Py.index data ":" index = Ok colon ->
  int (slice data index colon) = Ok length ->
  index < colon /\ 0 <= length.
Proof.
  intros Hi Hd Hc Hl.
  destruct (slice_inside data index Hi) as (Hlt & c & r & E & E1 & E2).
  { intros Hs. rewrite Hs in Hd. discriminate. }
  rewrite E1 in Hd. unfold isdigit in Hd. simpl in Hd.
  rewrite andb_true_r in Hd.
  destruct (is_digit_inv _ Hd) as (_ & _ & _ & Hcolon & _).
  assert (Hgt : index < colon).
  { unfold Py.index in Hc. destruct (index <? 0) eqn:Ei; [lia|].
    rewrite E in Hc. simpl in Hc. rewrite Hcolon in Hc.
    destruct (find_char ":" r); inversion Hc. lia. }
  split; [assumption|].
  destruct (E2 colon Hgt) as [r' Er']. rewrite Er' in Hl.
  eapply int_digit_head_nonneg; eassumption.
Qed.

Lemma decode_next_unfold (fuel : nat) (data : string) (index : Z) :
  decode_next (S fuel) data index =
  if String.eqb (slice data index (index + 1)) "i" then
    end_ ← Py.index data "e" (index + 1);
    number ← int (slice data (index + 1) end_);
    Ok (BInt number, end_ + 1)
  else if isdigit (slice data index (index + 1)) then
    colon ← Py.index data ":" index;
    length ← int (slice data index colon);
    Ok (BBytes (slice data (colon + 1) (colon + 1 + length)), colon + 1 + length)
  else if String.eqb (slice data index (index + 1)) "l" then
    decode_list fuel data (index + 1) []
  else if String.eqb (slice data index (index + 1)) "d" then
    decode_dict fuel data (index + 1) []
  else Raise ValueError.
Proof. reflexivity. Qed.

Lemma decode_list_unfold (fuel : nat) (data : string) (index : Z) (lst : list bvalue) :
  decode_list (S fuel) data index lst =
  if negb (String.eqb (slice data index (index + 1)) "e") then
    '(item, index) ← decode_next fuel data index;
    decode_list fuel data index (lst ++ [item])
  else Ok (BList lst, index + 1).
Proof. reflexivity. Qed.

Lemma decode_dict_unfold (fuel : nat) (data : string) (index : Z)
    (d : list (bkey * bvalue)) :
  decode_dict (S fuel) data index d =
  if negb (String.eqb (slice data index (index + 1)) "e") then
    '(key, index) ← decode_next fuel data index;
    '(value, index) ← decode_next fuel data index;
    k ← as_key key;
    decode_dict fuel data index (dict_set d k value)
  else Ok (BDict d, index + 1).
Proof. reflexivity. Qed.

Lemma bind_Ok_eq {A B : Type} (a : A) (k : A -> res B) : Ok a ≫= k = k a.
Proof. reflexivity. Qed.

Lemma bind_Raise_eq {A B : Type} (e : exn) (k : A -> res B) :
  Raise e ≫= k = Raise e.
Proof. reflexivity. Qed.

Lemma bind_Ok {A B : Type} (r : res A) (k : A -> res B) (b : B) :
  r ≫= k = Ok b -> exists a, r = Ok a /\ k a = Ok b.
Proof. destruct r as [a|e]; intros H; [eauto|discriminate]. Qed.

Lemma bind_Raise {A B : Type} (r : res A) (k : A -> res B) (e : exn) :
  r ≫= k = Raise e -> r = Raise e \/ exists a, r = Ok a /\ k a = Raise e.
Proof.
  destruct r as [a|e']; intros H; [eauto|]. inversion H. left; reflexivity.
Qed.

(** Every successful call of the decoder moves the index forward. *)
Lemma decode_progress (data : string) (fuel : nat) :
  (forall index v i, 0 <= index ->
     decode_next fuel data index = Ok (v, i) -> index < i) /\
  (forall index lst v i, 0 <= index ->
     decode_list fuel data index lst = Ok (v, i) -> index < i) /\
  (forall index d v i, 0 <= index ->
     decode_dict fuel data index d = Ok (v, i) -> index < i).
Proof.
  induction fuel as [|fuel (IHn & IHl & IHd)].
  { repeat split; intros; discriminate. }
  repeat split.
  - intros index v i Hi H. rewrite decode_next_unfold in H.
    destruct (String.eqb (slice data index (index + 1)) "i").
    { apply bind_Ok in H as (end_ & He & H).
      apply bind_Ok in H as (number & _ & H). inversion H; subst.
      apply index_ge in He; lia. }
    destruct (isdigit (slice data index (index + 1))) eqn:Hd.
    { apply bind_Ok in H as (colon & Hc & H).
      apply bind_Ok in H as (length & Hl & H). inversion H; subst.
      destruct (string_header data index colon length Hi Hd Hc Hl). lia. }
    destruct (String.eqb (slice data index (index + 1)) "l").
    { apply IHl in H; lia. }
    destruct (String.eqb (slice data index (index + 1)) "d").
    { apply IHd in H; lia. }
    discriminate.
  - intros index lst v i Hi H. rewrite decode_list_unfold in H.
    destruct (negb (String.eqb (slice data index (index + 1)) "e")).
    + apply bind_Ok in H as ([item i1] & H1 & H).
      apply IHn in H1; [|assumption]. apply IHl in H; lia.
    + inversion H; subst. lia.
  - intros index d v i Hi H. rewrite decode_dict_unfold in H.
    destruct (negb (String.eqb (slice data index (index + 1)) "e")).
    + apply bind_Ok in H as ([key i1] & H1 & H).
      apply bind_Ok in H as ([value i2] & H2 & H).
      apply bind_Ok in H as (k & _ & H).
      apply IHn in H1; [|assumption]. apply IHn in H2; [|lia].
      apply IHd in H; lia.
    + inversion H; subst. lia.
Qed.

(** Beyond the end of the buffer the decoder fails at once. *)
Lemma decode_next_beyond (data : string) (fuel : nat) (index : Z) :
  len data <= index -> decode_next (S fuel) data index = Raise ValueError.
Proof.
  intros H. rewrite decode_next_unfold, slice_beyond by assumption. reflexivity.
Qed.

(** With enough fuel the decoder does not run out of it. *)
Lemma decode_fuel (data : string) (fuel : nat) :
  (forall index, 0 <= index ->
     2 * Z.max (len data - index) 0 + 1 <= Z.of_nat fuel ->
     decode_next fuel data index <> Raise FuelExhausted) /\
  (forall index lst, 0 <= index ->
     2 * Z.max (len data - index) 0 + 2 <= Z.of_nat fuel ->
     decode_list fuel data index lst <> Raise FuelExhausted) /\
  (forall index d, 0 <= index ->
     2 * Z.max (len data - index) 0 + 2 <= Z.of_nat fuel ->
     decode_dict fuel data index d <> Raise FuelExhausted).
Proof.
  induction fuel as [|fuel (IHn & IHl & IHd)].
  { repeat split; intros; lia. }
  assert (Hstep : forall index v i, 0 <= index ->
            2 * Z.max (len data - index) 0 + 2 <= Z.of_nat (S fuel) ->
            decode_next fuel data index = Ok (v, i) ->
            0 <= i /\ 2 * Z.max (len data - i) 0 + 2 <= Z.of_nat fuel).
  { intros index v i Hi Hf H.
    pose proof (proj1 (decode_progress data fuel) _ _ _ Hi H) as Hp.
    destruct (Z_lt_ge_dec index (len data)) as [Hlt|Hge]; [lia|].
    destruct fuel as [|fuel']; [discriminate|].
    rewrite decode_next_beyond in H by lia. discriminate. }
  repeat split.
  - intros index Hi Hf H. rewrite decode_next_unfold in H.
    destruct (String.eqb (slice data index (index + 1)) "i").
    { apply bind_Raise in H as [H|(end_ & _ & H)]; [apply index_exn in H; discriminate|].
      apply bind_Raise in H as [H|(? & _ & H)]; [apply int_exn in H|]; discriminate. }
    destruct (isdigit (slice data index (index + 1))).
    { apply bind_Raise in H as [H|(colon & _ & H)]; [apply index_exn in H; discriminate|].
      apply bind_Raise in H as [H|(? & _ & H)]; [apply int_exn in H|]; discriminate. }
    assert (Hin : slice data index (index + 1) <> EmptyString -> index < len data).
    { intros Hne. apply (slice_inside data index Hi Hne). }
    destruct (String.eqb_spec (slice data index (index + 1)) "l") as [El|_].
    { apply IHl in H; [assumption|lia|]. rewrite El in Hin.
      specialize (Hin ltac:(discriminate)). lia. }
    destruct (String.eqb_spec (slice data index (index + 1)) "d") as [Ed|_].
    { apply IHd in H; [assumption|lia|]. rewrite Ed in Hin.
      specialize (Hin ltac:(discriminate)). lia. }
    discriminate.
  - intros index lst Hi Hf H. rewrite decode_list_unfold in H.
    destruct (negb (String.eqb (slice data index (index + 1)) "e")); [|discriminate].
    apply bind_Raise in H as [H|([item i1] & H1 & H)].
    + apply IHn in H; [assumption|assumption|lia].
    + destruct (Hstep _ _ _ Hi Hf H1). apply IHl in H; assumption.
  - intros index d Hi Hf H. rewrite decode_dict_unfold in H.
    destruct (negb (String.eqb (slice data index (index + 1)) "e")); [|discriminate].
    apply bind_Raise in H as [H|([key i1] & H1 & H)].
    { apply IHn in H; [assumption|assumption|lia]. }
    destruct (Hstep _ _ _ Hi Hf H1) as [Hi1 Hf1].
    apply bind_Raise in H as [H|([value i2] & H2 & H)].
    { apply IHn in H; [assumption|assumption|lia]. }
    pose proof (proj1 (decode_progress data fuel) _ _ _ Hi1 H2) as Hp2.
    apply bind_Raise in H as [H|(k & _ & H)].
    { destruct key; discriminate. }
    apply IHd in H; [assumption|lia|lia].
Qed.

(** [bdecode] is total: it returns a value or raises a Python exception,
    whatever the buffer. *)
Lemma bdecode_total (data : string) : bdecode data <> Raise FuelExhausted.
Proof.
  unfold bdecode. intros H.
  apply bind_Raise in H as [H|([v i] & _ & H)]; [|discriminate].
  apply (proj1 (decode_fuel data (fuel_for data)) 0) in H; [assumption|lia|].
  unfold fuel_for, len. lia.
Qed.

End DecoderFacts.

(* ===================================================================== *)
(** * Facts about the interception                                        *)
(* ===================================================================== *)

Section InterceptFacts.

(** The value [params] holds for a key is the group of the leftmost match
    of the key's pattern. *)
Lemma params_uploaded (q : string) :
  extract_params q !! "uploaded" = group_of (search_field "uploaded=" q).
Proof.
  unfold extract_params. cbn [foldl].
  change ("uploaded" +:+ "=") with "uploaded=".
  repeat match goal with
         | |- context [search_field ?m q] =>
             let E := fresh "E" in
             destruct (search_field m q) as [[[? ?] ?]|] eqn:E
         end; simpl; simplify_map_eq; reflexivity.
Qed.

Lemma params_info_hash (q : string) :
  extract_params q !! "info_hash" = group_of (search_field "info_hash=" q).
Proof.
  unfold extract_params. cbn [foldl].
  change ("info_hash" +:+ "=") with "info_hash=".
  repeat match goal with
         | |- context [search_field ?m q] =>
             let E := fresh "E" in
             destruct (search_field m q) as [[[? ?] ?]|] eqn:E
         end; simpl; simplify_map_eq; reflexivity.
Qed.

(** A captured swarm identifier is never empty. *)
Lemma info_hash_nonempty (q h : string) :
  extract_params q !! "info_hash" = Some h -> nonempty h = true.
Proof.
  rewrite params_info_hash.
  destruct (search_field "info_hash=" q) as [[[pre v] post]|] eqn:E; [|discriminate].
  intros H; inversion H; subst. apply search_field_spec in E. tauto.
Qed.

Lemma request_query_inv (text q : string) :
  request_query text = Some q ->
  exists url host port_group path,
    search_get text = Some url /\ match_url url = Some (host, port_group, path) /\
    q = snd (split_path path).
Proof.
  unfold request_query.
  destruct (search_get text) as [url|] eqn:E1; [|discriminate]. simpl.
  destruct (match_url url) as [[[host pg] path]|] eqn:E2; [|discriminate]. simpl.
  intros H; inversion H. exists url, host, pg, path. auto.
Qed.

(** The port of a URL that matched is a run of digits, which [int] reads. *)
Lemma match_url_port (url host p path : string) :
  match_url url = Some (host, Some p, path) -> exists n, int p = Ok n.
Proof.
  unfold match_url. intros H.
  destruct (strip_prefix "http://" url) as [r|]; [|discriminate].
  destruct (span is_host_char r) as [h r1].
  destruct (nonempty h); [|discriminate].
  destruct r1 as [|c r2]; [discriminate|].
  destruct (Ascii.eqb_spec c ":") as [->|Hc].
  - destruct (span is_digit r2) as [port r3] eqn:Es.
    destruct (nonempty port) eqn:Hn; [|discriminate].
    destruct (startswith r3 "/"); [|discriminate].
    inversion H; subst. apply int_digits; [assumption|].
    eapply span_forallb; eassumption.
  - destruct c as [[] [] [] [] [] [] [] []]; try discriminate H;
      try (exfalso; apply Hc; reflexivity).
Qed.

(** The interception of a request with a query that names a swarm. *)
Lemma intercept_eligible (cfg : config) (sc : gmap string Z) (text q : string) :
  request_query text = Some q ->
  contains "info_hash=" q = true ->
  exists host port path_only,
    intercept cfg sc text =
    let ih := extract_params q !! "info_hash" in
    let m := select_multiplier cfg sc ih in
    q' ← rewrite_query cfg (extract_params q) m q;
    Ok (Intercepted host port ih m q'
          (rebuild_request path_only q' (rebuild_headers host port text))).
Proof.
  intros Hq Hc.
  apply request_query_inv in Hq as (url & host & pg & path & H1 & H2 & H3).
  unfold intercept. rewrite H1, H2.
  destruct (split_path path) as [path_only query] eqn:Ep. simpl in H3. subst query.
  assert (Hport : exists port, match pg with Some p => int p | None => Ok 80 end = Ok port).
  { destruct pg as [p|]; [|eauto]. eapply match_url_port; eassumption. }
  destruct Hport as [port ->]. exists host, port, path_only.
  simpl. rewrite Hc. reflexivity.
Qed.

(** What an intercepted request was made from. *)
Lemma intercept_inv (cfg : config) (sc : gmap string Z) (text host : string)
    (port : Z) (ih : option string) (m : float) (q' req : string) :
  intercept cfg sc text = Ok (Intercepted host port ih m q' req) ->
  exists q,
    request_query text = Some q /\ contains "info_hash=" q = true /\
    ih = extract_params q !! "info_hash" /\
    m = select_multiplier cfg sc ih /\
    rewrite_query cfg (extract_params q) m q = Ok q'.
Proof.
  unfold intercept, request_query. intros H.
  destruct (search_get text) as [url|]; [|discriminate]. simpl.
  destruct (match_url url) as [[[host' pg] path]|]; [|discriminate]. simpl.
  apply bind_Ok in H as (port' & _ & H).
  destruct (split_path path) as [path_only query]. simpl.
  destruct (contains "info_hash=" query) eqn:Hc; [|discriminate]. simpl in H.
  apply bind_Ok in H as (q1 & Hq1 & H). inversion H; subst.
  exists query. auto.
Qed.

(** An ineligible request is passed through. *)
Lemma intercept_ineligible (cfg : config) (sc : gmap string Z) (text : string) :
  ineligible text -> intercept cfg sc text = Ok Passthrough.
Proof.
  intros [H|(q & Hq & Hc)]; unfold intercept.
  - rewrite H. reflexivity.
  - apply request_query_inv in Hq as (url & host & pg & path & H1 & H2 & H3).
    rewrite H1, H2.
    destruct (split_path path) as [path_only query] eqn:Ep. simpl in H3. subst query.
    destruct pg as [p|].
    + destruct (match_url_port _ _ _ _ H2) as [n ->]. simpl. rewrite Hc. reflexivity.
    + simpl. rewrite Hc. reflexivity.
Qed.

End InterceptFacts.

(* ===================================================================== *)
(** * Properties of the handler                                           *)
(* ===================================================================== *)

Import Scenario.

Section Multiplier.

(** C1, as stated, fails when the swarm identifier of a request is the
    value of its field [info_hash]: the marker is searched in the whole
    query, so the identifier the handler looks up can be the value of
    another field whose name ends with the marker's text.  Below the field
    [info_hash] carries [ABC], for which 10 seeders are recorded, the
    threshold is 5, and the handler looks up [ZZZ] and rewrites with the
    low multiplier. *)
Lemma identifier_of_other_field :
  let q := "xinfo_hash=ZZZ&info_hash=ABC&uploaded=100" in
  let sc : gmap string Z := <["ABC" := 10]> ∅ in
  request_in_model (announce q) = true /\
  field_value "info_hash" q = Some "ABC" /\
  sc !! "ABC" = Some 10 /\ MIN_SEEDERS_THRESHOLD default_config <= 10 /\
  exists host port req,
    intercept default_config sc (announce q) =
    Ok (Intercepted host port (Some "ZZZ") (UPLOAD_MULTIPLIER_LOW default_config)
          "xinfo_hash=ZZZ&info_hash=ABC&uploaded=300.0" req).
Proof.
  vm_compute. repeat split; try reflexivity; try discriminate.
  do 3 eexists. reflexivity.
Qed.

(** C1, amended.  For every eligible request (7-bit, within the digit
    limit of [int]) the swarm identifier the handler uses is the value
    captured at the leftmost occurrence of the marker [info_hash=] that is
    followed by a non-empty value, wherever in the query that occurrence
    lies; the multiplier every interception of the request carries is
    [UPLOAD_MULTIPLIER_HIGH] if [seed_counts] holds a count for that
    identifier that is at least [MIN_SEEDERS_THRESHOLD], and
    [UPLOAD_MULTIPLIER_LOW] otherwise: for a smaller count and for an
    identifier with no entry, whatever the threshold.  When the marker is
    nowhere followed by a value, no identifier is captured and the
    multiplier is [UPLOAD_MULTIPLIER_LOW]. *)
Theorem multiplier_selection (cfg : config) (sc : gmap string Z) (text q : string) :
  request_in_model text = true ->
  request_query text = Some q ->
  contains "info_hash=" q = true ->
  (forall pre h post,
     search_field "info_hash=" q = Some (pre, h, post) ->
     let m := select_multiplier cfg sc (Some h) in
     q = pre +:+ "info_hash=" +:+ h +:+ post /\
     leftmost "info_hash=" pre ("info_hash=" +:+ h +:+ post) /\
     (exists host port path_only,
        intercept cfg sc text =
        q' ← rewrite_query cfg (extract_params q) m q;
        Ok (Intercepted host port (Some h) m q'
              (rebuild_request path_only q' (rebuild_headers host port text)))) /\
     (forall host port ih m' q' req,
        intercept cfg sc text = Ok (Intercepted host port ih m' q' req) ->
        ih = Some h /\ m' = m) /\
     (forall n, sc !! h = Some n -> MIN_SEEDERS_THRESHOLD cfg <= n ->
                m = UPLOAD_MULTIPLIER_HIGH cfg) /\
     (forall n, sc !! h = Some n -> n < MIN_SEEDERS_THRESHOLD cfg ->
                m = UPLOAD_MULTIPLIER_LOW cfg) /\
     (sc !! h = None -> m = UPLOAD_MULTIPLIER_LOW cfg)) /\
  (search_field "info_hash=" q = None ->
   forall host port ih m' q' req,
     intercept cfg sc text = Ok (Intercepted host port ih m' q' req) ->
     ih = None /\ m' = UPLOAD_MULTIPLIER_LOW cfg).
Proof.
  intros _ Hq Hc.
  assert (Hall : forall host port ih m' q' req,
            intercept cfg sc text = Ok (Intercepted host port ih m' q' req) ->
            ih = group_of (search_field "info_hash=" q) /\
            m' = select_multiplier cfg sc ih).
  { intros host port ih m' q' req Hi.
    apply intercept_inv in Hi as (q0 & Hq0 & _ & Hih & Hm & _).
    rewrite Hq in Hq0. injection Hq0 as <-.
    rewrite params_info_hash in Hih. auto. }
  split.
  - intros pre h post Hs m.
    pose proof (search_field_spec _ _ _ _ _ Hs) as (E1 & _ & _ & E4).
    assert (Hih : extract_params q !! "info_hash" = Some h)
      by (rewrite params_info_hash, Hs; reflexivity).
    split; [exact E1|]. split; [exact E4|]. split.
    { destruct (intercept_eligible cfg sc text q Hq Hc) as (host & port & po & Hi).
      exists host, port, po. rewrite Hi, Hih. reflexivity. }
    split.
    { intros host port ih m' q' req Hi.
      destruct (Hall _ _ _ _ _ _ Hi) as [-> ->]. rewrite Hs. split; reflexivity. }
    subst m. unfold select_multiplier. repeat split.
    + intros n -> Hn.
      destruct (Z.leb_spec (MIN_SEEDERS_THRESHOLD cfg) n); [reflexivity|lia].
    + intros n -> Hn.
      destruct (Z.leb_spec (MIN_SEEDERS_THRESHOLD cfg) n); [lia|reflexivity].
    + intros ->. reflexivity.
  - intros Hs host port ih m' q' req Hi.
    destruct (Hall _ _ _ _ _ _ Hi) as [-> ->]. rewrite Hs. split; reflexivity.
Qed.

Lemma multiplier_selection_witness :
  request_in_model (announce sample_query) = true /\
  request_query (announce sample_query) = Some sample_query /\
  contains "info_hash=" sample_query = true /\
  search_field "info_hash=" sample_query =
    Some (EmptyString, "ABC", "&uploaded=1000&downloaded=500&left=0&event=started") /\
  select_multiplier default_config (<["ABC" := 10]> ∅) (Some "ABC") =
    UPLOAD_MULTIPLIER_HIGH default_config.
Proof.
  assert (H0 : request_in_model (announce sample_query) = true)
    by (vm_compute; reflexivity).
  assert (H1 : request_query (announce sample_query) = Some sample_query)
    by (vm_compute; reflexivity).
  assert (H2 : contains "info_hash=" sample_query = true)
    by (vm_compute; reflexivity).
  assert (H3 : search_field "info_hash=" sample_query =
               Some (EmptyString, "ABC",
                     "&uploaded=1000&downloaded=500&left=0&event=started"))
    by (vm_compute; reflexivity).
  split; [exact H0|]. split; [exact H1|]. split; [exact H2|]. split; [exact H3|].
  destruct (proj1 (multiplier_selection default_config (<["ABC" := 10]> ∅)
                     (announce sample_query) sample_query H0 H1 H2) _ _ _ H3)
    as (_ & _ & _ & _ & Hhigh & _).
  apply (Hhigh 10); [vm_compute; reflexivity|]. vm_compute. discriminate.
Defined.

End Multiplier.

Section Passthrough.

(** C2, as stated, fails: an ineligible request is not closed silently,
    its bytes are written back to the client. *)
Lemma ineligible_request_echoed :
  let text := announce "uploaded=1000&downloaded=500" in
  let o := handle_client default_config ∅ no_tracker text in
  ~ (ineligible text -> upstream o = None /\ to_client o = EmptyString).
Proof.
  intros text o H. destruct H as [_ H].
  - right. exists "uploaded=1000&downloaded=500". split; vm_compute; reflexivity.
  - vm_compute in H. discriminate H.
Qed.

(** C2, amended.  Eligibility is decided by the two patterns of the source
    and by nothing else.  For every request (7-bit, within the digit limit
    of [int]) the handler calls no tracker, relays no tracker reply and
    leaves [seed_counts] unchanged in each of these cases, and closes the
    socket: when the pattern [GET (http://[^ ]+) HTTP/1\.[01]] matches
    nowhere in the request, or the URL of its leftmost match has the form
    [http://host[:port]/path] and the text after the first question mark
    of the path does not contain [info_hash=], the only bytes written to
    the client are the request's own bytes, unmodified
    ([forward_request]); when the URL of the leftmost match does not have
    that form, nothing is written to the client. *)
Theorem ineligible_request_passthrough (cfg : config) (sc : gmap string Z)
    (tracker : string -> Z -> string -> option string) (text : string) :
  request_in_model text = true ->
  let o := handle_client cfg sc tracker text in
  (ineligible text ->
   upstream o = None /\ to_client o = text /\ closed o = true /\
   seed_counts_after o = sc) /\
  (forall url, search_get text = Some url -> match_url url = None ->
   upstream o = None /\ to_client o = EmptyString /\ closed o = true /\
   seed_counts_after o = sc).
Proof.
  intros _ o. subst o. split.
  - intros H. unfold handle_client.
    destruct text as [|c text]; [simpl; auto|].
    rewrite (intercept_ineligible cfg sc _ H). simpl. auto.
  - intros url Hg Hm. unfold handle_client.
    destruct (negb (nonempty text)); [simpl; auto|].
    unfold intercept. rewrite Hg, Hm. simpl. auto.
Qed.

Lemma ineligible_request_passthrough_witness :
  request_in_model (announce "uploaded=1000&downloaded=500") = true /\
  ineligible (announce "uploaded=1000&downloaded=500") /\
  to_client
    (handle_client default_config ∅ no_tracker
       (announce "uploaded=1000&downloaded=500")) =
  announce "uploaded=1000&downloaded=500".
Proof.
  assert (H0 : request_in_model (announce "uploaded=1000&downloaded=500") = true)
    by (vm_compute; reflexivity).
  assert (H : ineligible (announce "uploaded=1000&downloaded=500")).
  { right. exists "uploaded=1000&downloaded=500". split; vm_compute; reflexivity. }
  split; [exact H0|]. split; [exact H|].
  exact (proj1 (proj2 (proj1 (ineligible_request_passthrough default_config ∅
                                no_tracker _ H0) H))).
Defined.

End Passthrough.

Section TruncatedString.

Lemma find_char_lt (c : ascii) (s : string) (k : nat) :
  find_char c s = Some k -> (k < String.length s)%nat.
Proof.
  revert k. induction s as [|d s IH]; intros k H; simpl in H; [discriminate|].
  destruct (Ascii.eqb d c); [inversion H; simpl; lia|].
  destruct (find_char c s) as [k'|]; [|discriminate].
  inversion H. specialize (IH k' eq_refl). simpl. lia.
Qed.

Lemma index_lt (data : string) (c : ascii) (start k : Z) :
  0 <= start -> Py.index data c start = Ok k -> k < len data.
Proof.
  unfold Py.index. intros Hs. destruct (start <? 0) eqn:E; [lia|].
  destruct (find_char c (Py.drop (Z.to_nat start) data)) as [j|] eqn:F; [|discriminate].
  intros H; inversion H. apply find_char_lt in F. rewrite length_drop in F.
  unfold len. lia.
Qed.

(** A slice whose end lies beyond the buffer is the rest of the buffer. *)
Lemma slice_to_end (data : string) (a b : Z) :
  0 <= a -> len data < b -> slice data a b = Py.drop (Z.to_nat a) data.
Proof.
  intros Ha Hb. unfold slice, clamp. fold (len data).
  destruct (a <? 0) eqn:Ea; [lia|]. destruct (b <? 0) eqn:Eb; [unfold len in *; lia|].
  destruct (Z_le_gt_dec a (len data)) as [Hle|Hgt].
  - replace (Z.min a (len data)) with a by lia.
    apply take_all. rewrite length_drop. unfold len in *. lia.
  - rewrite !drop_length_ge by (unfold len in *; lia).
    destruct (Z.to_nat _); reflexivity.
Qed.

(** C4, as stated, fails: the buffer [5:ab] declares five bytes and holds
    two, and it is decoded to the two bytes. *)
Lemma truncated_string_decoded :
  (exists colon length,
     Py.index "5:ab" ":" 0 = Ok colon /\ int (slice "5:ab" 0 colon) = Ok length /\
     len "5:ab" < colon + 1 + length) /\
  bdecode "5:ab" = Ok (BBytes "ab").
Proof.
  split; [exists 1, 5; repeat split; vm_compute; reflexivity|].
  vm_compute. reflexivity.
Qed.

(** C4, amended.  For every buffer (within the digit and nesting limits
    of the interpreter) in which a byte string's declared length exceeds
    the number of bytes that remain, the decoder signals no failure at the
    string: [decode_next] returns the bytes that remain as the value, with
    the index moved past the end of the buffer, and [bdecode] of a buffer
    that starts with such a string returns that truncated value.  When the
    string is an item of a list, a key of a dictionary or the value that
    follows a key of a dictionary, decoding the list or the dictionary
    raises: [ValueError], because the next item or the terminator is
    looked for past the end of the buffer, not because of the length (or
    [TypeError] when the key before the string is a list or a
    dictionary). *)
Theorem overlong_string_truncated (data : string) (index colon length : Z)
    (fuel : nat) :
  buffer_in_model data = true ->
  0 <= index ->
  isdigit (slice data index (index + 1)) = true ->
  Py.index data ":" index = Ok colon ->
  int (slice data index colon) = Ok length ->
  len data < colon + 1 + length ->
  decode_next (S fuel) data index =
    Ok (BBytes (Py.drop (Z.to_nat (colon + 1)) data), colon + 1 + length) /\
  (index = 0 -> bdecode data = Ok (BBytes (Py.drop (Z.to_nat (colon + 1)) data))) /\
  (forall lst, decode_list (S (S (S fuel))) data index lst = Raise ValueError) /\
  (forall d, decode_dict (S (S fuel)) data index d = Raise ValueError) /\
  (forall index0 key d,
     decode_next (S (S fuel)) data index0 = Ok (key, index) ->
     decode_dict (S (S (S fuel))) data index0 d =
     match key with
     | BInt _ | BBytes _ => Raise ValueError
     | BList _ | BDict _ => Raise TypeError
     end).
Proof.
  intros _ Hi Hd Hc Hl Hover.
  destruct (string_header data index colon length Hi Hd Hc Hl) as [Hlt Hlen].
  assert (Hnext : forall f, decode_next (S f) data index =
            Ok (BBytes (Py.drop (Z.to_nat (colon + 1)) data), colon + 1 + length)).
  { intros f. rewrite decode_next_unfold.
    destruct (slice_inside data index Hi) as (_ & c & r & _ & E1 & _).
    { intros Hs. rewrite Hs in Hd. discriminate. }
    rewrite E1 in Hd |- *. unfold isdigit in Hd. simpl in Hd.
    rewrite andb_true_r in Hd.
    destruct (is_digit_inv _ Hd) as (_ & _ & _ & _ & Hnot_i & _).
    assert (Ei : String.eqb (String c EmptyString) "i" = false).
    { simpl. rewrite Hnot_i. reflexivity. }
    rewrite Ei. unfold isdigit. simpl. rewrite Hd. simpl.
    rewrite Hc. simpl. rewrite Hl. simpl.
    rewrite slice_to_end by lia. reflexivity. }
  assert (Hnot_e : negb (String.eqb (slice data index (index + 1)) "e") = true).
  { destruct (slice_inside data index Hi) as (_ & c & r & _ & E1 & _).
    { intros Hs. rewrite Hs in Hd. discriminate. }
    rewrite E1 in Hd |- *. unfold isdigit in Hd. simpl in Hd.
    rewrite andb_true_r in Hd.
    destruct (is_digit_inv _ Hd) as (_ & _ & _ & _ & _ & He & _).
    simpl. rewrite He. reflexivity. }
  assert (Hpast : forall f, decode_next (S f) data (colon + 1 + length) =
                            Raise ValueError).
  { intros f. apply decode_next_beyond. lia. }
  assert (Hend : negb (String.eqb
                         (slice data (colon + 1 + length) (colon + 1 + length + 1))
                         "e") = true).
  { rewrite slice_beyond by lia. reflexivity. }
  split; [apply Hnext|]. split; [|split; [|split]].
  - intros ->. unfold bdecode, fuel_for.
    replace (2 * String.length data + 1)%nat with (S (2 * String.length data)) by lia.
    rewrite Hnext. reflexivity.
  - intros lst. rewrite decode_list_unfold, Hnot_e, Hnext, bind_Ok_eq.
    cbv beta iota. rewrite decode_list_unfold, Hend, Hpast. reflexivity.
  - intros d. rewrite decode_dict_unfold, Hnot_e, Hnext, bind_Ok_eq.
    cbv beta iota. rewrite Hpast. reflexivity.
  - intros index0 key d Hkey.
    assert (Hk : negb (String.eqb (slice data index0 (index0 + 1)) "e") = true).
    { rewrite decode_next_unfold in Hkey.
      destruct (String.eqb_spec (slice data index0 (index0 + 1)) "e") as [E|_];
        [|reflexivity].
      rewrite E in Hkey. discriminate Hkey. }
    rewrite decode_dict_unfold, Hk, Hkey, bind_Ok_eq. cbv beta iota.
    rewrite Hnext, bind_Ok_eq. cbv beta iota.
    destruct key as [n|s|l|d']; cbn [as_key];
      rewrite ?bind_Ok_eq, ?decode_dict_unfold, ?Hend, ?Hpast; reflexivity.
Qed.

Lemma overlong_string_truncated_witness :
  buffer_in_model "5:ab" = true /\ bdecode "5:ab" = Ok (BBytes "ab").
Proof.
  split; [reflexivity|].
  refine (proj1 (proj2 (overlong_string_truncated "5:ab" 0 1 5 0 _ _ _ _ _ _)) eq_refl);
    vm_compute; congruence.
Defined.

End TruncatedString.

Section Replies.

(** C5: the code at a failing input.  The reply is a map whose
    [complete] entry is not a number: it decodes, [int(complete)] raises,
    and the handler closes the socket without relaying the reply it got
    from the tracker. *)
Theorem reply_with_bad_count_not_relayed :
  let reply := "d8:complete3:n/ae" in
  let o := handle_client default_config ∅ (tracker_replying reply)
             (announce sample_query) in
  bdecode reply = Ok (BDict [(KBytes "complete", BBytes "n/a")]) /\
  (exists request, upstream o = Some ("tracker.example.com", 6969, request)) /\
  to_client o = EmptyString /\ closed o = true.
Proof.
  vm_compute. repeat split. eexists. reflexivity.
Qed.

(** When the reply does not decode, it is relayed as it is. *)
Lemma undecodable_reply_relayed (cfg : config) (sc : gmap string Z)
    (tracker : string -> Z -> string -> option string) (text host : string)
    (port : Z) (ih : option string) (m : float) (q' req reply : string) (e : exn) :
  text <> EmptyString ->
  intercept cfg sc text = Ok (Intercepted host port ih m q' req) ->
  tracker host port req = Some reply ->
  bdecode reply = Raise e ->
  to_client (handle_client cfg sc tracker text) = reply /\
  seed_counts_after (handle_client cfg sc tracker text) = sc.
Proof.
  intros Hne Hi Ht Hd. unfold handle_client.
  destruct text as [|c text]; [contradiction|]. simpl negb. cbv iota.
  rewrite Hi, Ht, Hd. destruct reply; simpl; auto.
Qed.

(** C6.  [seed_counts] is mutated only when a tracker reply decodes
    successfully as a map: whenever the dictionary after the run differs
    from the one before, the handler forwarded a request and the reply to
    it decoded to a [dict]; and for every reply that fails to decode or
    decodes to something that is not a map (a bare integer, a list, a
    byte string), as when there is no reply, the dictionary is left as it
    was. *)
Theorem seed_counts_updated_only_from_map (cfg : config) (sc : gmap string Z)
    (tracker : string -> Z -> string -> option string) (text : string) :
  let o := handle_client cfg sc tracker text in
  (seed_counts_after o <> sc ->
   exists host port req reply d,
     upstream o = Some (host, port, req) /\
     tracker host port req = Some reply /\ bdecode reply = Ok (BDict d)) /\
  (forall host port req reply,
     upstream o = Some (host, port, req) ->
     tracker host port req = Some reply ->
     (forall d, bdecode reply <> Ok (BDict d)) ->
     seed_counts_after o = sc) /\
  (forall host port req,
     upstream o = Some (host, port, req) ->
     tracker host port req = None -> seed_counts_after o = sc) /\
  (upstream o = None -> seed_counts_after o = sc).
Proof.
  intros o. subst o. unfold handle_client.
  destruct (negb (nonempty text)).
  { simpl. repeat split; intros; try reflexivity; try contradiction; discriminate. }
  destruct (intercept cfg sc text) as [[| |host port ih m q' req]|e];
    try (simpl; repeat split; intros; try reflexivity; try contradiction; discriminate).
  destruct (tracker host port req) as [reply|] eqn:Ht.
  2: { simpl. repeat split; intros; try reflexivity; contradiction. }
  destruct (nonempty reply).
  2: { simpl. repeat split; intros; try reflexivity; contradiction. }
  destruct (bdecode reply) as [v|e] eqn:Hd.
  2: { simpl. repeat split; intros; try reflexivity; contradiction. }
  assert (Hv : (exists d, v = BDict d) \/
               update_seed_counts sc ih (Some v) = Ok sc).
  { destruct v; simpl; eauto. }
  destruct Hv as [[d ->]|Hv].
  - destruct (update_seed_counts sc ih (Some (BDict d))) as [sc'|e]; simpl.
    + repeat split; intros.
      * exists host, port, req, reply, d. auto.
      * inversion H; subst. rewrite Ht in H0. inversion H0; subst.
        exfalso. apply (H1 d). assumption.
      * inversion H; subst. congruence.
      * discriminate.
    + repeat split; intros; try reflexivity; contradiction.
  - rewrite Hv. simpl. repeat split; intros; try reflexivity; try contradiction; discriminate.
Qed.

Lemma seed_counts_updated_only_from_map_witness :
  seed_counts_after
    (handle_client default_config (<["ABC" := 9]> ∅) (tracker_replying "i5e")
       (announce sample_query)) = <["ABC" := 9]> ∅.
Proof.
  eapply (proj1 (proj2 (seed_counts_updated_only_from_map default_config
            (<["ABC" := 9]> ∅) (tracker_replying "i5e") (announce sample_query)))).
  - vm_compute. reflexivity.
  - reflexivity.
  - intros d. vm_compute. discriminate.
Defined.

End Replies.

Section Rewrites.

Lemma contains_app (sub pre rest : string) :
  contains sub (pre +:+ sub +:+ rest) = true.
Proof.
  induction pre as [|c pre IH].
  - rewrite app_empty_l. apply contains_startswith, startswith_app.
  - rewrite app_cons. simpl. rewrite IH. apply orb_true_r.
Qed.

Lemma search_field_contains (marker s pre v post : string) :
  search_field marker s = Some (pre, v, post) -> contains marker s = true.
Proof.
  intros H. apply search_field_spec in H as (-> & _). apply contains_app.
Qed.

Lemma rewrite_downloaded_off (cfg : config) (q : string) :
  NO_DOWNLOAD cfg = false -> rewrite_downloaded cfg q = q.
Proof. unfold rewrite_downloaded. intros ->. reflexivity. Qed.

Lemma rewrite_left_off (cfg : config) (q : string) :
  PRETEND_TO_SEED cfg = false -> rewrite_left cfg q = q.
Proof. unfold rewrite_left. intros ->. reflexivity. Qed.

Lemma rewrite_downloaded_on (cfg : config) (q pre v post : string) :
  NO_DOWNLOAD cfg = true ->
  search_field "downloaded=" q = Some (pre, v, post) ->
  rewrite_downloaded cfg q = pre +:+ "downloaded=" +:+ "0" +:+ post.
Proof.
  intros Hon H. unfold rewrite_downloaded.
  rewrite Hon, (search_field_contains _ _ _ _ _ H). simpl.
  apply (sub_first_spec _ _ _ _ _ _ H).
Qed.

Lemma modified_uploaded_inv (v : string) (m : float) (t : string) :
  modified_uploaded v m = Ok t ->
  exists x, int_mul_float (or_else (int v) 0) m = Ok x /\ t = str_of_float x.
Proof.
  unfold modified_uploaded. intros H.
  apply bind_Ok in H as (x & Hx & H). inversion H. eauto.
Qed.

(** The rewrites leave in place every field that contains none of the
    markers of the rewrites that apply. *)
Lemma fields_rewrite_query (cfg : config) (params : gmap string string)
    (m : float) (q q' : string) (i : nat) (f : string) :
  rewrite_query cfg params m q = Ok q' ->
  fields q !! i = Some f ->
  contains "uploaded=" f = false ->
  (NO_DOWNLOAD cfg = true -> contains "downloaded=" f = false) ->
  (PRETEND_TO_SEED cfg = true -> contains "left=" f = false) ->
  fields q' !! i = Some f.
Proof.
  unfold rewrite_query. intros H Hf Hu Hd Hl.
  apply bind_Ok in H as (q1 & H1 & H). inversion H; subst q'. clear H.
  assert (F1 : fields q1 !! i = Some f).
  { unfold rewrite_uploaded in H1. destruct (params !! "uploaded") as [v|].
    - apply bind_Ok in H1 as (t & Ht & H1). inversion H1; subst q1.
      apply modified_uploaded_inv in Ht as (x & _ & ->).
      apply fields_sub_first; auto using str_of_float_no_amp.
    - inversion H1; subst; assumption. }
  assert (F2 : fields (rewrite_downloaded cfg q1) !! i = Some f).
  { unfold rewrite_downloaded. destruct (NO_DOWNLOAD cfg); [|exact F1].
    destruct (contains "downloaded=" q1); [|exact F1].
    simpl. apply fields_sub_first; auto. }
  unfold rewrite_left. destruct (PRETEND_TO_SEED cfg); [|exact F2].
  destruct (contains "left=" (rewrite_downloaded cfg q1)); [|exact F2].
  simpl. apply fields_sub_first; auto.
Qed.

(** C3, as stated, fails.  With a count of 310 digits the product is
    beyond the range of [float] and nothing is forwarded; and when the
    upload marker lies inside another field that a later rewrite replaces,
    the forwarded query does not carry the product. *)
Lemma uploaded_product_not_carried :
  (let q := "info_hash=ABC&uploaded=" +:+ huge_count in
   search_field "uploaded=" q = Some ("info_hash=ABC&", huge_count, EmptyString) /\
   int huge_count = Ok (10 ^ 309) /\
   intercept default_config ∅ (announce q) = Raise OverflowError /\
   upstream (handle_client default_config ∅ no_tracker (announce q)) = None) /\
  (let q := "info_hash=ABC&downloaded=uploaded=5" in
   search_field "uploaded=" q = Some ("info_hash=ABC&downloaded=", "5", EmptyString) /\
   exists host port req,
     intercept no_download_config ∅ (announce q) =
     Ok (Intercepted host port (Some "ABC") 3.0 "info_hash=ABC&downloaded=0" req) /\
     contains "uploaded=" "info_hash=ABC&downloaded=0" = false).
Proof.
  split.
  - vm_compute. repeat split; reflexivity.
  - vm_compute. split; [reflexivity|]. do 3 eexists. split; reflexivity.
Qed.

(** C3, amended.  For every eligible request (7-bit, within the digit
    limit of [int]) in which the marker [uploaded=] is followed by a
    non-empty value, and whose value, read as a number (0 if it cannot be
    read), converts to a [float]: the upload rewrite replaces that value,
    at the leftmost such occurrence and nowhere else, by the text of the
    float product of the converted value and the selected multiplier
    (which is [inf] when the product is beyond the range); the forwarded
    query is this string after the download and remaining-bytes rewrites,
    hence this string itself when both options are off.  The condition is
    on the value, not on the product: a value that does not convert
    raises, whatever the multiplier. *)
Theorem uploaded_rewritten (cfg : config) (sc : gmap string Z)
    (text q pre v post : string) (x : float) :
  request_in_model text = true ->
  request_query text = Some q ->
  contains "info_hash=" q = true ->
  search_field "uploaded=" q = Some (pre, v, post) ->
  float_of_int (or_else (int v) 0) = Ok x ->
  let ih := group_of (search_field "info_hash=" q) in
  let m := select_multiplier cfg sc ih in
  let t := str_of_float (PrimFloat.mul x m) in
  let q1 := pre +:+ "uploaded=" +:+ t +:+ post in
  q = pre +:+ "uploaded=" +:+ v +:+ post /\
  leftmost "uploaded=" pre ("uploaded=" +:+ v +:+ post) /\
  modified_uploaded v m = Ok t /\
  rewrite_uploaded (extract_params q) m q = Ok q1 /\
  (exists host port req,
     intercept cfg sc text =
     Ok (Intercepted host port ih m
           (rewrite_left cfg (rewrite_downloaded cfg q1)) req)) /\
  (NO_DOWNLOAD cfg = false -> PRETEND_TO_SEED cfg = false ->
   rewrite_left cfg (rewrite_downloaded cfg q1) = q1).
Proof.
  intros _ Hq Hc Hs Hx ih m t q1.
  pose proof (search_field_spec _ _ _ _ _ Hs) as (E1 & _ & _ & E4).
  assert (Ht : modified_uploaded v m = Ok t).
  { unfold modified_uploaded, int_mul_float. rewrite Hx. reflexivity. }
  assert (Hr : rewrite_uploaded (extract_params q) m q = Ok q1).
  { unfold rewrite_uploaded. rewrite params_uploaded, Hs. simpl.
    rewrite Ht. simpl. f_equal. apply (sub_first_spec _ _ _ _ _ _ Hs). }
  split; [exact E1|]. split; [exact E4|].
  split; [exact Ht|]. split; [exact Hr|]. split.
  - destruct (intercept_eligible cfg sc text q Hq Hc) as (host & port & po & Hi).
    exists host, port. eexists. rewrite Hi. cbv zeta.
    rewrite params_info_hash. fold ih. fold m.
    unfold rewrite_query. rewrite Hr. simpl. reflexivity.
  - intros Hd Hl. rewrite rewrite_left_off, rewrite_downloaded_off by assumption.
    reflexivity.
Qed.

Lemma uploaded_rewritten_witness :
  exists host port req,
    intercept default_config ∅ (announce sample_query) =
    Ok (Intercepted host port (Some "ABC") 3.0
          "info_hash=ABC&uploaded=3000.0&downloaded=500&left=0&event=started" req).
Proof.
  refine (proj1 (proj2 (proj2 (proj2 (proj2
    (uploaded_rewritten default_config ∅ (announce sample_query) sample_query
       "info_hash=ABC&" "1000" "&downloaded=500&left=0&event=started" 1000.0
       _ _ _ _ _)))))); vm_compute; reflexivity.
Defined.

(** C7, as stated, fails.  The marker of the upload count is searched in
    the whole query, so the value replaced can lie in a field that is none
    of the three: in the swarm identifier, which the tracker then receives
    changed, or in a field whose name ends with the marker's text. *)
Lemma other_field_rewritten :
  (let q := "info_hash=uploaded=5" in
   fields q = ["info_hash=uploaded=5"] /\
   field_name "info_hash=uploaded=5" = "info_hash" /\
   field_value "info_hash" q = Some "uploaded=5" /\
   exists host port ih m q' req,
     intercept default_config ∅ (announce q) =
       Ok (Intercepted host port ih m q' req) /\
     q' = "info_hash=uploaded=15.0" /\
     field_value "info_hash" q' = Some "uploaded=15.0") /\
  (let q := "info_hash=ABC&reuploaded=5" in
   fields q !! 1%nat = Some "reuploaded=5" /\
   field_name "reuploaded=5" = "reuploaded" /\
   exists host port ih m q' req,
     intercept default_config ∅ (announce q) =
       Ok (Intercepted host port ih m q' req) /\
     fields q' !! 1%nat = Some "reuploaded=15.0").
Proof.
  split.
  - vm_compute. repeat split. do 6 eexists. repeat split; reflexivity.
  - vm_compute. repeat split. do 6 eexists. split; reflexivity.
Qed.

(** C7, amended.  For every eligible request (7-bit, within the digit
    limit of [int]), every field of the query string (the pieces between
    ampersands) that contains none of the markers [uploaded=],
    [downloaded=] and [left=] is byte-identical, and at the same position,
    before and after rewriting. *)
Theorem unmarked_fields_unchanged (cfg : config) (sc : gmap string Z)
    (text q host : string) (port : Z) (ih : option string) (m : float)
    (q' req : string) (i : nat) (f : string) :
  request_in_model text = true ->
  request_query text = Some q ->
  intercept cfg sc text = Ok (Intercepted host port ih m q' req) ->
  fields q !! i = Some f ->
  contains "uploaded=" f = false ->
  contains "downloaded=" f = false ->
  contains "left=" f = false ->
  fields q' !! i = Some f.
Proof.
  intros _ Hq Hi Hf Hu Hd Hl.
  apply intercept_inv in Hi as (q0 & Hq0 & _ & _ & _ & Hr).
  rewrite Hq in Hq0. inversion Hq0; subst q0.
  eapply fields_rewrite_query; eauto.
Qed.

Lemma unmarked_fields_unchanged_witness :
  fields "info_hash=ABC&uploaded=3000.0&downloaded=0&left=0&event=started"
    !! 4%nat = Some "event=started".
Proof.
  refine (unmarked_fields_unchanged no_download_config ∅ (announce sample_query)
            sample_query _ _ _ _ _ _ 4 "event=started" _ _ _ _ _ _ _);
    vm_compute; reflexivity.
Defined.

(** C8, as stated, fails in both directions.  With [NO_DOWNLOAD] off, a
    request that reports 0 bytes downloaded is forwarded with the literal
    0 in that field; and with [NO_DOWNLOAD] on, the value replaced is the
    one at the leftmost marker, which can lie in another field, so that
    the download field keeps its value. *)
Lemma download_zero_not_equivalent :
  (let q := "info_hash=ABC&downloaded=0" in
   NO_DOWNLOAD default_config = false /\
   exists host port ih m req,
     intercept default_config ∅ (announce q) =
       Ok (Intercepted host port ih m q req) /\
     field_value "downloaded" q = Some "0") /\
  (let q := "info_hash=ABC&undownloaded=5&downloaded=7" in
   NO_DOWNLOAD no_download_config = true /\
   field_value "downloaded" q = Some "7" /\
   exists host port ih m q' req,
     intercept no_download_config ∅ (announce q) =
       Ok (Intercepted host port ih m q' req) /\
     q' = "info_hash=ABC&undownloaded=0&downloaded=7" /\
     field_value "downloaded" q' = Some "7").
Proof.
  split.
  - vm_compute. split; [reflexivity|]. do 5 eexists. split; reflexivity.
  - vm_compute. split; [reflexivity|]. split; [reflexivity|].
    do 6 eexists. repeat split; reflexivity.
Qed.

(** C8, amended.  For every eligible request (7-bit, within the digit
    limit of [int]), the forwarded query is the result of the upload
    rewrite, then the download rewrite, then the remaining-bytes rewrite.  If [NO_DOWNLOAD] is on, the download rewrite
    replaces by the literal 0 the value at the leftmost occurrence of
    [downloaded=] that is followed by a non-empty value.  If [NO_DOWNLOAD]
    is off, the download rewrite changes nothing, and every field that
    contains neither [uploaded=] nor [left=] (so a plain download field,
    whatever its value, 0 included) is byte-identical in the forwarded
    query. *)
Theorem downloaded_rewritten (cfg : config) (sc : gmap string Z)
    (text host : string) (port : Z) (ih : option string) (m : float)
    (q' req : string) :
  request_in_model text = true ->
  intercept cfg sc text = Ok (Intercepted host port ih m q' req) ->
  exists q q1,
    request_query text = Some q /\
    rewrite_uploaded (extract_params q) m q = Ok q1 /\
    q' = rewrite_left cfg (rewrite_downloaded cfg q1) /\
    (NO_DOWNLOAD cfg = true ->
     forall pre v post,
       search_field "downloaded=" q1 = Some (pre, v, post) ->
       q1 = pre +:+ "downloaded=" +:+ v +:+ post /\
       leftmost "downloaded=" pre ("downloaded=" +:+ v +:+ post) /\
       rewrite_downloaded cfg q1 = pre +:+ "downloaded=" +:+ "0" +:+ post) /\
    (NO_DOWNLOAD cfg = false ->
     rewrite_downloaded cfg q1 = q1 /\
     forall i f,
       fields q !! i = Some f ->
       contains "uploaded=" f = false -> contains "left=" f = false ->
       fields q' !! i = Some f).
Proof.
  intros _ Hi. apply intercept_inv in Hi as (q & Hq & _ & _ & _ & Hr).
  pose proof Hr as Hr'. unfold rewrite_query in Hr'.
  apply bind_Ok in Hr' as (q1 & H1 & H2). inversion H2; subst q'.
  exists q, q1. split; [exact Hq|]. split; [exact H1|]. split; [reflexivity|]. split.
  - intros Hon pre v post Hs.
    pose proof (search_field_spec _ _ _ _ _ Hs) as (E1 & _ & _ & E4).
    split; [exact E1|]. split; [exact E4|].
    exact (rewrite_downloaded_on cfg q1 pre v post Hon Hs).
  - intros Hoff. split; [apply rewrite_downloaded_off; assumption|].
    intros i f Hf Hu Hl.
    apply (fields_rewrite_query cfg (extract_params q) m q _ i f Hr Hf Hu);
      [congruence | intros _; exact Hl].
Qed.

Lemma downloaded_rewritten_witness :
  exists q q1,
    request_query (announce sample_query) = Some q /\
    rewrite_uploaded (extract_params q) 3.0 q = Ok q1 /\
    "info_hash=ABC&uploaded=3000.0&downloaded=0&left=0&event=started" =
      rewrite_left no_download_config (rewrite_downloaded no_download_config q1).
Proof.
  destruct (downloaded_rewritten no_download_config ∅ (announce sample_query)
              "tracker.example.com" 6969 (Some "ABC") 3.0
              "info_hash=ABC&uploaded=3000.0&downloaded=0&left=0&event=started"
              (rebuild_request "/announce"
                 "info_hash=ABC&uploaded=3000.0&downloaded=0&left=0&event=started"
                 (rebuild_headers "tracker.example.com" 6969 (announce sample_query))))
    as (q & q1 & H1 & H2 & H3 & _).
  - vm_compute. reflexivity.
  - vm_compute. reflexivity.
  - exists q, q1. auto.
Defined.

End Rewrites.

Section Identifier.

Lemma update_without_identifier (sc : gmap string Z) (decoded : option bvalue) :
  update_seed_counts sc None decoded = Ok sc.
Proof.
  destruct decoded as [[n|s|l|d]|]; try reflexivity.
  unfold update_seed_counts. destruct (truthy (BDict d)); reflexivity.
Qed.

Lemma intercepted_nonempty (cfg : config) (sc : gmap string Z) (text host : string)
    (port : Z) (ih : option string) (m : float) (q' req : string) :
  intercept cfg sc text = Ok (Intercepted host port ih m q' req) ->
  nonempty text = true.
Proof. destruct text; [discriminate|reflexivity]. Qed.

(** An intercepted request is handed to the tracker. *)
Lemma intercepted_forwarded (cfg : config) (sc : gmap string Z)
    (tracker : string -> Z -> string -> option string) (text host : string)
    (port : Z) (ih : option string) (m : float) (q' req : string) :
  intercept cfg sc text = Ok (Intercepted host port ih m q' req) ->
  upstream (handle_client cfg sc tracker text) = Some (host, port, req).
Proof.
  intros Hi. unfold handle_client.
  rewrite (intercepted_nonempty _ _ _ _ _ _ _ _ _ Hi), Hi. simpl.
  destruct (tracker host port req) as [reply|]; [|reflexivity].
  destruct (nonempty reply); [|reflexivity].
  destruct (update_seed_counts _ _ _); reflexivity.
Qed.

(** C9, as stated, fails: the query below has the marker followed at once
    by an ampersand, and a second occurrence with a value; the second one
    is captured and the dictionary is updated from the reply. *)
Lemma empty_identifier_then_update :
  let q := "info_hash=&info_hash=ABC" in
  startswith q "info_hash=&" = true /\
  seed_counts_after
    (handle_client default_config ∅ (tracker_replying "d8:completei7ee")
       (announce q)) !! "ABC" = Some 7.
Proof. vm_compute. split; reflexivity. Qed.

(** C9, amended.  For every request (7-bit, within the digit limit of
    [int]) whose query string contains the marker [info_hash=] and in
    which every occurrence of the marker is followed at once by an
    ampersand or by the end of the string, no
    identifier is captured; the request is treated as eligible and
    rewritten with [UPLOAD_MULTIPLIER_LOW]; if the rewriting completes the
    request is forwarded to the tracker; and [seed_counts] is not updated,
    whatever the reply. *)
Theorem no_update_without_identifier (cfg : config) (sc : gmap string Z)
    (tracker : string -> Z -> string -> option string) (text q : string) :
  request_in_model text = true ->
  request_query text = Some q ->
  contains "info_hash=" q = true ->
  always_empty "info_hash=" q ->
  let o := handle_client cfg sc tracker text in
  let low := UPLOAD_MULTIPLIER_LOW cfg in
  extract_params q !! "info_hash" = None /\
  (exists host port path_only,
     intercept cfg sc text =
     q' ← rewrite_query cfg (extract_params q) low q;
     Ok (Intercepted host port None low q'
           (rebuild_request path_only q' (rebuild_headers host port text)))) /\
  (forall host port ih m q' req,
     intercept cfg sc text = Ok (Intercepted host port ih m q' req) ->
     ih = None /\ upstream o = Some (host, port, req)) /\
  seed_counts_after o = sc.
Proof.
  intros _ Hq Hc Hs o low. apply search_field_None_iff in Hs.
  assert (Hih : extract_params q !! "info_hash" = None).
  { rewrite params_info_hash, Hs. reflexivity. }
  split; [exact Hih|]. split.
  { destruct (intercept_eligible cfg sc text q Hq Hc) as (host & port & po & Hi).
    exists host, port, po. rewrite Hi, Hih. reflexivity. }
  assert (Hnone : forall host port ih m q' req,
            intercept cfg sc text = Ok (Intercepted host port ih m q' req) -> ih = None).
  { intros host port ih m q' req Hi.
    apply intercept_inv in Hi as (q0 & Hq0 & _ & Hih0 & _).
    rewrite Hq in Hq0. inversion Hq0; subst q0. congruence. }
  split.
  { intros host port ih m q' req Hi. split; [eapply Hnone; eassumption|].
    eapply intercepted_forwarded; eassumption. }
  subst o. unfold handle_client.
  destruct (negb (nonempty text)); [reflexivity|].
  destruct (intercept cfg sc text) as [[| |host port ih m q' req]|e] eqn:Hi;
    try reflexivity.
  rewrite (Hnone _ _ _ _ _ _ eq_refl).
  destruct (tracker host port req) as [reply|]; [|reflexivity].
  destruct (nonempty reply); [|reflexivity].
  rewrite update_without_identifier. reflexivity.
Qed.

Lemma no_update_without_identifier_witness :
  seed_counts_after
    (handle_client default_config ∅ (tracker_replying "d8:completei7ee")
       (announce "info_hash=&uploaded=1000")) = ∅.
Proof.
  refine (proj2 (proj2 (proj2 (no_update_without_identifier default_config ∅
            (tracker_replying "d8:completei7ee")
            (announce "info_hash=&uploaded=1000") "info_hash=&uploaded=1000"
            _ _ _ _)))).
  - vm_compute. reflexivity.
  - vm_compute. reflexivity.
  - vm_compute. reflexivity.
  - apply search_field_None_iff. vm_compute. reflexivity.
Defined.

Lemma dict_get_absent (d : list (bkey * bvalue)) (k : bkey) (default : bvalue) :
  (forall v, (k, v) ∉ d) -> dict_get d k default = default.
Proof.
  induction d as [|[k' v'] d IH]; intros H; [reflexivity|]. simpl.
  destruct (decide (k' = k)) as [->|Hne].
  - exfalso. apply (H v'). apply list_elem_of_here.
  - apply IH. intros v Hv. apply (H v). apply list_elem_of_further. exact Hv.
Qed.

(** C10, as stated, fails: the reply [de] decodes successfully to a map
    that has no [complete] key, and the count recorded for the swarm stays
    what it was. *)
Lemma empty_map_reply_keeps_count :
  bdecode "de" = Ok (BDict []) /\
  extract_params sample_query !! "info_hash" = Some "ABC" /\
  seed_counts_after
    (handle_client default_config (<["ABC" := 9]> ∅) (tracker_replying "de")
       (announce sample_query)) !! "ABC" = Some 9.
Proof. vm_compute. repeat split; reflexivity. Qed.

(** C10, amended.  For every eligible request (7-bit, within the digit
    limit of [int]) with a captured swarm identifier whose tracker reply
    (within the digit and nesting limits of the interpreter) decodes
    successfully to a map that is not empty and contains no [complete]
    key, the entry of [seed_counts] for that identifier is written with
    the value 0, overwriting any count recorded before, and the reply is
    relayed to the client. *)
Theorem map_without_complete_records_zero (cfg : config) (sc : gmap string Z)
    (tracker : string -> Z -> string -> option string) (text host : string)
    (port : Z) (h : string) (m : float) (q' req reply : string)
    (d : list (bkey * bvalue)) :
  request_in_model text = true ->
  intercept cfg sc text = Ok (Intercepted host port (Some h) m q' req) ->
  tracker host port req = Some reply ->
  buffer_in_model reply = true ->
  bdecode reply = Ok (BDict d) ->
  d <> [] ->
  (forall v, (KBytes "complete", v) ∉ d) ->
  let o := handle_client cfg sc tracker text in
  seed_counts_after o = <[h := 0]> sc /\ to_client o = reply.
Proof.
  intros _ Hi Ht _ Hd Hne Habs o. subst o. unfold handle_client.
  rewrite (intercepted_nonempty _ _ _ _ _ _ _ _ _ Hi), Hi. simpl. rewrite Ht.
  assert (Hr : nonempty reply = true).
  { destruct reply; [vm_compute in Hd; discriminate|reflexivity]. }
  rewrite Hr, Hd.
  assert (Hh : nonempty h = true).
  { apply intercept_inv in Hi as (q & _ & _ & Hih & _).
    eapply info_hash_nonempty. symmetry. eassumption. }
  unfold update_seed_counts.
  assert (Htr : truthy (BDict d) = true) by (destruct d; [contradiction|reflexivity]).
  rewrite Htr, Hh, (dict_get_absent _ _ _ Habs). simpl. auto.
Qed.

Lemma map_without_complete_records_zero_witness :
  seed_counts_after
    (handle_client default_config (<["ABC" := 9]> ∅)
       (tracker_replying "d8:intervali1800ee") (announce sample_query))
  = <["ABC" := 0]> (<["ABC" := 9]> ∅).
Proof.
  refine (proj1 (map_without_complete_records_zero default_config (<["ABC" := 9]> ∅)
            (tracker_replying "d8:intervali1800ee") (announce sample_query)
            _ _ "ABC" _ _ _ "d8:intervali1800ee" [(KBytes "interval", BInt 1800)]
            _ _ _ _ _ _ _)).
  - vm_compute. reflexivity.
  - vm_compute. reflexivity.
  - reflexivity.
  - vm_compute. reflexivity.
  - vm_compute. reflexivity.
  - discriminate.
  - intros v Hv. apply list_elem_of_singleton in Hv. discriminate Hv.
Defined.

End Identifier.

(* ===================================================================== *)
(** * The scenarios of the specification                                  *)
(* ===================================================================== *)

Section Scenarios.

(** A reply map with the three counts decodes to those three entries. *)
Example decode_counts :
  bdecode "d8:completei5e10:incompletei2e8:intervali1800ee" =
  Ok (BDict [(KBytes "complete", BInt 5); (KBytes "incomplete", BInt 2);
             (KBytes "interval", BInt 1800)]).
Proof. vm_compute. reflexivity. Qed.

(** No count recorded for the swarm: the low multiplier, and the download
    and remaining-bytes fields untouched. *)
Example announce_unseen_swarm :
  intercept default_config ∅ (announce sample_query) =
  Ok (Intercepted "tracker.example.com" 6969 (Some "ABC") 3.0
        "info_hash=ABC&uploaded=3000.0&downloaded=500&left=0&event=started"
        ("GET /announce?info_hash=ABC&uploaded=3000.0&downloaded=500&left=0&event=started HTTP/1.1"
         +:+ crlf +:+ "Host: tracker.example.com:6969" +:+ crlf +:+ crlf)).
Proof. vm_compute. reflexivity. Qed.

(** Ten seeders recorded for the swarm: the high multiplier. *)
Example announce_seeded_swarm :
  exists req,
    intercept default_config (<["ABC" := 10]> ∅) (announce sample_query) =
    Ok (Intercepted "tracker.example.com" 6969 (Some "ABC") 1.5
          "info_hash=ABC&uploaded=1500.0&downloaded=500&left=0&event=started" req).
Proof. eexists. vm_compute. reflexivity. Qed.

(** A reply with a seeder count is relayed and recorded. *)
Example reply_recorded :
  let o := handle_client default_config ∅ (tracker_replying "d8:completei7ee")
             (announce sample_query) in
  to_client o = "d8:completei7ee" /\ seed_counts_after o !! "ABC" = Some 7.
Proof. vm_compute. split; reflexivity. Qed.

End Scenarios.

(* ===================================================================== *)
(** * Further properties of the handler: replies                          *)
(* ===================================================================== *)

Section ReplyHandling.

(** What the handler does once a request is intercepted and the tracker
    has answered with a reply that is not empty. *)
Lemma handle_client_replied (cfg : config) (sc : gmap string Z)
    (tracker : string -> Z -> string -> option string) (text host : string)
    (port : Z) (ih : option string) (m : float) (q' req reply : string) :
  intercept cfg sc text = Ok (Intercepted host port ih m q' req) ->
  tracker host port req = Some reply ->
  nonempty reply = true ->
  handle_client cfg sc tracker text =
  match update_seed_counts sc ih
          match bdecode reply with Ok v => Some v | Raise _ => None end with
  | Ok sc' =>
      {| upstream := Some (host, port, req); to_client := reply;
         closed := true; seed_counts_after := sc' |}
  | Raise _ =>
      {| upstream := Some (host, port, req); to_client := EmptyString;
         closed := true; seed_counts_after := sc |}
  end.
Proof.
  intros Hi Ht Hr. unfold handle_client.
  rewrite (intercepted_nonempty _ _ _ _ _ _ _ _ _ Hi), Hi. simpl.
  rewrite Ht, Hr. reflexivity.
Qed.

Lemma decoded_reply_nonempty (reply : string) (v : bvalue) :
  bdecode reply = Ok v -> nonempty reply = true.
Proof. destruct reply; [vm_compute; discriminate|reflexivity]. Qed.

Lemma captured_identifier_nonempty (cfg : config) (sc : gmap string Z)
    (text host : string) (port : Z) (h : string) (m : float) (q' req : string) :
  intercept cfg sc text = Ok (Intercepted host port (Some h) m q' req) ->
  nonempty h = true.
Proof.
  intros Hi. apply intercept_inv in Hi as (q & _ & _ & Hih & _).
  eapply info_hash_nonempty. symmetry. eassumption.
Qed.

(** X1.  When the reply to an intercepted request with a captured swarm
    identifier decodes to a non-empty map whose [complete] entry is read
    by [int] as [n] (an integer, or a byte string of digits), the handler
    relays the reply unmodified, records [n] for that identifier and
    leaves the count of every other swarm as it was.  The request is
    7-bit and within the digit limit of [int]; the reply is within the
    digit and nesting limits of the interpreter. *)
Theorem complete_count_recorded (cfg : config) (sc : gmap string Z)
    (tracker : string -> Z -> string -> option string) (text host : string)
    (port : Z) (h : string) (m : float) (q' req reply : string)
    (d : list (bkey * bvalue)) (n : Z) :
  request_in_model text = true ->
  intercept cfg sc text = Ok (Intercepted host port (Some h) m q' req) ->
  tracker host port req = Some reply ->
  buffer_in_model reply = true ->
  bdecode reply = Ok (BDict d) ->
  d <> [] ->
  int_of_value (dict_get d (KBytes "complete") (BBytes "0")) = Ok n ->
  let o := handle_client cfg sc tracker text in
  to_client o = reply /\
  seed_counts_after o = <[h := n]> sc /\
  seed_counts_after o !! h = Some n /\
  (forall k, k <> h -> seed_counts_after o !! k = sc !! k).
Proof.
  intros _ Hi Ht _ Hd Hne Hn o. subst o.
  rewrite (handle_client_replied _ _ _ _ _ _ _ _ _ _ _ Hi Ht
             (decoded_reply_nonempty _ _ Hd)), Hd.
  unfold update_seed_counts.
  assert (Htr : truthy (BDict d) = true) by (destruct d; [contradiction|reflexivity]).
  rewrite Htr, (captured_identifier_nonempty _ _ _ _ _ _ _ _ _ Hi), Hn. simpl.
  split; [reflexivity|]. split; [reflexivity|]. split.
  - apply lookup_insert_eq.
  - intros k Hk. apply lookup_insert_ne. congruence.
Qed.

Lemma complete_count_recorded_witness :
  seed_counts_after
    (handle_client default_config (<["XYZ" := 2]> ∅)
       (tracker_replying "d8:complete2:12e") (announce sample_query))
  = <["ABC" := 12]> (<["XYZ" := 2]> ∅).
Proof.
  refine (proj1 (proj2 (complete_count_recorded default_config (<["XYZ" := 2]> ∅)
            (tracker_replying "d8:complete2:12e") (announce sample_query)
            _ _ "ABC" _ _ _ "d8:complete2:12e" [(KBytes "complete", BBytes "12")] 12
            _ _ _ _ _ _ _))).
  - vm_compute. reflexivity.
  - vm_compute. reflexivity.
  - reflexivity.
  - vm_compute. reflexivity.
  - vm_compute. reflexivity.
  - discriminate.
  - vm_compute. reflexivity.
Defined.

(** X2.  When the reply to an intercepted request with a captured swarm
    identifier decodes to a non-empty map whose [complete] entry cannot
    be read by [int] (a list, a map, a byte string that is not a number),
    the exception ends the handler: the request was forwarded, no byte of
    the reply reaches the client and [seed_counts] is unchanged.  The
    request is 7-bit and within the digit limit of [int]; the reply is
    within the digit and nesting limits of the interpreter. *)
Theorem unreadable_count_drops_reply (cfg : config) (sc : gmap string Z)
    (tracker : string -> Z -> string -> option string) (text host : string)
    (port : Z) (h : string) (m : float) (q' req reply : string)
    (d : list (bkey * bvalue)) (e : exn) :
  request_in_model text = true ->
  intercept cfg sc text = Ok (Intercepted host port (Some h) m q' req) ->
  tracker host port req = Some reply ->
  buffer_in_model reply = true ->
  bdecode reply = Ok (BDict d) ->
  d <> [] ->
  int_of_value (dict_get d (KBytes "complete") (BBytes "0")) = Raise e ->
  let o := handle_client cfg sc tracker text in
  upstream o = Some (host, port, req) /\
  to_client o = EmptyString /\ seed_counts_after o = sc /\ closed o = true.
Proof.
  intros _ Hi Ht _ Hd Hne Hn o. subst o.
  rewrite (handle_client_replied _ _ _ _ _ _ _ _ _ _ _ Hi Ht
             (decoded_reply_nonempty _ _ Hd)), Hd.
  unfold update_seed_counts.
  assert (Htr : truthy (BDict d) = true) by (destruct d; [contradiction|reflexivity]).
  rewrite Htr, (captured_identifier_nonempty _ _ _ _ _ _ _ _ _ Hi), Hn. simpl.
  auto.
Qed.

Lemma unreadable_count_drops_reply_witness :
  to_client
    (handle_client default_config ∅ (tracker_replying "d8:completelee")
       (announce sample_query)) = EmptyString.
Proof.
  refine (proj1 (proj2 (unreadable_count_drops_reply default_config ∅
            (tracker_replying "d8:completelee") (announce sample_query)
            _ _ "ABC" _ _ _ "d8:completelee" [(KBytes "complete", BList [])] TypeError
            _ _ _ _ _ _ _))).
  - vm_compute. reflexivity.
  - vm_compute. reflexivity.
  - reflexivity.
  - vm_compute. reflexivity.
  - vm_compute. reflexivity.
  - discriminate.
  - reflexivity.
Defined.

(** X3.  The multiplier of a request is chosen from [seed_counts] as it
    stood before the request, and the count its reply records decides the
    multiplier of the next request for the same swarm: high when the count
    recorded is at least the threshold, low otherwise.  The requests are
    7-bit and within the digit limit of [int]; the reply is within the
    digit and nesting limits of the interpreter. *)
Theorem recorded_count_selects_next_multiplier (cfg : config)
    (sc : gmap string Z) (tracker : string -> Z -> string -> option string)
    (text host : string) (port : Z) (h : string) (m : float)
    (q' req reply : string) (d : list (bkey * bvalue)) (n : Z) :
  request_in_model text = true ->
  intercept cfg sc text = Ok (Intercepted host port (Some h) m q' req) ->
  tracker host port req = Some reply ->
  buffer_in_model reply = true ->
  bdecode reply = Ok (BDict d) ->
  d <> [] ->
  int_of_value (dict_get d (KBytes "complete") (BBytes "0")) = Ok n ->
  let sc' := seed_counts_after (handle_client cfg sc tracker text) in
  m = select_multiplier cfg sc (Some h) /\
  select_multiplier cfg sc' (Some h) =
    (if MIN_SEEDERS_THRESHOLD cfg <=? n then UPLOAD_MULTIPLIER_HIGH cfg
     else UPLOAD_MULTIPLIER_LOW cfg) /\
  (forall text2 host2 port2 m2 q2 req2,
     request_in_model text2 = true ->
     intercept cfg sc' text2 = Ok (Intercepted host2 port2 (Some h) m2 q2 req2) ->
     m2 = if MIN_SEEDERS_THRESHOLD cfg <=? n then UPLOAD_MULTIPLIER_HIGH cfg
          else UPLOAD_MULTIPLIER_LOW cfg).
Proof.
  intros _ Hi Ht _ Hd Hne Hn sc'.
  assert (Hsc : sc' !! h = Some n).
  { subst sc'.
    rewrite (handle_client_replied _ _ _ _ _ _ _ _ _ _ _ Hi Ht
               (decoded_reply_nonempty _ _ Hd)), Hd.
    unfold update_seed_counts.
    assert (Htr : truthy (BDict d) = true) by (destruct d; [contradiction|reflexivity]).
    rewrite Htr, (captured_identifier_nonempty _ _ _ _ _ _ _ _ _ Hi), Hn. simpl.
    apply lookup_insert_eq. }
  assert (Hsel : select_multiplier cfg sc' (Some h) =
                 if MIN_SEEDERS_THRESHOLD cfg <=? n then UPLOAD_MULTIPLIER_HIGH cfg
                 else UPLOAD_MULTIPLIER_LOW cfg).
  { unfold select_multiplier. rewrite Hsc. reflexivity. }
  split.
  { apply intercept_inv in Hi as (q & _ & _ & _ & Hm & _). exact Hm. }
  split; [exact Hsel|].
  intros text2 host2 port2 m2 q2 req2 _ Hi2.
  apply intercept_inv in Hi2 as (q & _ & _ & _ & Hm & _). rewrite Hm. exact Hsel.
Qed.

Lemma recorded_count_selects_next_multiplier_witness :
  select_multiplier default_config
    (seed_counts_after
       (handle_client default_config ∅ (tracker_replying "d8:completei7ee")
          (announce sample_query))) (Some "ABC") = 1.5%float.
Proof.
  refine (proj1 (proj2 (recorded_count_selects_next_multiplier default_config ∅
            (tracker_replying "d8:completei7ee") (announce sample_query)
            _ _ "ABC" _ _ _ "d8:completei7ee" [(KBytes "complete", BInt 7)] 7
            _ _ _ _ _ _ _))).
  - vm_compute. reflexivity.
  - vm_compute. reflexivity.
  - reflexivity.
  - vm_compute. reflexivity.
  - vm_compute. reflexivity.
  - discriminate.
  - reflexivity.
Defined.

(** X4.  Whatever the request and the tracker, the bytes the handler
    writes to the client are nothing at all, the request's own bytes, or
    exactly the reply the tracker gave to the request that was forwarded:
    the handler never writes anything of its own making. *)
Theorem client_receives_request_or_reply (cfg : config) (sc : gmap string Z)
    (tracker : string -> Z -> string -> option string) (text : string) :
  let o := handle_client cfg sc tracker text in
  to_client o = EmptyString \/
  (to_client o = text /\ upstream o = None) \/
  (exists host port req,
     upstream o = Some (host, port, req) /\
     tracker host port req = Some (to_client o)).
Proof.
  intros o. subst o. unfold handle_client.
  destruct (negb (nonempty text)); [left; reflexivity|].
  destruct (intercept cfg sc text) as [[| |host port ih m q' req]|e];
    try (left; reflexivity).
  - right. left. split; reflexivity.
  - destruct (tracker host port req) as [reply|] eqn:Ht; [|left; reflexivity].
    destruct (nonempty reply); [|left; reflexivity].
    destruct (update_seed_counts _ _ _); [|left; reflexivity].
    right. right. exists host, port, req. split; [reflexivity|exact Ht].
Qed.

(** X5.  When the tracker gives no reply to an intercepted request (the
    connection failed) or an empty one, the request was forwarded, the
    client receives no byte, the socket is closed and [seed_counts] is
    unchanged. *)
Theorem no_reply_nothing_relayed (cfg : config) (sc : gmap string Z)
    (tracker : string -> Z -> string -> option string) (text host : string)
    (port : Z) (ih : option string) (m : float) (q' req : string) :
  intercept cfg sc text = Ok (Intercepted host port ih m q' req) ->
  tracker host port req = None \/ tracker host port req = Some EmptyString ->
  let o := handle_client cfg sc tracker text in
  upstream o = Some (host, port, req) /\ to_client o = EmptyString /\
  closed o = true /\ seed_counts_after o = sc.
Proof.
  intros Hi Ht o. subst o. unfold handle_client.
  rewrite (intercepted_nonempty _ _ _ _ _ _ _ _ _ Hi), Hi. simpl.
  destruct Ht as [-> | ->]; simpl; auto.
Qed.

Lemma no_reply_nothing_relayed_witness :
  to_client (handle_client default_config ∅ no_tracker (announce sample_query))
  = EmptyString.
Proof.
  refine (proj1 (proj2 (no_reply_nothing_relayed default_config ∅ no_tracker
            (announce sample_query) _ _ _ _ _ _ _ _))).
  - vm_compute. reflexivity.
  - left. reflexivity.
Defined.

End ReplyHandling.

(* ===================================================================== *)
(** * Further properties of the handler: the URL and the query            *)
(* ===================================================================== *)

Section UrlAndQuery.

(** What [match_url] returns is spelled in the URL, in order. *)
Lemma match_url_sound (url host path : string) (port_group : option string) :
  match_url url = Some (host, port_group, path) ->
  exists rest,
    url = "http://" +:+ host
          +:+ match port_group with Some p => ":" +:+ p | None => EmptyString end
          +:+ path +:+ rest /\
    nonempty host = true /\ Py.forallb is_host_char host = true /\
    match port_group with
    | Some p => nonempty p = true /\ Py.forallb is_digit p = true
    | None => True
    end /\
    startswith path "/" = true /\ Py.forallb not_newline path = true /\
    match rest with
    | EmptyString => True
    | String c _ => c = "010"%char
    end.
Proof.
  unfold match_url. intros H.
  destruct (strip_prefix "http://" url) as [r|] eqn:Ep; [|discriminate].
  apply strip_prefix_Some in Ep. subst url.
  destruct (span is_host_char r) as [h r1] eqn:Eh.
  destruct (nonempty h) eqn:Hn; [|discriminate].
  pose proof (span_app _ _ _ _ Eh) as Er. pose proof (span_forallb _ _ _ _ Eh) as Hh.
  subst r.
  assert (Hrest : forall s a b, span not_newline s = (a, b) ->
            match b with EmptyString => True | String c _ => c = "010"%char end).
  { intros s a b Es. pose proof (span_rest _ _ _ _ Es) as Hr.
    destruct b as [|c b]; [exact I|]. unfold not_newline in Hr.
    apply negb_false_iff, Ascii.eqb_eq in Hr. exact Hr. }
  destruct r1 as [|c r2]; [discriminate|].
  destruct (Ascii.eqb_spec c ":") as [->|Hc].
  - destruct (span is_digit r2) as [p r3] eqn:Es.
    destruct (nonempty p) eqn:Hp; [|discriminate].
    destruct (startswith r3 "/") eqn:Hs; [|discriminate].
    destruct (span not_newline r3) as [pa rest] eqn:Epa.
    simpl in H. injection H as <- <- <-. exists rest.
    pose proof (span_app _ _ _ _ Es) as E2. pose proof (span_app _ _ _ _ Epa) as E3.
    subst r2 r3. repeat split; try assumption.
    + eapply span_forallb; eassumption.
    + destruct pa as [|c pa];
        [|rewrite app_cons in Hs; unfold startswith in Hs |- *;
          cbn [strip_prefix] in Hs |- *;
          destruct (Ascii.eqb "/" c); [reflexivity|discriminate]].
      rewrite app_empty_l in Hs. pose proof (Hrest _ _ _ Epa) as Hr.
      destruct rest as [|c rest]; [discriminate|]. subst c. discriminate.
    + eapply span_forallb; eassumption.
    + exact (Hrest _ _ _ Epa).
  - destruct (Ascii.eqb_spec c "/") as [->|Hc'].
    + destruct (span not_newline (String "/" r2)) as [pa rest] eqn:Epa.
      simpl in H. injection H as <- <- <-. exists rest.
      pose proof (span_app _ _ _ _ Epa) as E3. rewrite E3, app_empty_l.
      repeat split; try assumption.
      * simpl in Epa. destruct (span not_newline r2). inversion Epa. reflexivity.
      * eapply span_forallb; eassumption.
      * exact (Hrest _ _ _ Epa).
    + exfalso. destruct c as [[] [] [] [] [] [] [] []]; try discriminate H;
        first [apply Hc; reflexivity | apply Hc'; reflexivity].
Qed.

Lemma contains_app_r (sub a b : string) :
  contains sub b = true -> contains sub (a +:+ b) = true.
Proof.
  intros H. induction a as [|c a IH]; [exact H|].
  rewrite app_cons. simpl. rewrite IH. apply orb_true_r.
Qed.

Lemma contains_app_l (sub a b : string) :
  contains sub a = true -> contains sub (a +:+ b) = true.
Proof.
  induction a as [|c a IH]; intros H.
  - simpl in H. rewrite orb_false_r in H. unfold startswith in H.
    destruct sub; [|discriminate]. destruct b; reflexivity.
  - rewrite app_cons. simpl in H |- *. apply orb_true_iff in H as [H|H].
    + unfold startswith in *.
      destruct (strip_prefix sub (String c a)) as [r|] eqn:E; [|discriminate].
      apply strip_prefix_Some in E. rewrite <- app_cons, E, app_assoc.
      rewrite strip_prefix_app. reflexivity.
    + rewrite (IH H). apply orb_true_r.
Qed.

(** X6.  A 7-bit request for an absolute URL that has no slash after
    [http://] (a host with no path) cannot be resolved: the handler
    forwards nothing, writes nothing to the client, not even the echo an
    ineligible request gets, and closes the socket. *)
Theorem url_without_path_dropped (cfg : config) (sc : gmap string Z)
    (tracker : string -> Z -> string -> option string) (text url : string) :
  request_in_model text = true ->
  search_get text = Some url ->
  contains "/" (Py.drop 7 url) = false ->
  let o := handle_client cfg sc tracker text in
  intercept cfg sc text = Ok UrlParseFailed /\
  upstream o = None /\ to_client o = EmptyString /\ closed o = true /\
  seed_counts_after o = sc.
Proof.
  intros _ Hg Hs o.
  assert (Hm : match_url url = None).
  { destruct (match_url url) as [[[host pg] path]|] eqn:E; [|reflexivity].
    apply match_url_sound in E as (rest & -> & _ & _ & _ & Hp & _).
    exfalso. change (Py.drop 7 ("http://" +:+ ?x)) with x in Hs.
    rewrite contains_app_r in Hs; [discriminate|].
    apply contains_app_r, contains_app_l, contains_startswith. exact Hp. }
  assert (Hi : intercept cfg sc text = Ok UrlParseFailed).
  { unfold intercept. rewrite Hg, Hm. reflexivity. }
  split; [exact Hi|]. subst o. unfold handle_client. rewrite Hi.
  destruct (negb (nonempty text)); simpl; auto.
Qed.

Lemma url_without_path_dropped_witness :
  to_client
    (handle_client default_config ∅ (tracker_replying "d8:completei7ee")
       ("GET http://tracker.example.com?info_hash=ABC HTTP/1.1" +:+ crlf +:+ crlf))
  = EmptyString.
Proof.
  refine (proj1 (proj2 (proj2 (url_without_path_dropped default_config ∅
            (tracker_replying "d8:completei7ee")
            ("GET http://tracker.example.com?info_hash=ABC HTTP/1.1" +:+ crlf +:+ crlf)
            "http://tracker.example.com?info_hash=ABC" _ _ _))));
    vm_compute; reflexivity.
Defined.

Lemma rewrite_left_on (cfg : config) (q pre v post : string) :
  PRETEND_TO_SEED cfg = true ->
  search_field "left=" q = Some (pre, v, post) ->
  rewrite_left cfg q = pre +:+ "left=" +:+ "0" +:+ post.
Proof.
  intros Hon H. unfold rewrite_left.
  rewrite Hon, (search_field_contains _ _ _ _ _ H). simpl.
  apply (sub_first_spec _ _ _ _ _ _ H).
Qed.

Lemma rewrite_left_no_match (cfg : config) (q : string) :
  search_field "left=" q = None -> rewrite_left cfg q = q.
Proof.
  intros H. unfold rewrite_left.
  destruct (PRETEND_TO_SEED cfg && contains "left=" q); [|reflexivity].
  apply search_field_None_sub_first. exact H.
Qed.

(** X7.  For every intercepted request (7-bit, within the digit limit of
    [int]), the remaining-bytes rewrite is the last of the three.  With
    [PRETEND_TO_SEED] on it replaces by the literal 0 the value at the
    leftmost occurrence of [left=] followed by a non-empty value, in the
    query as the upload and download rewrites left it, and changes nothing
    when there is no such occurrence; with [PRETEND_TO_SEED] off it
    changes nothing, and every field that contains neither [uploaded=] nor
    [downloaded=] is forwarded as the client sent it. *)
Theorem left_rewritten (cfg : config) (sc : gmap string Z)
    (text host : string) (port : Z) (ih : option string) (m : float)
    (q' req : string) :
  request_in_model text = true ->
  intercept cfg sc text = Ok (Intercepted host port ih m q' req) ->
  exists q q1,
    request_query text = Some q /\
    rewrite_uploaded (extract_params q) m q = Ok q1 /\
    let q2 := rewrite_downloaded cfg q1 in
    q' = rewrite_left cfg q2 /\
    (PRETEND_TO_SEED cfg = true ->
     forall pre v post,
       search_field "left=" q2 = Some (pre, v, post) ->
       q2 = pre +:+ "left=" +:+ v +:+ post /\
       leftmost "left=" pre ("left=" +:+ v +:+ post) /\
       q' = pre +:+ "left=" +:+ "0" +:+ post) /\
    (search_field "left=" q2 = None -> q' = q2) /\
    (PRETEND_TO_SEED cfg = false ->
     q' = q2 /\
     forall i f,
       fields q !! i = Some f ->
       contains "uploaded=" f = false -> contains "downloaded=" f = false ->
       fields q' !! i = Some f).
Proof.
  intros _ Hi. apply intercept_inv in Hi as (q & Hq & _ & _ & _ & Hr).
  pose proof Hr as Hr'. unfold rewrite_query in Hr'.
  apply bind_Ok in Hr' as (q1 & H1 & H2). inversion H2; subst q'.
  exists q, q1. split; [exact Hq|]. split; [exact H1|]. intros q2.
  split; [reflexivity|]. split; [|split].
  - intros Hon pre v post Hs.
    pose proof (search_field_spec _ _ _ _ _ Hs) as (E1 & _ & _ & E4).
    split; [exact E1|]. split; [exact E4|].
    exact (rewrite_left_on cfg q2 pre v post Hon Hs).
  - apply rewrite_left_no_match.
  - intros Hoff. split; [apply rewrite_left_off; assumption|].
    intros i f Hf Hu Hd.
    apply (fields_rewrite_query cfg (extract_params q) m q _ i f Hr Hf Hu);
      [intros _; exact Hd | congruence].
Qed.

Lemma left_rewritten_witness :
  exists q q1,
    request_query (announce "info_hash=ABC&left=4096&event=started") = Some q /\
    rewrite_uploaded (extract_params q) 3.0 q = Ok q1 /\
    "info_hash=ABC&left=0&event=started" =
      rewrite_left
        {| MIN_SEEDERS_THRESHOLD := 5; UPLOAD_MULTIPLIER_LOW := 3.0;
           UPLOAD_MULTIPLIER_HIGH := 1.5; NO_DOWNLOAD := false;
           PRETEND_TO_SEED := true |}
        (rewrite_downloaded
           {| MIN_SEEDERS_THRESHOLD := 5; UPLOAD_MULTIPLIER_LOW := 3.0;
              UPLOAD_MULTIPLIER_HIGH := 1.5; NO_DOWNLOAD := false;
              PRETEND_TO_SEED := true |} q1).
Proof.
  destruct (left_rewritten
              {| MIN_SEEDERS_THRESHOLD := 5; UPLOAD_MULTIPLIER_LOW := 3.0;
                 UPLOAD_MULTIPLIER_HIGH := 1.5; NO_DOWNLOAD := false;
                 PRETEND_TO_SEED := true |} ∅
              (announce "info_hash=ABC&left=4096&event=started")
              "tracker.example.com" 6969 (Some "ABC") 3.0
              "info_hash=ABC&left=0&event=started"
              (rebuild_request "/announce" "info_hash=ABC&left=0&event=started"
                 (rebuild_headers "tracker.example.com" 6969
                    (announce "info_hash=ABC&left=4096&event=started"))))
    as (q & q1 & H1 & H2 & H3 & _).
  - vm_compute. reflexivity.
  - vm_compute. reflexivity.
  - exists q, q1. auto.
Defined.

Lemma fields_length_cons (c : ascii) (s : string) :
  length (fields (String c s)) =
  if Ascii.eqb c "&" then S (length (fields s)) else length (fields s).
Proof.
  cbn [fields]. destruct (Ascii.eqb c "&"); [reflexivity|].
  destruct (fields s) as [|f r] eqn:E; [exfalso; eapply fields_not_nil; eauto|].
  reflexivity.
Qed.

(** A substitution neither adds nor removes a field. *)
Lemma fields_sub_first_length (marker repl s : string) :
  Py.forallb not_amp marker = true ->
  Py.forallb not_amp repl = true ->
  length (fields (sub_first marker repl s)) = length (fields s).
Proof.
  intros Hm Hr. unfold sub_first.
  induction s as [|c s IH].
  - simpl. destruct (field_here marker "") as [[v post]|] eqn:E; [|reflexivity].
    apply field_here_spec in E as (E1 & E2 & _).
    destruct marker; [|discriminate]. destruct v; discriminate.
  - simpl search_field.
    destruct (field_here marker (String c s)) as [[v post]|] eqn:E.
    + apply field_here_spec in E as (E1 & E2 & E3).
      rewrite app_empty_l, E1.
      destruct (fields_app_no_amp (marker +:+ v) post) as (f & r & F1 & F2).
      { rewrite forallb_app, Hm, E3. reflexivity. }
      destruct (fields_app_no_amp (marker +:+ repl) post) as (f' & r' & G1 & G2).
      { rewrite forallb_app, Hm, Hr. reflexivity. }
      rewrite <- (app_assoc marker v post), F2, <- (app_assoc marker repl post), G2.
      rewrite F1 in G1. inversion G1; subst. reflexivity.
    + destruct (search_field marker s) as [[[pre v] post]|] eqn:Es; [|reflexivity].
      rewrite app_cons, !fields_length_cons, IH. reflexivity.
Qed.

(** X8.  Rewriting neither adds nor removes a field: the forwarded query
    has as many fields between ampersands as the query received, because
    no text that is substituted (the text of a float, the literal 0)
    contains an ampersand. *)
Theorem rewriting_keeps_field_count (cfg : config) (sc : gmap string Z)
    (text q host : string) (port : Z) (ih : option string) (m : float)
    (q' req : string) :
  request_query text = Some q ->
  intercept cfg sc text = Ok (Intercepted host port ih m q' req) ->
  length (fields q') = length (fields q).
Proof.
  intros Hq Hi. apply intercept_inv in Hi as (q0 & Hq0 & _ & _ & _ & Hr).
  rewrite Hq in Hq0. inversion Hq0; subst q0. clear Hq0.
  unfold rewrite_query in Hr. apply bind_Ok in Hr as (q1 & H1 & H2).
  inversion H2; subst q'. clear H2.
  assert (L1 : length (fields q1) = length (fields q)).
  { unfold rewrite_uploaded in H1. destruct (extract_params q !! "uploaded") as [v|].
    - apply bind_Ok in H1 as (t & Ht & H1). inversion H1; subst q1.
      apply modified_uploaded_inv in Ht as (x & _ & ->).
      apply fields_sub_first_length; auto using str_of_float_no_amp.
    - inversion H1; subst. reflexivity. }
  assert (L2 : length (fields (rewrite_downloaded cfg q1)) = length (fields q1)).
  { unfold rewrite_downloaded.
    destruct (NO_DOWNLOAD cfg && contains "downloaded=" q1); [|reflexivity].
    apply fields_sub_first_length; reflexivity. }
  rewrite <- L1, <- L2. unfold rewrite_left.
  destruct (PRETEND_TO_SEED cfg && contains "left=" _); [|reflexivity].
  apply fields_sub_first_length; reflexivity.
Qed.

Lemma rewriting_keeps_field_count_witness :
  length (fields "info_hash=ABC&uploaded=3000.0&downloaded=0&left=0&event=started")
  = length (fields sample_query).
Proof.
  refine (rewriting_keeps_field_count no_download_config ∅ (announce sample_query)
            sample_query _ _ _ _ _ _ _ _); vm_compute; reflexivity.
Defined.

End UrlAndQuery.

(* ===================================================================== *)
(** * Further properties of the handler: well-formed requests             *)
(* ===================================================================== *)

Section WellFormedRequests.

Lemma span_app_stop (p : ascii -> bool) (a b : string) :
  Py.forallb p a = true ->
  match b with EmptyString => True | String c _ => p c = false end ->
  span p (a +:+ b) = (a, b).
Proof.
  intros Ha Hb. induction a as [|c a IH].
  - rewrite app_empty_l. destruct b as [|c b]; [reflexivity|]. simpl. rewrite Hb.
    reflexivity.
  - simpl in Ha. apply andb_true_iff in Ha as [Hc Ha].
    rewrite app_cons. simpl. rewrite Hc, (IH Ha). reflexivity.
Qed.

(** Cutting at a separator whose first character does not occur before
    it. *)
Lemma cut_app_first (a : ascii) (sep' l rest : string) :
  Py.forallb (fun c => negb (Ascii.eqb c a)) l = true ->
  cut (String a sep') (l +:+ String a sep' +:+ rest) = Some (l, rest).
Proof.
  intros Hl. induction l as [|c l IH].
  - rewrite app_empty_l.
    change (String a sep' +:+ rest) with (String a (sep' +:+ rest)).
    cbn [cut strip_prefix]. rewrite Ascii.eqb_refl, strip_prefix_app. reflexivity.
  - simpl in Hl. apply andb_true_iff in Hl as [Hc Hl].
    rewrite app_cons. cbn [cut strip_prefix].
    rewrite Ascii.eqb_sym. apply negb_true_iff in Hc. rewrite Hc.
    rewrite (IH Hl). reflexivity.
Qed.

Lemma cut_absent (a : ascii) (sep' l : string) :
  Py.forallb (fun c => negb (Ascii.eqb c a)) l = true ->
  cut (String a sep') l = None.
Proof.
  intros Hl. induction l as [|c l IH]; [reflexivity|].
  simpl in Hl. apply andb_true_iff in Hl as [Hc Hl].
  cbn [cut strip_prefix]. rewrite Ascii.eqb_sym. apply negb_true_iff in Hc.
  rewrite Hc, (IH Hl). reflexivity.
Qed.

Lemma split_cut (sep s a b : string) :
  nonempty sep = true -> cut sep s = Some (a, b) ->
  split sep s = a :: split sep b.
Proof.
  intros Hsep Hc. pose proof (cut_shorter _ _ _ _ Hsep Hc) as Hlt.
  unfold split. destruct (String.length s) as [|n] eqn:El; [lia|].
  rewrite split_fuel_S, Hc. f_equal. apply split_fuel_enough; [assumption|lia|lia].
Qed.

Lemma split_no_cut (sep s : string) : cut sep s = None -> split sep s = [s].
Proof.
  intros Hc. unfold split. destruct (String.length s); [reflexivity|].
  rewrite split_fuel_S, Hc. reflexivity.
Qed.

(** Splitting the header block gives back the header lines, followed by
    the two empty pieces around the final end of line. *)
Lemma split_header_block (headers : list string) :
  Forall (fun h => Py.forallb not_cr h = true) headers ->
  split crlf (header_block headers) = headers ++ [EmptyString; EmptyString].
Proof.
  induction 1 as [|h hs Hh Hhs IH].
  - reflexivity.
  - cbn [header_block fold_right]. fold (header_block hs).
    rewrite (split_cut crlf _ h (header_block hs) eq_refl); [rewrite IH; reflexivity|].
    apply cut_app_first. exact Hh.
Qed.

Lemma omap_updated_header_end (host : string) (port : Z) (headers : list string) :
  omap (updated_header host port) (headers ++ [EmptyString; EmptyString]) =
  omap (updated_header host port) headers.
Proof.
  rewrite omap_app. change (omap (updated_header host port) [""; ""]) with (@nil string).
  apply app_nil_r.
Qed.

Lemma search_get_here (s url : string) :
  get_match_here s = Some url -> search_get s = Some url.
Proof. intros H. destruct s; cbn [search_get]; rewrite H; reflexivity. Qed.

Lemma forallb_line_char_not_space (s : string) :
  Py.forallb line_char s = true -> Py.forallb not_space s = true.
Proof.
  apply forallb_impl. intros c. unfold line_char, not_space.
  destruct (Ascii.eqb c " "); [discriminate|reflexivity].
Qed.

Lemma forallb_line_char_not_newline (s : string) :
  Py.forallb line_char s = true -> Py.forallb not_newline s = true.
Proof.
  apply forallb_impl. intros c. unfold line_char, not_newline.
  destruct (Ascii.eqb c "010"); [rewrite andb_false_r; discriminate|reflexivity].
Qed.

Lemma forallb_line_char_not_cr (s : string) :
  Py.forallb line_char s = true -> Py.forallb not_cr s = true.
Proof.
  apply forallb_impl. intros c. unfold line_char, not_cr.
  destruct (Ascii.eqb c "013"); [rewrite andb_false_r; discriminate|reflexivity].
Qed.

Lemma forallb_path_char_line_char (s : string) :
  Py.forallb path_char s = true -> Py.forallb line_char s = true.
Proof.
  apply forallb_impl. intros c. unfold path_char.
  intros H. apply andb_true_iff in H. tauto.
Qed.

Lemma is_host_char_line_char (c : ascii) :
  is_host_char c = true -> path_char c = true.
Proof.
  destruct c as [[] [] [] [] [] [] [] []]; vm_compute; congruence.
Qed.

Lemma is_digit_path_char (c : ascii) : is_digit c = true -> path_char c = true.
Proof.
  destruct c as [[] [] [] [] [] [] [] []]; vm_compute; congruence.
Qed.

End WellFormedRequests.

Section ParsedRequests.

Lemma forallb_host_line_char (s : string) :
  Py.forallb is_host_char s = true -> Py.forallb line_char s = true.
Proof.
  intros H. apply forallb_path_char_line_char.
  revert H. apply forallb_impl, is_host_char_line_char.
Qed.

Lemma forallb_digit_line_char (s : string) :
  Py.forallb is_digit s = true -> Py.forallb line_char s = true.
Proof.
  intros H. apply forallb_path_char_line_char.
  revert H. apply forallb_impl, is_digit_path_char.
Qed.

(** The URL of a well-formed request has no space or end of line. *)
Lemma absolute_url_line_chars (host : string) (port : option string)
    (path query : string) :
  well_formed_url host port path query ->
  Py.forallb line_char
    (host +:+ match port with Some p => ":" +:+ p | None => EmptyString end
     +:+ path +:+ "?" +:+ query) = true.
Proof.
  intros (Hn & Hh & Hp & Hs & Hpa & Hq).
  rewrite !forallb_app, (forallb_host_line_char _ Hh),
    (forallb_path_char_line_char _ Hpa), Hq.
  destruct port as [p|]; [|reflexivity].
  destruct Hp as [_ Hp]. rewrite forallb_app, (forallb_digit_line_char _ Hp).
  reflexivity.
Qed.

(** The path of a well-formed URL starts with a slash. *)
Lemma path_head (path : string) :
  startswith path "/" = true -> exists r, path = String "/" r.
Proof.
  unfold startswith. destruct (strip_prefix "/" path) as [r|] eqn:E; [|discriminate].
  intros _. apply strip_prefix_Some in E. exists r. exact E.
Qed.

Lemma match_url_well_formed (host : string) (port : option string)
    (path query : string) :
  well_formed_url host port path query ->
  match_url (absolute_url host port path query) =
  Some (host, port, path +:+ "?" +:+ query).
Proof.
  intros Hwf. pose proof Hwf as (Hn & Hh & Hp & Hs & Hpa & Hq).
  destruct (path_head _ Hs) as [r ->].
  assert (Hnl : span not_newline (String "/" r +:+ "?" +:+ query) =
                (String "/" r +:+ "?" +:+ query, EmptyString)).
  { rewrite <- (app_empty_r (String "/" r +:+ "?" +:+ query)) at 1.
    apply span_app_stop; [|exact I].
    apply forallb_line_char_not_newline.
    rewrite !forallb_app, (forallb_path_char_line_char _ Hpa), Hq. reflexivity. }
  unfold match_url, absolute_url. rewrite strip_prefix_app.
  destruct port as [p|].
  - rewrite (span_app_stop is_host_char host) by (assumption || reflexivity).
    rewrite Hn. change ((":" +:+ p) +:+ ?x) with (String ":" (p +:+ x)).
    cbv iota. destruct Hp as [Hpn Hp].
    rewrite (span_app_stop is_digit p) by (assumption || reflexivity).
    rewrite Hpn, Hnl. reflexivity.
  - rewrite app_empty_l.
    rewrite (span_app_stop is_host_char host) by (assumption || reflexivity).
    rewrite Hn. rewrite app_cons. cbv iota. rewrite <- app_cons, Hnl. reflexivity.
Qed.

Lemma search_get_well_formed (host : string) (port : option string)
    (path query minor : string) (headers : list string) :
  well_formed_url host port path query ->
  minor = "0" \/ minor = "1" ->
  search_get (proxy_request host port path query minor headers) =
  Some (absolute_url host port path query).
Proof.
  intros Hwf Hminor. apply search_get_here.
  unfold get_match_here, proxy_request, absolute_url.
  rewrite !app_assoc.
  change ("GET " +:+ "http://" +:+ ?x) with ("GET http://" +:+ x).
  rewrite strip_prefix_app.
  pose proof (absolute_url_line_chars _ _ _ _ Hwf) as Hl.
  apply forallb_line_char_not_space in Hl.
  assert (Hne : nonempty
            (host +:+ match port with Some p => ":" +:+ p | None => EmptyString end
             +:+ path +:+ "?" +:+ query) = true).
  { destruct Hwf as (Hn & _). destruct host; [discriminate|reflexivity]. }
  set (u := host +:+ match port with Some p => ":" +:+ p | None => EmptyString end
            +:+ path +:+ "?" +:+ query) in *.
  set (r := " HTTP/1." +:+ minor +:+ crlf +:+ header_block headers).
  assert (Hu : host +:+ match port with Some p => ":" +:+ p | None => EmptyString end
               +:+ path +:+ "?" +:+ query +:+ r = u +:+ r).
  { subst u. rewrite !app_assoc. reflexivity. }
  rewrite Hu, (span_app_stop not_space u r Hl) by reflexivity.
  rewrite Hne. subst r.
  destruct Hminor as [-> | ->]; reflexivity.
Qed.

Lemma split_path_well_formed (path query : string) :
  Py.forallb path_char path = true ->
  split_path (path +:+ "?" +:+ query) = (path, query).
Proof.
  intros Hpa. unfold split_path. rewrite cut_app_first; [reflexivity|].
  revert Hpa. apply forallb_impl. intros c. unfold path_char.
  intros H. apply andb_true_iff in H. tauto.
Qed.

(** X9.  A well-formed proxy request (7-bit, within the digit limit of
    [int]) is understood as it was written:
    from [GET http://host[:port]path?query HTTP/1.0|1.1] the handler
    recovers exactly the host, the path and the query string, takes the
    port the URL names, 80 when it names none, and then either intercepts
    the request (the query has the marker [info_hash=]) or passes it
    through. *)
Theorem well_formed_request_parsed (cfg : config) (sc : gmap string Z)
    (host : string) (port : option string) (path query minor : string)
    (headers : list string) :
  well_formed_url host port path query ->
  minor = "0" \/ minor = "1" ->
  request_in_model (proxy_request host port path query minor headers) = true ->
  let text := proxy_request host port path query minor headers in
  request_query text = Some query /\
  exists port_number,
    match port with
    | Some p => int p = Ok port_number
    | None => port_number = 80
    end /\
    (contains "info_hash=" query = true ->
     let ih := extract_params query !! "info_hash" in
     let m := select_multiplier cfg sc ih in
     intercept cfg sc text =
     q' ← rewrite_query cfg (extract_params query) m query;
     Ok (Intercepted host port_number ih m q'
           (rebuild_request path q' (rebuild_headers host port_number text)))) /\
    (contains "info_hash=" query = false ->
     intercept cfg sc text = Ok Passthrough).
Proof.
  intros Hwf Hminor _ text.
  pose proof (search_get_well_formed host port path query minor headers Hwf Hminor)
    as Hg. fold text in Hg.
  pose proof (match_url_well_formed host port path query Hwf) as Hm.
  pose proof Hwf as (_ & _ & Hp & _ & Hpa & _).
  pose proof (split_path_well_formed path query Hpa) as Hsp.
  split.
  { unfold request_query. rewrite Hg. simpl. rewrite Hm. simpl. rewrite Hsp.
    reflexivity. }
  assert (Hport : exists n, match port with Some p => int p | None => Ok 80 end = Ok n).
  { destruct port as [p|]; [|eauto]. destruct Hp. apply int_digits; assumption. }
  destruct Hport as [n Hn]. exists n. split.
  { destruct port; [exact Hn|congruence]. }
  split; intros Hc; unfold intercept; rewrite Hg, Hm, Hn; simpl; rewrite Hsp, Hc;
    reflexivity.
Qed.

Lemma well_formed_request_parsed_witness :
  request_query
    (proxy_request "tracker.example.com" (Some "6969") "/announce" sample_query "0"
       ["Host: tracker.example.com:6969"; "User-Agent: client"])
  = Some sample_query.
Proof.
  refine (proj1 (well_formed_request_parsed default_config ∅ "tracker.example.com"
            (Some "6969") "/announce" sample_query "0"
            ["Host: tracker.example.com:6969"; "User-Agent: client"] _ _ _)).
  - repeat split; vm_compute; reflexivity.
  - left. reflexivity.
  - vm_compute. reflexivity.
Defined.

End ParsedRequests.

Section Reassembly.

Lemma first_line_no_cr (host : string) (port : option string)
    (path query minor : string) :
  well_formed_url host port path query ->
  minor = "0" \/ minor = "1" ->
  Py.forallb not_cr
    ("GET " +:+ absolute_url host port path query +:+ " HTTP/1." +:+ minor) = true.
Proof.
  intros Hwf Hminor.
  pose proof (absolute_url_line_chars _ _ _ _ Hwf) as Hl.
  apply forallb_line_char_not_cr in Hl.
  rewrite (forallb_app _ "GET "), (forallb_app _ (absolute_url host port path query)),
    (forallb_app _ " HTTP/1.").
  unfold absolute_url. rewrite (forallb_app _ "http://"), Hl.
  destruct Hminor as [-> | ->]; reflexivity.
Qed.

(** The header lines of a well-formed request, as [rebuild_headers] finds
    them. *)
Lemma rebuild_headers_well_formed (host host' : string) (port : option string)
    (port' : Z) (path query minor : string) (headers : list string) :
  well_formed_url host port path query ->
  minor = "0" \/ minor = "1" ->
  Forall (fun h => Py.forallb not_cr h = true) headers ->
  rebuild_headers host' port' (proxy_request host port path query minor headers) =
  join crlf (omap (updated_header host' port') headers) +:+ crlf +:+ crlf.
Proof.
  intros Hwf Hminor Hh. unfold rebuild_headers, proxy_request.
  rewrite (split_cut crlf _
             ("GET " +:+ absolute_url host port path query +:+ " HTTP/1." +:+ minor)
             (header_block headers) eq_refl).
  - cbn [tail]. rewrite (split_header_block _ Hh), omap_updated_header_end.
    reflexivity.
  - apply cut_app_first. apply (first_line_no_cr _ _ _ _ _ Hwf Hminor).
Qed.

Lemma sub_first_nonempty (marker repl s : string) :
  nonempty marker = true -> nonempty s = true ->
  nonempty (sub_first marker repl s) = true.
Proof.
  intros Hm Hs. unfold sub_first.
  destruct (search_field marker s) as [[[pre v] post]|]; [|exact Hs].
  destruct pre; [|reflexivity]. rewrite app_empty_l.
  destruct marker; [discriminate|reflexivity].
Qed.

Lemma rewrite_query_nonempty (cfg : config) (params : gmap string string)
    (m : float) (q q' : string) :
  nonempty q = true -> rewrite_query cfg params m q = Ok q' -> nonempty q' = true.
Proof.
  intros Hq H. unfold rewrite_query in H. apply bind_Ok in H as (q1 & H1 & H).
  inversion H; subst q'. clear H.
  assert (N1 : nonempty q1 = true).
  { unfold rewrite_uploaded in H1. destruct (params !! "uploaded").
    - apply bind_Ok in H1 as (t & _ & H1). inversion H1.
      apply sub_first_nonempty; [reflexivity|assumption].
    - inversion H1; subst; assumption. }
  assert (N2 : nonempty (rewrite_downloaded cfg q1) = true).
  { unfold rewrite_downloaded.
    destruct (NO_DOWNLOAD cfg && contains "downloaded=" q1); [|exact N1].
    apply sub_first_nonempty; [reflexivity|assumption]. }
  unfold rewrite_left.
  destruct (PRETEND_TO_SEED cfg && contains "left=" _); [|exact N2].
  apply sub_first_nonempty; [reflexivity|assumption].
Qed.

Lemma omap_updated_header_plain (host : string) (port : Z) (headers : list string) :
  Forall (fun h => nonempty h = true /\ startswith (lower h) "host:" = false)
    headers ->
  omap (updated_header host port) headers = headers.
Proof.
  induction 1 as [|h hs [Hn Hh] _ IH]; [reflexivity|].
  cbn [omap list_omap]. unfold updated_header at 1. rewrite Hh, Hn.
  f_equal. exact IH.
Qed.

(** X10.  The request forwarded for a well-formed proxy request (7-bit,
    within the digit limit of [int]) is the request received with three
    changes and no other: the request line
    names the path and the rewritten query instead of the absolute URL,
    the version is HTTP/1.1 whatever the client's was, and every header
    line that starts with [host:] in any letter case is replaced by
    [Host: host:port]; the other header lines follow in the same order,
    unchanged, and the request ends with an empty line.  A request with
    no [Host] header is forwarded without one. *)
Theorem forwarded_request_reassembled (cfg : config) (sc : gmap string Z)
    (host : string) (port : option string) (path query minor : string)
    (headers : list string) (host' : string) (port' : Z) (ih : option string)
    (m : float) (q' req : string) :
  well_formed_url host port path query ->
  minor = "0" \/ minor = "1" ->
  Forall (fun h => Py.forallb not_cr h = true) headers ->
  request_in_model (proxy_request host port path query minor headers) = true ->
  intercept cfg sc (proxy_request host port path query minor headers) =
    Ok (Intercepted host' port' ih m q' req) ->
  host' = host /\
  match port with Some p => int p = Ok port' | None => port' = 80 end /\
  rewrite_query cfg (extract_params query) m query = Ok q' /\
  req = "GET " +:+ path +:+ "?" +:+ q' +:+ " HTTP/1.1" +:+ crlf
        +:+ join crlf (omap (updated_header host port') headers)
        +:+ crlf +:+ crlf /\
  (Forall (fun h => nonempty h = true /\ startswith (lower h) "host:" = false)
     headers ->
   req = "GET " +:+ path +:+ "?" +:+ q' +:+ " HTTP/1.1" +:+ crlf
         +:+ join crlf headers +:+ crlf +:+ crlf).
Proof.
  intros Hwf Hminor Hh _ Hi.
  pose proof (search_get_well_formed host port path query minor headers Hwf Hminor)
    as Hg.
  pose proof (match_url_well_formed host port path query Hwf) as Hm.
  pose proof Hwf as (_ & _ & _ & _ & Hpa & _).
  pose proof (split_path_well_formed path query Hpa) as Hsp.
  unfold intercept in Hi. rewrite Hg, Hm in Hi.
  apply bind_Ok in Hi as (n & Hn & Hi). rewrite Hsp in Hi.
  destruct (contains "info_hash=" query) eqn:Hc; [|discriminate]. simpl in Hi.
  apply bind_Ok in Hi as (q1 & Hq1 & Hi). injection Hi as <- <- <- <- <- <-.
  set (q' := q1). set (port' := n).
  assert (Hne : nonempty q' = true).
  { eapply rewrite_query_nonempty; [|exact Hq1]. destruct query; [discriminate|reflexivity]. }
  assert (Hreq : rebuild_request path q'
                   (rebuild_headers host port'
                      (proxy_request host port path query minor headers)) =
                 "GET " +:+ path +:+ "?" +:+ q' +:+ " HTTP/1.1" +:+ crlf
                 +:+ join crlf (omap (updated_header host port') headers)
                 +:+ crlf +:+ crlf).
  { unfold rebuild_request.
    rewrite Hne, (rebuild_headers_well_formed _ _ _ _ _ _ _ _ Hwf Hminor Hh).
    rewrite !app_assoc. reflexivity. }
  split; [reflexivity|]. split; [destruct port; [exact Hn|injection Hn as Hn; symmetry; exact Hn]|].
  split; [exact Hq1|]. split; [exact Hreq|].
  intros Hplain. rewrite Hreq, (omap_updated_header_plain _ _ _ Hplain). reflexivity.
Qed.

Lemma forwarded_request_reassembled_witness :
  exists req,
    intercept default_config ∅
      (proxy_request "tracker.example.com" (Some "6969") "/announce" sample_query "0"
         ["HOST: tracker.example.com:6969"; "User-Agent: client"]) =
      Ok (Intercepted "tracker.example.com" 6969 (Some "ABC") 3.0
            "info_hash=ABC&uploaded=3000.0&downloaded=500&left=0&event=started" req) /\
    req = "GET /announce?info_hash=ABC&uploaded=3000.0&downloaded=500&left=0&event=started HTTP/1.1"
          +:+ crlf +:+ "Host: tracker.example.com:6969" +:+ crlf
          +:+ "User-Agent: client" +:+ crlf +:+ crlf.
Proof.
  eexists. split; [vm_compute; reflexivity|].
  match goal with |- ?r = _ =>
    destruct (forwarded_request_reassembled default_config ∅
                "tracker.example.com" (Some "6969") "/announce" sample_query "0"
                ["HOST: tracker.example.com:6969"; "User-Agent: client"]
                "tracker.example.com" 6969 (Some "ABC") 3.0
                "info_hash=ABC&uploaded=3000.0&downloaded=500&left=0&event=started" r)
      as (_ & _ & _ & H & _)
  end;
    [repeat split; vm_compute; reflexivity | left; reflexivity
    | repeat constructor | vm_compute; reflexivity | vm_compute; reflexivity
    | exact H].
Defined.

End Reassembly.

(* ===================================================================== *)
(** * The decoder on bencoded values                                      *)
(* ===================================================================== *)

Section DecimalText.

Lemma digits_run_uint_acc (u : Decimal.uint) (p : positive) :
  digits_run (Z.pos p) (NilEmpty.string_of_uint u) =
  Some (Z.pos (Pos.of_uint_acc u p), EmptyString).
Proof.
  revert p. induction u as [|u IH|u IH|u IH|u IH|u IH|u IH|u IH|u IH|u IH|u IH];
    intros p; [reflexivity|..];
    cbn [NilEmpty.string_of_uint digits_run is_digit Pos.of_uint_acc];
    rewrite <- IH; f_equal; unfold digit_value;
    match goal with
    | |- context [Z.of_nat (nat_of_ascii ?c)] =>
        let v := eval vm_compute in (Z.of_nat (nat_of_ascii c)) in
        change (Z.of_nat (nat_of_ascii c)) with v
    end; lia.
Qed.

Lemma digits_run_uint (u : Decimal.uint) :
  digits_run 0 (NilEmpty.string_of_uint u) = Some (Z.of_uint u, EmptyString).
Proof.
  induction u as [|u IH|u IH|u IH|u IH|u IH|u IH|u IH|u IH|u IH|u IH];
    [reflexivity|exact IH|..];
    cbn [NilEmpty.string_of_uint digits_run is_digit];
    exact (digits_run_uint_acc u _).
Qed.

Lemma string_of_uint_digits (u : Decimal.uint) :
  Py.forallb is_digit (NilEmpty.string_of_uint u) = true.
Proof. induction u; simpl; auto. Qed.

Lemma string_of_uint_nonempty (u : Decimal.uint) :
  u <> Decimal.Nil -> nonempty (NilEmpty.string_of_uint u) = true.
Proof. destruct u; [contradiction|reflexivity..]. Qed.

Lemma int_of_digits (s : string) (n : Z) :
  nonempty s = true -> Py.forallb is_digit s = true ->
  digits_run 0 s = Some (n, EmptyString) ->
  int s = Ok n /\ int (String "-" s) = Ok (- n).
Proof.
  intros Hn Hd Hr. destruct s as [|c s]; [discriminate|].
  pose proof Hd as Hd'. simpl in Hd'. apply andb_true_iff in Hd' as [Hc _].
  destruct (is_digit_inv _ Hc) as (H1 & H2 & H3 & _).
  split.
  - unfold int. simpl lstrip. rewrite H1. rewrite H2, H3, Hc, Hr. simpl.
    f_equal. lia.
  - unfold int. cbn [lstrip is_space]. change ("-" =? "+")%char with false.
    change ("-" =? "-")%char with true. cbv iota. rewrite Hc, Hr.
    cbn [lstrip nonempty]. apply f_equal. lia.
Qed.

(** [int] reads back what [str] writes. *)
Lemma int_str_of_int (n : Z) : int (str_of_int n) = Ok n.
Proof.
  destruct n as [|p|p]; [reflexivity|..]; unfold str_of_int; simpl Z.to_int;
    pose proof (DecimalPos.Unsigned.of_to p) as Hp;
    assert (Hnil : Pos.to_uint p <> Decimal.Nil)
      by (intros E; rewrite E in Hp; discriminate);
    destruct (int_of_digits (NilEmpty.string_of_uint (Pos.to_uint p)) (Z.pos p)
                (string_of_uint_nonempty _ Hnil) (string_of_uint_digits _)) as [H1 H2];
    try (rewrite digits_run_uint; unfold Z.of_uint; rewrite Hp; reflexivity);
    unfold NilZero.string_of_int, NilZero.string_of_uint;
    destruct (Pos.to_uint p); try contradiction; assumption.
Qed.

(** The text of an integer is a non-empty run of digits, after a minus
    sign when it is negative. *)
Lemma str_of_int_digits (n : Z) :
  0 <= n ->
  nonempty (str_of_int n) = true /\ Py.forallb is_digit (str_of_int n) = true.
Proof.
  intros Hn. destruct n as [|p|p]; [split; reflexivity| |lia].
  unfold str_of_int. simpl Z.to_int.
  pose proof (DecimalPos.Unsigned.of_to p) as Hp.
  assert (Hnil : Pos.to_uint p <> Decimal.Nil)
    by (intros E; rewrite E in Hp; discriminate).
  pose proof (string_of_uint_nonempty _ Hnil) as H1.
  pose proof (string_of_uint_digits (Pos.to_uint p)) as H2.
  unfold NilZero.string_of_int, NilZero.string_of_uint.
  destruct (Pos.to_uint p); try contradiction; split; assumption.
Qed.

Lemma str_of_int_sign_digits (n : Z) :
  exists s, nonempty s = true /\ Py.forallb is_digit s = true /\
            (str_of_int n = s \/ str_of_int n = String "-" s).
Proof.
  destruct (Z_lt_ge_dec n 0) as [Hneg|Hpos].
  - destruct (str_of_int_digits (- n) ltac:(lia)) as [H1 H2].
    exists (str_of_int (- n)). split; [assumption|]. split; [assumption|]. right.
    destruct n as [|p|p]; try lia. unfold str_of_int. simpl.
    reflexivity.
  - destruct (str_of_int_digits n ltac:(lia)) as [H1 H2].
    exists (str_of_int n). auto.
Qed.

Lemma find_char_forallb (p : ascii -> bool) (c : ascii) (s : string) :
  p c = false -> Py.forallb p s = true -> find_char c s = None.
Proof.
  intros Hc. induction s as [|d s IH]; simpl; intros H; [reflexivity|].
  apply andb_true_iff in H as [Hd Hs].
  destruct (Ascii.eqb_spec d c) as [->|_]; [congruence|]. rewrite IH by assumption.
  reflexivity.
Qed.

Lemma str_of_int_no_e (n : Z) : find_char "e" (str_of_int n) = None.
Proof.
  destruct (str_of_int_sign_digits n) as (s & _ & Hd & [-> | ->]).
  - exact (find_char_forallb is_digit "e" s eq_refl Hd).
  - simpl. rewrite (find_char_forallb is_digit "e" s eq_refl Hd). reflexivity.
Qed.

Lemma str_of_int_no_colon (n : Z) :
  0 <= n -> find_char ":" (str_of_int n) = None.
Proof.
  intros Hn. destruct (str_of_int_digits n Hn) as [_ Hd].
  exact (find_char_forallb is_digit ":" _ eq_refl Hd).
Qed.

End DecimalText.

Section BufferFacts.

Lemma len_app (s t : string) : len (s +:+ t) = len s + len t.
Proof. unfold len. rewrite length_app. lia. Qed.

Lemma drop_app_length (s t : string) : Py.drop (String.length s) (s +:+ t) = t.
Proof. induction s as [|c s IH]; [reflexivity|]. rewrite app_cons. exact IH. Qed.

Lemma take_app_length (s t : string) : Py.take (String.length s) (s +:+ t) = s.
Proof.
  induction s as [|c s IH]; [destruct t; reflexivity|].
  rewrite app_cons. simpl. f_equal. exact IH.
Qed.

(** The slice that covers the middle part of a buffer. *)
Lemma slice_app_mid (pre s post : string) :
  slice (pre +:+ s +:+ post) (len pre) (len pre + len s) = s.
Proof.
  unfold slice, clamp. rewrite !len_app. unfold len.
  destruct (Z.ltb_spec (Z.of_nat (String.length pre)) 0); [lia|].
  destruct (Z.ltb_spec (Z.of_nat (String.length pre) + Z.of_nat (String.length s)) 0);
    [lia|].
  replace (Z.to_nat (Z.min _ _ - Z.min _ _)) with (String.length s) by lia.
  replace (Z.to_nat (Z.min _ _)) with (String.length pre) by lia.
  rewrite drop_app_length. apply take_app_length.
Qed.

Lemma slice_app_byte (pre : string) (c : ascii) (post : string) :
  slice (pre +:+ String c post) (len pre) (len pre + 1) = String c EmptyString.
Proof. exact (slice_app_mid pre (String c EmptyString) post). Qed.

Lemma find_char_app (c : ascii) (s r : string) :
  find_char c s = None ->
  find_char c (s +:+ String c r) = Some (String.length s).
Proof.
  induction s as [|d s IH]; intros H.
  - simpl. rewrite Ascii.eqb_refl. reflexivity.
  - rewrite app_cons. simpl in *. destruct (Ascii.eqb d c); [discriminate|].
    destruct (find_char c s); [discriminate|]. rewrite IH by reflexivity. reflexivity.
Qed.

(** [index] finds the first occurrence after a part that has none. *)
Lemma index_app (pre s : string) (c : ascii) (post : string) :
  find_char c s = None ->
  Py.index (pre +:+ s +:+ String c post) c (len pre) = Ok (len pre + len s).
Proof.
  intros H. unfold Py.index, len.
  destruct (Z.ltb_spec (Z.of_nat (String.length pre)) 0); [lia|].
  rewrite Nat2Z.id, drop_app_length, (find_char_app c s post H). reflexivity.
Qed.

End BufferFacts.

Section FuelFacts.

(** A result other than the exhaustion of the fuel does not depend on the
    fuel: more fuel gives the same result. *)
Lemma decode_stable (data : string) (fuel : nat) :
  (forall index r, decode_next fuel data index = r ->
     r <> Raise FuelExhausted -> decode_next (S fuel) data index = r) /\
  (forall index lst r, decode_list fuel data index lst = r ->
     r <> Raise FuelExhausted -> decode_list (S fuel) data index lst = r) /\
  (forall index d r, decode_dict fuel data index d = r ->
     r <> Raise FuelExhausted -> decode_dict (S fuel) data index d = r).
Proof.
  induction fuel as [|fuel (IHn & IHl & IHd)].
  { repeat split; intros; subst; simpl in *; congruence. }
  repeat split.
  - intros index r H Hr.
    rewrite (decode_next_unfold fuel) in H. rewrite (decode_next_unfold (S fuel)).
    destruct (String.eqb (slice data index (index + 1)) "i"); [exact H|].
    destruct (isdigit (slice data index (index + 1))); [exact H|].
    destruct (String.eqb (slice data index (index + 1)) "l"); [apply IHl; assumption|].
    destruct (String.eqb (slice data index (index + 1)) "d"); [apply IHd; assumption|].
    exact H.
  - intros index lst r H Hr.
    rewrite (decode_list_unfold fuel) in H. rewrite (decode_list_unfold (S fuel)).
    destruct (negb (String.eqb (slice data index (index + 1)) "e")); [|exact H].
    destruct (decode_next fuel data index) as [[item i1]|e] eqn:E.
    + rewrite (IHn _ _ E ltac:(discriminate)). rewrite bind_Ok_eq in H |- *.
      apply IHl; assumption.
    + rewrite bind_Raise_eq in H. subst r. rewrite (IHn _ _ E Hr). reflexivity.
  - intros index d r H Hr.
    rewrite (decode_dict_unfold fuel) in H. rewrite (decode_dict_unfold (S fuel)).
    destruct (negb (String.eqb (slice data index (index + 1)) "e")); [|exact H].
    destruct (decode_next fuel data index) as [[key i1]|e] eqn:E.
    + rewrite (IHn _ _ E ltac:(discriminate)). rewrite bind_Ok_eq in H |- *.
      destruct (decode_next fuel data i1) as [[value i2]|e] eqn:E2.
      * rewrite (IHn _ _ E2 ltac:(discriminate)). rewrite bind_Ok_eq in H |- *.
        destruct (as_key key) as [k|e].
        -- rewrite bind_Ok_eq in H |- *. apply IHd; assumption.
        -- exact H.
      * rewrite bind_Raise_eq in H. subst r. rewrite (IHn _ _ E2 Hr). reflexivity.
    + rewrite bind_Raise_eq in H. subst r. rewrite (IHn _ _ E Hr). reflexivity.
Qed.

Lemma decode_next_more (data : string) (fuel fuel' : nat) (index : Z)
    (r : res (bvalue * Z)) :
  (fuel <= fuel')%nat -> decode_next fuel data index = r ->
  r <> Raise FuelExhausted -> decode_next fuel' data index = r.
Proof.
  intros Hle H Hr. induction Hle as [|m _ IH]; [exact H|].
  exact (proj1 (decode_stable data m) _ _ IH Hr).
Qed.

Lemma decode_list_more (data : string) (fuel fuel' : nat) (index : Z)
    (lst : list bvalue) (r : res (bvalue * Z)) :
  (fuel <= fuel')%nat -> decode_list fuel data index lst = r ->
  r <> Raise FuelExhausted -> decode_list fuel' data index lst = r.
Proof.
  intros Hle H Hr. induction Hle as [|m _ IH]; [exact H|].
  exact (proj1 (proj2 (decode_stable data m)) _ _ _ IH Hr).
Qed.

Lemma decode_dict_more (data : string) (fuel fuel' : nat) (index : Z)
    (d : list (bkey * bvalue)) (r : res (bvalue * Z)) :
  (fuel <= fuel')%nat -> decode_dict fuel data index d = r ->
  r <> Raise FuelExhausted -> decode_dict fuel' data index d = r.
Proof.
  intros Hle H Hr. induction Hle as [|m _ IH]; [exact H|].
  exact (proj2 (proj2 (decode_stable data m)) _ _ _ IH Hr).
Qed.

(** What the decoder returns with some fuel is what [bdecode] returns. *)
Lemma bdecode_from_fuel (data : string) (fuel : nat) (v : bvalue) (i : Z) :
  decode_next fuel data 0 = Ok (v, i) -> bdecode data = Ok v.
Proof.
  intros H. unfold bdecode.
  assert (Hf : decode_next (fuel_for data) data 0 <> Raise FuelExhausted).
  { apply (proj1 (decode_fuel data (fuel_for data)) 0); [lia|].
    unfold fuel_for, len. lia. }
  destruct (Nat.le_ge_cases fuel (fuel_for data)) as [Hle|Hge].
  - rewrite (decode_next_more _ _ _ _ _ Hle H ltac:(discriminate)). reflexivity.
  - rewrite (decode_next_more _ _ _ _ _ Hge eq_refl Hf) in H. rewrite H. reflexivity.
Qed.

End FuelFacts.

Section RoundTrip.

Lemma bvalue_induction (P : bvalue -> Prop) :
  (forall n, P (BInt n)) ->
  (forall s, P (BBytes s)) ->
  (forall l, Forall P l -> P (BList l)) ->
  (forall d, Forall (fun kx => P (snd kx)) d -> P (BDict d)) ->
  forall v, P v.
Proof.
  intros Hi Hb Hl Hd. fix IH 1. intros [n|s|l|d].
  - apply Hi.
  - apply Hb.
  - apply Hl. revert l. fix IHl 1. intros [|x l]; constructor; [apply IH|apply IHl].
  - apply Hd. revert d. fix IHd 1. intros [|[k x] d]; constructor; [apply IH|apply IHd].
Qed.

(** An integer is read from the text between [i] and the next [e],
    wherever it lies in the buffer. *)
Lemma decode_int_at (fuel : nat) (pre t post : string) (n : Z) :
  find_char "e" t = None -> int t = Ok n ->
  decode_next (S fuel) (pre +:+ "i" +:+ t +:+ "e" +:+ post) (len pre) =
  Ok (BInt n, len pre + 1 + len t + 1).
Proof.
  intros He Hn. rewrite decode_next_unfold.
  change (pre +:+ "i" +:+ t +:+ "e" +:+ post)
    with (pre +:+ String "i" (t +:+ String "e" post)).
  rewrite slice_app_byte. change (String.eqb "i" "i") with true. cbv iota.
  assert (Hd : pre +:+ String "i" (t +:+ String "e" post) =
               (pre +:+ "i") +:+ t +:+ String "e" post)
    by (rewrite app_assoc; reflexivity).
  rewrite Hd. replace (len pre + 1) with (len (pre +:+ "i"))
    by (rewrite len_app; reflexivity).
  rewrite (index_app _ _ _ _ He), bind_Ok_eq, slice_app_mid, Hn, bind_Ok_eq.
  reflexivity.
Qed.

(** A byte string is read from the bytes that follow its length and the
    colon. *)
Lemma decode_bytes_at (fuel : nat) (pre t s post : string) :
  nonempty t = true -> Py.forallb is_digit t = true -> int t = Ok (len s) ->
  decode_next (S fuel) (pre +:+ t +:+ ":" +:+ s +:+ post) (len pre) =
  Ok (BBytes s, len pre + len t + 1 + len s).
Proof.
  intros Hne Hd Hn. rewrite decode_next_unfold.
  assert (Hb : slice (pre +:+ t +:+ ":" +:+ s +:+ post) (len pre) (len pre + 1) =
               String (match t with String c _ => c | EmptyString => "0"%char end)
                 EmptyString).
  { destruct t as [|c r]; [discriminate|]. rewrite app_cons. apply slice_app_byte. }
  rewrite Hb. destruct t as [|c r] eqn:E; [discriminate|]. rewrite <- E in *.
  pose proof Hd as Hd'. rewrite E in Hd'. simpl in Hd'.
  apply andb_true_iff in Hd' as [Hc _].
  destruct (is_digit_inv _ Hc) as (_ & _ & _ & _ & Hi & _).
  replace (String.eqb (String c EmptyString) "i") with false
    by (simpl; rewrite Hi; reflexivity).
  replace (isdigit (String c EmptyString)) with true
    by (unfold isdigit; simpl; rewrite Hc; reflexivity).
  change (pre +:+ t +:+ ":" +:+ s +:+ post)
    with (pre +:+ t +:+ String ":" (s +:+ post)).
  rewrite (index_app _ _ _ _ (find_char_forallb is_digit ":" t eq_refl Hd)), bind_Ok_eq.
  rewrite slice_app_mid, Hn, bind_Ok_eq.
  assert (Hdata : pre +:+ t +:+ String ":" (s +:+ post) =
                  (pre +:+ t +:+ ":") +:+ s +:+ post)
    by (rewrite !app_assoc; reflexivity).
  rewrite Hdata.
  replace (len pre + len t + 1) with (len (pre +:+ t +:+ ":"))
    by (rewrite !len_app; change (len ":") with 1; lia).
  rewrite slice_app_mid. reflexivity.
Qed.

Lemma len_bencode_int (n : Z) : len (bencode_int n) = 1 + len (str_of_int n) + 1.
Proof.
  unfold bencode_int. rewrite !len_app. change (len "i") with 1.
  change (len "e") with 1. lia.
Qed.

Lemma len_bencode_bytes (s : string) :
  len (bencode_bytes s) = len (str_of_int (len s)) + 1 + len s.
Proof.
  unfold bencode_bytes. rewrite !len_app. change (len ":") with 1. lia.
Qed.

Lemma decode_bencode_int (fuel : nat) (pre post : string) (n : Z) :
  decode_next (S fuel) (pre +:+ bencode_int n +:+ post) (len pre) =
  Ok (BInt n, len pre + len (bencode_int n)).
Proof.
  rewrite len_bencode_int. unfold bencode_int. rewrite !app_assoc.
  rewrite (decode_int_at fuel pre _ post n (str_of_int_no_e n) (int_str_of_int n)).
  do 2 f_equal. lia.
Qed.

Lemma decode_bencode_bytes (fuel : nat) (pre post s : string) :
  decode_next (S fuel) (pre +:+ bencode_bytes s +:+ post) (len pre) =
  Ok (BBytes s, len pre + len (bencode_bytes s)).
Proof.
  assert (Hlen : 0 <= len s) by (unfold len; lia).
  destruct (str_of_int_digits (len s) Hlen) as [Hne Hd].
  rewrite len_bencode_bytes. unfold bencode_bytes. rewrite !app_assoc.
  rewrite (decode_bytes_at fuel pre _ s post Hne Hd (int_str_of_int _)).
  do 2 f_equal. lia.
Qed.

(** The bencoding of a value starts with a byte that is not [e]. *)
Lemma bencode_head (v : bvalue) :
  exists c r, bencode v = String c r /\ Ascii.eqb c "e" = false.
Proof.
  destruct v as [n|s|l|d]; [exists "i"%char|..|exists "l"%char|exists "d"%char];
    try (eexists; split; reflexivity).
  assert (Hlen : 0 <= len s) by (unfold len; lia).
  destruct (str_of_int_digits (len s) Hlen) as [Hne Hd].
  simpl. unfold bencode_bytes.
  destruct (str_of_int (len s)) as [|c r] eqn:E; [discriminate|].
  simpl in Hd. apply andb_true_iff in Hd as [Hc _].
  destruct (is_digit_inv _ Hc) as (_ & _ & _ & _ & _ & He & _).
  exists c. eexists. rewrite app_cons. split; [reflexivity|exact He].
Qed.

Lemma bencode_key_value (k : bkey) : bencode_key k = bencode (key_value k).
Proof. destruct k; reflexivity. Qed.

(** Setting keys that are all new and distinct appends the entries. *)
Lemma dict_set_new (d : list (bkey * bvalue)) (k : bkey) (v : bvalue) :
  k ∉ map fst d -> dict_set d k v = d ++ [(k, v)].
Proof.
  induction d as [|[k' v'] d IH]; intros H; [reflexivity|].
  simpl in *. apply not_elem_of_cons in H as [Hk Hd].
  destruct (decide (k' = k)); [congruence|]. rewrite IH by assumption. reflexivity.
Qed.

Lemma dict_set_all_new (d d0 : list (bkey * bvalue)) :
  NoDup (map fst (d0 ++ d)) ->
  fold_left (fun acc kx => dict_set acc (fst kx) (snd kx)) d d0 = d0 ++ d.
Proof.
  revert d0. induction d as [|[k v] d IH]; intros d0 H; simpl.
  - rewrite app_nil_r. reflexivity.
  - rewrite dict_set_new.
    + rewrite IH; rewrite <- List.app_assoc; [reflexivity|exact H].
    + rewrite map_app in H. simpl in H. apply NoDup_app in H as (_ & H & _).
      intros Hin. apply (H k Hin). left.
Qed.

Lemma decode_bencode_key (fuel : nat) (pre post : string) (k : bkey) :
  decode_next (S fuel) (pre +:+ bencode_key k +:+ post) (len pre) =
  Ok (key_value k, len pre + len (bencode_key k)).
Proof.
  destruct k; [apply decode_bencode_int|apply decode_bencode_bytes].
Qed.

Lemma slice_bencode_head (v : bvalue) (pre post : string) :
  exists c, slice (pre +:+ bencode v +:+ post) (len pre) (len pre + 1) =
              String c EmptyString /\ Ascii.eqb c "e" = false.
Proof.
  destruct (bencode_head v) as (c & r & E & Hc). exists c.
  rewrite E, app_cons. split; [apply slice_app_byte|exact Hc].
Qed.

(** The items of a list are read one after the other up to the [e]. *)
Lemma decode_bencode_items (l : list bvalue) :
  Forall (fun v => forall pre post, exists fuel,
            decode_next fuel (pre +:+ bencode v +:+ post) (len pre) =
            Ok (v, len pre + len (bencode v))) l ->
  forall pre post lst, exists fuel,
    decode_list fuel (pre +:+ bencode_items l +:+ post) (len pre) lst =
    Ok (BList (lst ++ l), len pre + len (bencode_items l)).
Proof.
  induction 1 as [|x l Hx _ IH]; intros pre post lst.
  - exists 1%nat. rewrite decode_list_unfold.
    change (pre +:+ bencode_items [] +:+ post) with (pre +:+ String "e" post).
    rewrite slice_app_byte. change (negb (String.eqb "e" "e")) with false. cbv iota.
    rewrite app_nil_r. reflexivity.
  - change (bencode_items (x :: l)) with (bencode x +:+ bencode_items l).
    rewrite app_assoc.
    destruct (slice_bencode_head x pre (bencode_items l +:+ post)) as (c & Hb & Hc).
    destruct (Hx pre (bencode_items l +:+ post)) as [f1 H1].
    destruct (IH (pre +:+ bencode x) post (lst ++ [x])) as [f2 H2].
    rewrite app_assoc in H2.
    exists (S (Nat.max f1 f2)). rewrite decode_list_unfold, Hb.
    replace (negb (String.eqb (String c EmptyString) "e")) with true
      by (simpl; rewrite Hc; reflexivity).
    rewrite (decode_next_more _ f1 _ _ _ (Nat.le_max_l _ _) H1 ltac:(discriminate)).
    rewrite bind_Ok_eq.
    rewrite <- (len_app pre).
    rewrite (decode_list_more _ f2 _ _ _ _ (Nat.le_max_r _ _) H2 ltac:(discriminate)).
    rewrite <- List.app_assoc, !len_app. simpl. do 2 f_equal. lia.
Qed.

(** The entries of a dictionary are read one after the other up to the
    [e], each one set in the dictionary built so far. *)
Lemma decode_bencode_entries (d : list (bkey * bvalue)) :
  Forall (fun kx => forall pre post, exists fuel,
            decode_next fuel (pre +:+ bencode (snd kx) +:+ post) (len pre) =
            Ok (snd kx, len pre + len (bencode (snd kx)))) d ->
  forall pre post d0, exists fuel,
    decode_dict fuel (pre +:+ bencode_entries d +:+ post) (len pre) d0 =
    Ok (BDict (fold_left (fun acc kx => dict_set acc (fst kx) (snd kx)) d d0),
        len pre + len (bencode_entries d)).
Proof.
  induction 1 as [|[k x] d Hx _ IH]; intros pre post d0.
  - exists 1%nat. rewrite decode_dict_unfold.
    change (pre +:+ bencode_entries [] +:+ post) with (pre +:+ String "e" post).
    rewrite slice_app_byte. change (negb (String.eqb "e" "e")) with false. cbv iota.
    reflexivity.
  - change (bencode_entries ((k, x) :: d))
      with (bencode_key k +:+ bencode x +:+ bencode_entries d).
    cbn [fst snd] in Hx. rewrite !app_assoc.
    destruct (slice_bencode_head (key_value k) pre
                (bencode x +:+ bencode_entries d +:+ post)) as (c & Hb & Hc).
    rewrite <- bencode_key_value in Hb.
    destruct (Hx (pre +:+ bencode_key k) (bencode_entries d +:+ post)) as [f1 H1].
    rewrite app_assoc in H1.
    destruct (IH ((pre +:+ bencode_key k) +:+ bencode x) post (dict_set d0 k x))
      as [f2 H2].
    rewrite !app_assoc in H2.
    exists (S (S (Nat.max f1 f2))). rewrite decode_dict_unfold, Hb.
    replace (negb (String.eqb (String c EmptyString) "e")) with true
      by (simpl; rewrite Hc; reflexivity).
    rewrite decode_bencode_key, bind_Ok_eq.
    rewrite <- (len_app pre).
    rewrite (decode_next_more _ f1 _ _ _
               (Nat.le_trans _ _ _ (Nat.le_max_l f1 f2) (Nat.le_succ_diag_r _))
               H1 ltac:(discriminate)).
    rewrite bind_Ok_eq.
    replace (as_key (key_value k)) with (Ok k) by (destruct k; reflexivity).
    rewrite bind_Ok_eq, <- (len_app (pre +:+ bencode_key k)).
    rewrite (app_assoc pre (bencode_key k) (bencode x)).
    rewrite (decode_dict_more _ f2 _ _ _ _
               (Nat.le_trans _ _ _ (Nat.le_max_r f1 f2) (Nat.le_succ_diag_r _))
               H2 ltac:(discriminate)).
    rewrite !len_app. simpl. do 2 f_equal. lia.
Qed.

(** A value whose dictionaries hold no key twice is read from its
    bencoding, wherever it lies in the buffer, and the index returned is
    the end of the bencoding. *)
Lemma decode_bencode (v : bvalue) :
  distinct_keys v ->
  forall pre post, exists fuel,
    decode_next fuel (pre +:+ bencode v +:+ post) (len pre) =
    Ok (v, len pre + len (bencode v)).
Proof.
  induction v as [n|s|l IH|d IH] using bvalue_induction; intros Hv pre post.
  - exists 1%nat. apply decode_bencode_int.
  - exists 1%nat. apply decode_bencode_bytes.
  - inversion Hv as [| |l' Hl|]; subst.
    assert (Hq : Forall (fun v => forall pre post, exists fuel,
                   decode_next fuel (pre +:+ bencode v +:+ post) (len pre) =
                   Ok (v, len pre + len (bencode v))) l).
    { rewrite Forall_forall in *. auto. }
    destruct (decode_bencode_items l Hq (pre +:+ "l") post []) as [f H].
    exists (S f). rewrite decode_next_unfold.
    change (bencode (BList l)) with ("l" +:+ bencode_items l).
    change (pre +:+ ("l" +:+ bencode_items l) +:+ post)
      with (pre +:+ String "l" (bencode_items l +:+ post)).
    rewrite slice_app_byte.
    change (String.eqb "l" "i") with false. change (isdigit "l") with false.
    change (String.eqb "l" "l") with true. cbv iota.
    rewrite app_assoc, len_app in H. change (len "l") with 1 in H.
    change ("l" +:+ bencode_items l +:+ post)
      with (String "l" (bencode_items l +:+ post)) in H.
    rewrite H. do 2 f_equal.
    change (String "l" (bencode_items l)) with ("l" +:+ bencode_items l).
    rewrite len_app. change (len "l") with 1. lia.
  - inversion Hv as [| | |d' Hk Hd]; subst.
    assert (Hq : Forall (fun kx => forall pre post, exists fuel,
                   decode_next fuel (pre +:+ bencode (snd kx) +:+ post) (len pre) =
                   Ok (snd kx, len pre + len (bencode (snd kx)))) d).
    { rewrite Forall_forall in *. auto. }
    destruct (decode_bencode_entries d Hq (pre +:+ "d") post []) as [f H].
    rewrite (dict_set_all_new d [] Hk) in H.
    exists (S f). rewrite decode_next_unfold.
    change (bencode (BDict d)) with ("d" +:+ bencode_entries d).
    change (pre +:+ ("d" +:+ bencode_entries d) +:+ post)
      with (pre +:+ String "d" (bencode_entries d +:+ post)).
    rewrite slice_app_byte.
    change (String.eqb "d" "i") with false. change (isdigit "d") with false.
    change (String.eqb "d" "l") with false.
    change (String.eqb "d" "d") with true. cbv iota.
    rewrite app_assoc, len_app in H. change (len "d") with 1 in H.
    change ("d" +:+ bencode_entries d +:+ post)
      with (String "d" (bencode_entries d +:+ post)) in H.
    rewrite H. do 2 f_equal.
    change (String "d" (bencode_entries d)) with ("d" +:+ bencode_entries d).
    rewrite len_app. change (len "d") with 1. lia.
Qed.

(** X11.  The decoder reads back every bencoded value: for a value
    whose dictionaries hold no key twice, decoding a buffer that starts
    with the bencoding of the value returns that value, whatever bytes
    follow it in the buffer (the interpreter's limits on nesting depth
    and on the digits of an integer aside). *)
Theorem bencoded_value_decoded (v : bvalue) (rest : string) :
  distinct_keys v -> bdecode (bencode v +:+ rest) = Ok v.
Proof.
  intros Hv. destruct (decode_bencode v Hv EmptyString rest) as [f H].
  exact (bdecode_from_fuel _ f v _ H).
Qed.

Lemma bencoded_value_decoded_witness :
  distinct_keys sample_reply /\
  bdecode (bencode sample_reply +:+ "trailing bytes") = Ok sample_reply.
Proof.
  assert (H : distinct_keys sample_reply).
  { apply distinct_dict.
    - apply (bool_decide_unpack _). vm_compute. exact I.
    - repeat constructor. }
  split; [exact H|exact (bencoded_value_decoded sample_reply "trailing bytes" H)].
Defined.

End RoundTrip.

Section DecoderRange.

Lemma dict_set_keys (d : list (bkey * bvalue)) (k : bkey) (v : bvalue) :
  map fst (dict_set d k v) = map fst d \/
  ((k ∉ map fst d) /\ map fst (dict_set d k v) = map fst d ++ [k]).
Proof.
  induction d as [|[k' v'] d IH]; simpl.
  - right. split; [apply not_elem_of_nil|reflexivity].
  - destruct (decide (k' = k)) as [->|Hne]; [left; reflexivity|].
    simpl. destruct IH as [-> | [Hk ->]]; [left; reflexivity|].
    right. split; [|reflexivity]. apply not_elem_of_cons. split; [congruence|exact Hk].
Qed.

Lemma dict_set_NoDup (d : list (bkey * bvalue)) (k : bkey) (v : bvalue) :
  NoDup (map fst d) -> NoDup (map fst (dict_set d k v)).
Proof.
  intros H. destruct (dict_set_keys d k v) as [-> | [Hk ->]]; [exact H|].
  apply NoDup_app. split; [exact H|]. split.
  - intros x Hx Hin. apply list_elem_of_singleton in Hin. subst x. contradiction.
  - apply NoDup_singleton.
Qed.

Lemma dict_set_Forall (P : bkey * bvalue -> Prop) (d : list (bkey * bvalue))
    (k : bkey) (v : bvalue) :
  Forall P d -> P (k, v) -> Forall P (dict_set d k v).
Proof.
  intros Hd Hv. induction Hd as [|[k' v'] d Hx Hd IH]; simpl.
  - constructor; [exact Hv|constructor].
  - destruct (decide (k' = k)) as [->|Hne]; constructor; auto.
Qed.

(** Whatever the decoder returns holds no key twice. *)
Lemma decode_distinct_keys (data : string) (fuel : nat) :
  (forall index v i, decode_next fuel data index = Ok (v, i) -> distinct_keys v) /\
  (forall index lst v i, Forall distinct_keys lst ->
     decode_list fuel data index lst = Ok (v, i) -> distinct_keys v) /\
  (forall index d v i, NoDup (map fst d) ->
     Forall (fun kx => distinct_keys (snd kx)) d ->
     decode_dict fuel data index d = Ok (v, i) -> distinct_keys v).
Proof.
  induction fuel as [|fuel (IHn & IHl & IHd)].
  { repeat split; intros; discriminate. }
  repeat split.
  - intros index v i H. rewrite decode_next_unfold in H.
    destruct (String.eqb (slice data index (index + 1)) "i").
    { apply bind_Ok in H as (end_ & _ & H).
      apply bind_Ok in H as (number & _ & H). injection H as <- _. constructor. }
    destruct (isdigit (slice data index (index + 1))).
    { apply bind_Ok in H as (colon & _ & H).
      apply bind_Ok in H as (length & _ & H). injection H as <- _. constructor. }
    destruct (String.eqb (slice data index (index + 1)) "l").
    { exact (IHl _ _ _ _ (List.Forall_nil _) H). }
    destruct (String.eqb (slice data index (index + 1)) "d").
    { exact (IHd _ [] _ _ (NoDup_nil_2) (List.Forall_nil _) H). }
    discriminate.
  - intros index lst v i Hlst H. rewrite decode_list_unfold in H.
    destruct (negb (String.eqb (slice data index (index + 1)) "e")).
    + apply bind_Ok in H as ([item i1] & H1 & H).
      apply (IHl _ _ _ _) in H; [exact H|].
      apply Forall_app. split; [exact Hlst|].
      constructor; [exact (IHn _ _ _ H1)|constructor].
    + injection H as <- _. constructor. exact Hlst.
  - intros index d v i Hk Hd H. rewrite decode_dict_unfold in H.
    destruct (negb (String.eqb (slice data index (index + 1)) "e")).
    + apply bind_Ok in H as ([key i1] & H1 & H).
      apply bind_Ok in H as ([value i2] & H2 & H).
      apply bind_Ok in H as (k & _ & H).
      apply (IHd _ _ _ _) in H; [exact H|apply dict_set_NoDup; exact Hk|].
      apply dict_set_Forall; [exact Hd|exact (IHn _ _ _ H2)].
    + injection H as <- _. constructor; assumption.
Qed.

(** X12.  The values the decoder can return are exactly the values whose
    dictionaries hold no key twice: a key that occurs again in a buffer
    replaces the entry it had, so no decoded map holds two entries for a
    key, and every value without such a repetition is the decoding of
    some buffer (the interpreter's limits on nesting depth and on the
    digits of an integer aside). *)
Theorem decoder_range (v : bvalue) :
  (exists data, bdecode data = Ok v) <-> distinct_keys v.
Proof.
  split.
  - intros [data H]. unfold bdecode in H.
    apply bind_Ok in H as ([v' i] & H & Hv). injection Hv as ->.
    exact (proj1 (decode_distinct_keys data (fuel_for data)) _ _ _ H).
  - intros Hv. exists (bencode v).
    destruct (decode_bencode v Hv EmptyString EmptyString) as [f H].
    change (EmptyString +:+ bencode v +:+ EmptyString)
      with (bencode v +:+ EmptyString) in H.
    rewrite app_empty_r in H. exact (bdecode_from_fuel _ f v _ H).
Qed.

(** The exceptions of the decoder. *)
Lemma decode_exn (data : string) (fuel : nat) :
  (forall index e, decode_next fuel data index = Raise e ->
     e = ValueError \/ e = TypeError \/ e = FuelExhausted) /\
  (forall index lst e, decode_list fuel data index lst = Raise e ->
     e = ValueError \/ e = TypeError \/ e = FuelExhausted) /\
  (forall index d e, decode_dict fuel data index d = Raise e ->
     e = ValueError \/ e = TypeError \/ e = FuelExhausted).
Proof.
  induction fuel as [|fuel (IHn & IHl & IHd)].
  { repeat split; intros; simpl in *; inversion H; auto. }
  repeat split.
  - intros index e H. rewrite decode_next_unfold in H.
    destruct (String.eqb (slice data index (index + 1)) "i").
    { apply bind_Raise in H as [H|(end_ & _ & H)]; [apply index_exn in H; auto|].
      apply bind_Raise in H as [H|(? & _ & H)]; [apply int_exn in H; auto|discriminate]. }
    destruct (isdigit (slice data index (index + 1))).
    { apply bind_Raise in H as [H|(colon & _ & H)]; [apply index_exn in H; auto|].
      apply bind_Raise in H as [H|(? & _ & H)]; [apply int_exn in H; auto|discriminate]. }
    destruct (String.eqb (slice data index (index + 1)) "l"); [eauto|].
    destruct (String.eqb (slice data index (index + 1)) "d"); [eauto|].
    inversion H; auto.
  - intros index lst e H. rewrite decode_list_unfold in H.
    destruct (negb (String.eqb (slice data index (index + 1)) "e")); [|discriminate].
    apply bind_Raise in H as [H|([item i1] & _ & H)]; eauto.
  - intros index d e H. rewrite decode_dict_unfold in H.
    destruct (negb (String.eqb (slice data index (index + 1)) "e")); [|discriminate].
    apply bind_Raise in H as [H|([key i1] & _ & H)]; [eauto|].
    apply bind_Raise in H as [H|([value i2] & _ & H)]; [eauto|].
    apply bind_Raise in H as [H|(k & _ & H)]; [|eauto].
    destruct key; inversion H; auto.
Qed.

(** X13.  The decoder stops on every buffer, and its outcome is a value,
    a [ValueError] (no terminator, a text that is no number, an unknown
    first byte, the end of the buffer) or a [TypeError] (a list or a map
    used as a key), and no other exception, the interpreter's recursion
    limit aside.  Each call and each turn of the two loops moves the
    index forward or fails, so the fuel of [bdecode], twice the length
    of the buffer plus one, is never used up. *)
Theorem decoder_stops (data : string) :
  (exists v, bdecode data = Ok v) \/
  bdecode data = Raise ValueError \/ bdecode data = Raise TypeError.
Proof.
  pose proof (bdecode_total data) as Ht.
  destruct (bdecode data) as [v|e] eqn:E; [left; eauto|right].
  unfold bdecode in E. apply bind_Raise in E as [E|([v i] & _ & E)]; [|discriminate].
  apply (proj1 (decode_exn data (fuel_for data))) in E as [-> | [-> | ->]]; auto.
  contradiction.
Qed.

End DecoderRange.

(* ===================================================================== *)
(** * The connection to the tracker                                       *)
(* ===================================================================== *)

Section TrackerConnection.

Lemma recv_loop_chunks (chunks : list string) (later : list recv_result)
    (response : string) :
  Forall (fun c => nonempty c = true) chunks ->
  recv_loop (map Chunk chunks ++ Chunk EmptyString :: later) response =
  Some (response +:+ fold_right String.append EmptyString chunks).
Proof.
  revert response. induction chunks as [|c chunks IH]; intros response H; simpl.
  - rewrite app_empty_r. reflexivity.
  - inversion H as [|? ? Hc Hcs]; subst. rewrite Hc. simpl.
    rewrite IH by assumption. rewrite app_assoc. reflexivity.
Qed.

Lemma recv_loop_interrupted (chunks : list string) (interrupted : list recv_result)
    (response : string) :
  Forall (fun c => nonempty c = true) chunks ->
  interrupted = [] \/ (exists later, interrupted = RecvRaises :: later) ->
  recv_loop (map Chunk chunks ++ interrupted) response = None.
Proof.
  intros H Hi. revert response.
  induction H as [|c chunks Hc _ IH]; intros response; simpl.
  - destruct Hi as [-> | [later ->]]; reflexivity.
  - rewrite Hc. simpl. apply IH.
Qed.

(** X14.  When the connection is made and the request sent, the response
    that [forward_to_tracker] returns is the concatenation, in the order
    received, of the chunks that came before the first empty chunk;
    nothing that the socket would give after the empty chunk is read. *)
Theorem response_is_chunks_before_end (net : network) (host : string) (port : Z)
    (request_text : string) (tracker_sock : string -> option (list recv_result))
    (chunks : list string) (later : list recv_result) :
  net host port = Some tracker_sock ->
  tracker_sock request_text = Some (map Chunk chunks ++ Chunk EmptyString :: later) ->
  Forall (fun c => nonempty c = true) chunks ->
  forward_to_tracker net host port request_text =
  Some (fold_right String.append EmptyString chunks).
Proof.
  intros Hn Hs Hc. unfold forward_to_tracker. rewrite Hn, Hs.
  exact (recv_loop_chunks chunks later EmptyString Hc).
Qed.

Lemma response_is_chunks_before_end_witness :
  forward_to_tracker
    (network_giving [Chunk "d8:comp"; Chunk "letei7ee"; Chunk EmptyString; RecvRaises])
    "tracker.example.com" 6969 "GET /announce HTTP/1.1"
  = Some "d8:completei7ee".
Proof.
  refine (response_is_chunks_before_end
            (network_giving
               [Chunk "d8:comp"; Chunk "letei7ee"; Chunk EmptyString; RecvRaises])
            "tracker.example.com" 6969 "GET /announce HTTP/1.1" _
            ["d8:comp"; "letei7ee"] [RecvRaises] _ _ _).
  - reflexivity.
  - reflexivity.
  - repeat constructor.
Defined.

(** X15.  A reply that is cut off is discarded whole: when a call of
    [recv] raises, or the socket stays silent until the time-out, after
    any number of chunks were received, [forward_to_tracker] returns
    [None]; the handler then writes nothing to the client, not even the
    chunks that did arrive, and leaves [seed_counts] as it was. *)
Theorem interrupted_reply_discarded (cfg : config) (sc : gmap string Z)
    (net : network) (text host : string) (port : Z) (ih : option string)
    (m : float) (q' req : string)
    (tracker_sock : string -> option (list recv_result))
    (chunks : list string) (interrupted : list recv_result) :
  intercept cfg sc text = Ok (Intercepted host port ih m q' req) ->
  net host port = Some tracker_sock ->
  tracker_sock req = Some (map Chunk chunks ++ interrupted) ->
  Forall (fun c => nonempty c = true) chunks ->
  interrupted = [] \/ (exists later, interrupted = RecvRaises :: later) ->
  let o := handle_client cfg sc (forward_to_tracker net) text in
  forward_to_tracker net host port req = None /\
  upstream o = Some (host, port, req) /\ to_client o = EmptyString /\
  closed o = true /\ seed_counts_after o = sc.
Proof.
  intros Hi Hn Hs Hc Hint o.
  assert (Hf : forward_to_tracker net host port req = None).
  { unfold forward_to_tracker. rewrite Hn, Hs.
    exact (recv_loop_interrupted chunks interrupted EmptyString Hc Hint). }
  split; [exact Hf|]. subst o. unfold handle_client.
  rewrite (intercepted_nonempty _ _ _ _ _ _ _ _ _ Hi), Hi. simpl.
  rewrite Hf. simpl. auto.
Qed.

Lemma interrupted_reply_discarded_witness :
  to_client
    (handle_client default_config ∅
       (forward_to_tracker (network_giving [Chunk "d8:completei7ee"; RecvRaises]))
       (announce sample_query)) = EmptyString.
Proof.
  refine (proj1 (proj2 (proj2 (interrupted_reply_discarded default_config ∅
            (network_giving [Chunk "d8:completei7ee"; RecvRaises])
            (announce sample_query) _ _ _ _ _ _ _
            ["d8:completei7ee"] [RecvRaises] _ _ _ _ _)))).
  - vm_compute. reflexivity.
  - reflexivity.
  - reflexivity.
  - repeat constructor.
  - right. eexists. reflexivity.
Defined.

(** The decoder refuses a buffer whose first byte opens no value. *)
Lemma bdecode_other_first_byte (c : ascii) (r : string) :
  Ascii.eqb c "i" || is_digit c || Ascii.eqb c "l" || Ascii.eqb c "d" = false ->
  bdecode (String c r) = Raise ValueError.
Proof.
  intros H. apply orb_false_iff in H as [H Hd]. apply orb_false_iff in H as [H Hl].
  apply orb_false_iff in H as [Hi Hg].
  unfold bdecode.
  assert (E : forall fuel, decode_next (S fuel) (String c r) 0 = Raise ValueError).
  { intros fuel. rewrite decode_next_unfold.
    rewrite (slice_app_byte EmptyString c r : slice (String c r) 0 (0 + 1) = _).
    simpl String.eqb. unfold isdigit. simpl. rewrite Hi, Hg, Hl, Hd. reflexivity. }
  unfold fuel_for. rewrite Nat.add_1_r, E. reflexivity.
Qed.

(** X16.  A reply whose first byte is not [i], [l], [d] or a digit, as
    is every reply that starts with an HTTP status line, is not
    bencoded for the decoder, which raises [ValueError] at its first
    byte: the handler relays the reply to the client unmodified and
    [seed_counts] stays as it was, whatever follows the first byte. *)
Theorem reply_with_other_first_byte_not_recorded (cfg : config)
    (sc : gmap string Z) (tracker : string -> Z -> string -> option string)
    (text host : string) (port : Z) (ih : option string) (m : float)
    (q' req : string) (c : ascii) (r : string) :
  intercept cfg sc text = Ok (Intercepted host port ih m q' req) ->
  tracker host port req = Some (String c r) ->
  Ascii.eqb c "i" || is_digit c || Ascii.eqb c "l" || Ascii.eqb c "d" = false ->
  let o := handle_client cfg sc tracker text in
  bdecode (String c r) = Raise ValueError /\
  to_client o = String c r /\ seed_counts_after o = sc.
Proof.
  intros Hi Ht Hc o. pose proof (bdecode_other_first_byte c r Hc) as Hd.
  split; [exact Hd|]. subst o.
  rewrite (handle_client_replied _ _ _ _ _ _ _ _ _ _ _ Hi Ht eq_refl), Hd.
  split; reflexivity.
Qed.

Lemma reply_with_other_first_byte_not_recorded_witness :
  seed_counts_after
    (handle_client default_config (<["ABC" := 2]> ∅)
       (tracker_replying ("HTTP/1.1 200 OK" +:+ crlf +:+ crlf +:+ "d8:completei7ee"))
       (announce sample_query))
  = <["ABC" := 2]> ∅.
Proof.
  refine (proj2 (proj2 (reply_with_other_first_byte_not_recorded default_config
            (<["ABC" := 2]> ∅)
            (tracker_replying ("HTTP/1.1 200 OK" +:+ crlf +:+ crlf +:+ "d8:completei7ee"))
            (announce sample_query) _ _ _ _ _ _ "H"
            ("TTP/1.1 200 OK" +:+ crlf +:+ crlf +:+ "d8:completei7ee") _ _ _))).
  - vm_compute. reflexivity.
  - reflexivity.
  - reflexivity.
Defined.

End TrackerConnection.

(* ===================================================================== *)
(** * Requests that report no counts                                      *)
(* ===================================================================== *)

Section MissingCounts.

Lemma rewrite_downloaded_no_match (cfg : config) (q : string) :
  search_field "downloaded=" q = None -> rewrite_downloaded cfg q = q.
Proof.
  intros H. unfold rewrite_downloaded.
  destruct (NO_DOWNLOAD cfg && contains "downloaded=" q); [|reflexivity].
  apply search_field_None_sub_first. exact H.
Qed.

(** X17.  An announce (7-bit, within the digit limit of [int]) that
    names a swarm, gives no value for [uploaded=], and for which the download and the remaining-bytes
    rewrites are each switched off or without a value to replace, is
    always forwarded: no product is computed, so nothing can fail, and
    the query string forwarded is the one received, byte for byte. *)
Theorem request_without_counts_unchanged (cfg : config) (sc : gmap string Z)
    (tracker : string -> Z -> string -> option string) (text q : string) :
  request_in_model text = true ->
  request_query text = Some q ->
  contains "info_hash=" q = true ->
  search_field "uploaded=" q = None ->
  NO_DOWNLOAD cfg = false \/ search_field "downloaded=" q = None ->
  PRETEND_TO_SEED cfg = false \/ search_field "left=" q = None ->
  exists host port path_only,
    let ih := extract_params q !! "info_hash" in
    let req := rebuild_request path_only q (rebuild_headers host port text) in
    intercept cfg sc text =
      Ok (Intercepted host port ih (select_multiplier cfg sc ih) q req) /\
    upstream (handle_client cfg sc tracker text) = Some (host, port, req).
Proof.
  intros _ Hq Hc Hu Hd Hl.
  destruct (intercept_eligible cfg sc text q Hq Hc) as (host & port & path_only & Hi).
  exists host, port, path_only. intros ih req.
  assert (Hr : rewrite_query cfg (extract_params q) (select_multiplier cfg sc ih) q
               = Ok q).
  { unfold rewrite_query, rewrite_uploaded. rewrite params_uploaded, Hu. simpl.
    assert (E1 : rewrite_downloaded cfg q = q).
    { destruct Hd as [Hd|Hd];
        [apply rewrite_downloaded_off|apply rewrite_downloaded_no_match]; exact Hd. }
    assert (E2 : rewrite_left cfg q = q).
    { destruct Hl as [Hl|Hl];
        [apply rewrite_left_off|apply rewrite_left_no_match]; exact Hl. }
    rewrite E1, E2. reflexivity. }
  cbv zeta in Hi. fold ih in Hi. rewrite Hr in Hi.
  split; [exact Hi|]. exact (intercepted_forwarded _ _ tracker _ _ _ _ _ _ _ Hi).
Qed.

Lemma request_without_counts_unchanged_witness :
  exists host port ih m req,
    intercept no_download_config ∅ (announce "info_hash=ABC&left=7&event=started") =
    Ok (Intercepted host port ih m "info_hash=ABC&left=7&event=started" req).
Proof.
  destruct (request_without_counts_unchanged no_download_config ∅ no_tracker
              (announce "info_hash=ABC&left=7&event=started")
              "info_hash=ABC&left=7&event=started")
    as (host & port & path_only & Hi & _).
  - vm_compute. reflexivity.
  - vm_compute. reflexivity.
  - vm_compute. reflexivity.
  - vm_compute. reflexivity.
  - right. vm_compute. reflexivity.
  - left. reflexivity.
  - eexists _, _, _, _, _. exact Hi.
Defined.

End MissingCounts.
